(** * Thermal control loop of the Pixel thermal HAL (thermal-helper.cpp)

    A shallow embedding of the severity classifier, the PID power
    calculator, the power allocator, the hard-limit policy, the per-device
    aggregation and the snapshot queries of [ThermalHelper], together with
    the properties of the specification that concern them.

    C++ [float] is IEEE-754 binary32 and [double] is binary64; both are
    modelled with the executable specification of [SpecFloat] (round to
    nearest even), so every definition below computes.  [std::map] and
    [std::unordered_map] are finite maps ([gmap]); a range-for over a map
    visits each key once; where a result depends on the order of the
    visit, that order is an argument of the definition. *)

From Stdlib Require Import ZArith Lia Bool List Ascii.
From Stdlib Require Import Floats.SpecFloat.
From stdpp Require Import base option list strings gmap fin_maps.

Local Open Scope Z_scope.
Local Open Scope string_scope.
Local Open Scope list_scope.

(** ** binary32 and binary64 arithmetic *)

Module F32.
Definition prec : Z := 24.
Definition emax : Z := 128.

Definition add := SFadd prec emax.
Definition sub := SFsub prec emax.
Definition mul := SFmul prec emax.
Definition div := SFdiv prec emax.
Definition abs := SFabs.

(** [a < b], [a <= b], [a > b], [a >= b]: false as soon as one side is NaN. *)
Definition ltb := SFltb.
Definition leb := SFleb.
Definition gtb (a b : spec_float) := SFltb b a.
Definition geb (a b : spec_float) := SFleb b a.

(** Conversion of an integer to [float]. *)
Definition of_Z (z : Z) : spec_float := binary_normalize prec emax z 0 false.

(** [std::numeric_limits<float>::max()] and [lowest()]. *)
Definition max_float : spec_float := SFmax_float prec emax.
Definition lowest : spec_float := SFopp max_float.
End F32.

Module F64.
Definition prec : Z := 53.
Definition emax : Z := 1024.

Definition add := SFadd prec emax.
Definition of_Z (z : Z) : spec_float := binary_normalize prec emax z 0 false.

(** The exact conversion of a [float] to [double]. *)
Definition of_float (x : spec_float) : spec_float :=
  match x with
  | S754_finite s m e => binary_normalize prec emax (cond_Zopp s (Zpos m)) e s
  | _ => x
  end.
End F64.

Abbreviation float := spec_float (only parsing).
Abbreviation double := spec_float (only parsing).

Definition NAN : float := S754_nan.

(** [std::isnan]. *)
Definition isnan (x : float) : bool :=
  match x with S754_nan => true | _ => false end.

(** [!x] on a floating value: true exactly for [+0] and [-0]. *)
Definition is_zero (x : float) : bool :=
  match x with S754_zero _ => true | _ => false end.

(** Neither NaN nor an infinity. *)
Definition is_finite (x : float) : bool :=
  match x with S754_zero _ | S754_finite _ _ _ => true | _ => false end.

(** ** Severities and per-severity arrays *)

Inductive ThrottlingSeverity :=
  | NONE | LIGHT | MODERATE | SEVERE | CRITICAL | EMERGENCY | SHUTDOWN.

Global Instance ThrottlingSeverity_eq_dec : EqDecision ThrottlingSeverity.
Proof. solve_decision. Defined.

(** [static_cast<size_t>(severity)]. *)
Definition sev_index (s : ThrottlingSeverity) : nat :=
  match s with
  | NONE => 0 | LIGHT => 1 | MODERATE => 2 | SEVERE => 3
  | CRITICAL => 4 | EMERGENCY => 5 | SHUTDOWN => 6
  end%nat.

Definition sev_ltb (a b : ThrottlingSeverity) : bool :=
  Nat.ltb (sev_index a) (sev_index b).

(** [hidl_enum_range<ThrottlingSeverity>()]: every severity, lowest first. *)
Definition hidl_enum_range : list ThrottlingSeverity :=
  [NONE; LIGHT; MODERATE; SEVERE; CRITICAL; EMERGENCY; SHUTDOWN].

(** The indices visited by
    [for (i = SHUTDOWN; i > NONE; --i)]. *)
Definition severities_high_to_low : list ThrottlingSeverity :=
  [SHUTDOWN; EMERGENCY; CRITICAL; SEVERE; MODERATE; LIGHT].

(** [std::array<T, kThrottlingSeverityCount>], indexed by a severity. *)
Definition SevArray (T : Type) : Type := ThrottlingSeverity -> T.
Definition ThrottlingArray : Type := SevArray float.
Definition CdevArray : Type := SevArray Z.

Definition mk_array {T} (a0 a1 a2 a3 a4 a5 a6 : T) : SevArray T :=
  fun s =>
    match s with
    | NONE => a0 | LIGHT => a1 | MODERATE => a2 | SEVERE => a3
    | CRITICAL => a4 | EMERGENCY => a5 | SHUTDOWN => a6
    end.

Definition fill {T} (a : T) : SevArray T := fun _ => a.

(** ** getSeverityFromThresholds *)

Record SeverityScan := {
  ret_hot : ThrottlingSeverity;
  ret_hot_hysteresis : ThrottlingSeverity;
  ret_cold : ThrottlingSeverity;
  ret_cold_hysteresis : ThrottlingSeverity;
}.

(** One pass of the loop body at index [i]. *)
Definition severity_scan_step
    (hot_thresholds cold_thresholds hot_hysteresis cold_hysteresis : ThrottlingArray)
    (value : float) (acc : SeverityScan) (i : ThrottlingSeverity) : SeverityScan :=
  let hot :=
    if negb (isnan (hot_thresholds i)) && F32.leb (hot_thresholds i) value
       && bool_decide (ret_hot acc = NONE)
    then i else ret_hot acc in
  let hot_hyst :=
    if negb (isnan (hot_thresholds i))
       && F32.ltb (F32.sub (hot_thresholds i) (hot_hysteresis i)) value
       && bool_decide (ret_hot_hysteresis acc = NONE)
    then i else ret_hot_hysteresis acc in
  let cold :=
    if negb (isnan (cold_thresholds i)) && F32.geb (cold_thresholds i) value
       && bool_decide (ret_cold acc = NONE)
    then i else ret_cold acc in
  let cold_hyst :=
    if negb (isnan (cold_thresholds i))
       && F32.gtb (F32.add (cold_thresholds i) (cold_hysteresis i)) value
       && bool_decide (ret_cold_hysteresis acc = NONE)
    then i else ret_cold_hysteresis acc in
  {| ret_hot := hot; ret_hot_hysteresis := hot_hyst;
     ret_cold := cold; ret_cold_hysteresis := cold_hyst |}.

Definition getSeverityFromThresholds
    (hot_thresholds cold_thresholds hot_hysteresis cold_hysteresis : ThrottlingArray)
    (prev_hot_severity prev_cold_severity : ThrottlingSeverity)
    (value : float) : ThrottlingSeverity * ThrottlingSeverity :=
  let r :=
    fold_left
      (severity_scan_step hot_thresholds cold_thresholds
                          hot_hysteresis cold_hysteresis value)
      severities_high_to_low
      {| ret_hot := NONE; ret_hot_hysteresis := NONE;
         ret_cold := NONE; ret_cold_hysteresis := NONE |} in
  let hot :=
    if sev_ltb (ret_hot r) prev_hot_severity
    then ret_hot_hysteresis r else ret_hot r in
  let cold :=
    if sev_ltb (ret_cold r) prev_cold_severity
    then ret_cold_hysteresis r else ret_cold r in
  (hot, cold).

(** Each of the four results of the scan is the first index, from
    SHUTDOWN down, that passes its own test. *)
Definition first_hit (test : ThrottlingSeverity -> bool)
    (range : list ThrottlingSeverity) (init : ThrottlingSeverity) : ThrottlingSeverity :=
  fold_left (fun r i => if test i && bool_decide (r = NONE) then i else r) range init.

(** ** Configuration records (SensorInfo, CdevInfo) and run-time status *)

Inductive ThrottleType := PID | LIMIT | TT_NONE.

Global Instance ThrottleType_eq_dec : EqDecision ThrottleType.
Proof. solve_decision. Defined.

Inductive FormulaOption := COUNT_THRESHOLD | WEIGHTED_AVG | MAXIMUM | MINIMUM.

Inductive TemperatureType :=
  | UNKNOWN | CPU | GPU | BATTERY | SKIN | USB_PORT | POWER_AMPLIFIER
  | BCL_VOLTAGE | BCL_CURRENT | BCL_PERCENTAGE | NPU.

Global Instance TemperatureType_eq_dec : EqDecision TemperatureType.
Proof. solve_decision. Defined.

Record ThrottlingInfo := {
  k_po : ThrottlingArray;
  k_pu : ThrottlingArray;
  k_i : ThrottlingArray;
  k_d : ThrottlingArray;
  i_max : ThrottlingArray;
  max_alloc_power : ThrottlingArray;
  min_alloc_power : ThrottlingArray;
  s_power : ThrottlingArray;
  i_cutoff : ThrottlingArray;
  throttle_type : SevArray ThrottleType;
  cdev_request : list string;
  cdev_weight : list float;
  limit_info : gmap string CdevArray;
}.

(** [linked_sensors] and [coefficients] are the two
    [std::array<_, kCombinationCount>] of a virtual sensor, as lists of
    that common length; delays are in milliseconds. *)
Record SensorInfo := {
  sensor_type : TemperatureType;
  hot_thresholds : ThrottlingArray;
  cold_thresholds : ThrottlingArray;
  hot_hysteresis : ThrottlingArray;
  cold_hysteresis : ThrottlingArray;
  vr_threshold : float;
  multiplier : float;
  polling_delay : Z;
  passive_delay : Z;
  linked_sensors : list string;
  coefficients : list float;
  trigger_sensor : string;
  formula : FormulaOption;
  is_virtual_sensor : bool;
  send_cb : bool;
  send_powerhint : bool;
  is_monitor : bool;
  throttling_info : ThrottlingInfo;
}.

Record CdevInfo := {
  cdev_type : Z;
  power2state : list float;
}.

Record SensorStatus := {
  severity : ThrottlingSeverity;
  prev_hot_severity : ThrottlingSeverity;
  prev_cold_severity : ThrottlingSeverity;
  prev_hint_severity : ThrottlingSeverity;
  err_integral : float;
  prev_err : float;
  pid_request_map : gmap string Z;
  hard_limit_request_map : gmap string Z;
  last_update_time : Z;
}.

Definition set_pid_memory (st : SensorStatus) (ei pe : float) : SensorStatus :=
  {| severity := severity st;
     prev_hot_severity := prev_hot_severity st;
     prev_cold_severity := prev_cold_severity st;
     prev_hint_severity := prev_hint_severity st;
     err_integral := ei;
     prev_err := pe;
     pid_request_map := pid_request_map st;
     hard_limit_request_map := hard_limit_request_map st;
     last_update_time := last_update_time st |}.

Definition set_pid_request_map (st : SensorStatus) (m : gmap string Z) : SensorStatus :=
  {| severity := severity st;
     prev_hot_severity := prev_hot_severity st;
     prev_cold_severity := prev_cold_severity st;
     prev_hint_severity := prev_hint_severity st;
     err_integral := err_integral st;
     prev_err := prev_err st;
     pid_request_map := m;
     hard_limit_request_map := hard_limit_request_map st;
     last_update_time := last_update_time st |}.

Definition set_hard_limit_request_map (st : SensorStatus) (m : gmap string Z) : SensorStatus :=
  {| severity := severity st;
     prev_hot_severity := prev_hot_severity st;
     prev_cold_severity := prev_cold_severity st;
     prev_hint_severity := prev_hint_severity st;
     err_integral := err_integral st;
     prev_err := prev_err st;
     pid_request_map := pid_request_map st;
     hard_limit_request_map := m;
     last_update_time := last_update_time st |}.

Definition set_severities (st : SensorStatus)
    (sev hot cold : ThrottlingSeverity) : SensorStatus :=
  {| severity := sev;
     prev_hot_severity := hot;
     prev_cold_severity := cold;
     prev_hint_severity := prev_hint_severity st;
     err_integral := err_integral st;
     prev_err := prev_err st;
     pid_request_map := pid_request_map st;
     hard_limit_request_map := hard_limit_request_map st;
     last_update_time := last_update_time st |}.

Definition set_last_update_time (st : SensorStatus) (t : Z) : SensorStatus :=
  {| severity := severity st;
     prev_hot_severity := prev_hot_severity st;
     prev_cold_severity := prev_cold_severity st;
     prev_hint_severity := prev_hint_severity st;
     err_integral := err_integral st;
     prev_err := prev_err st;
     pid_request_map := pid_request_map st;
     hard_limit_request_map := hard_limit_request_map st;
     last_update_time := t |}.

Record Temperature_2_0 := {
  temp_type : TemperatureType;
  temp_name : string;
  value : float;
  throttlingStatus : ThrottlingSeverity;
}.

(** ** pidPowerCalculator *)

(** The loop that selects [target_state]; the index is kept as the
    severity it was cast from. *)
Fixpoint pid_target_loop (tt : SevArray ThrottleType) (cur : ThrottlingSeverity)
    (range : list ThrottlingSeverity) (target_state : ThrottlingSeverity)
    : ThrottlingSeverity :=
  match range with
  | [] => target_state
  | sev :: rest =>
      if negb (bool_decide (tt sev = PID)) then
        pid_target_loop tt cur rest target_state
      else if sev_ltb cur sev then sev
      else pid_target_loop tt cur rest sev
  end.

Definition pid_target_state (sensor_info : SensorInfo) (sensor_status : SensorStatus)
    : ThrottlingSeverity :=
  pid_target_loop (throttle_type (throttling_info sensor_info))
                  (severity sensor_status) hidl_enum_range NONE.

(** The error against the set point of [target_state]. *)
Definition pid_err (value : float) (sensor_info : SensorInfo)
    (target_state : ThrottlingSeverity) : float :=
  F32.sub (hot_thresholds sensor_info target_state) value.

(** The tentative integral term [i_next] of a sample. *)
Definition pid_i_next (ti : ThrottlingInfo) (target_state : ThrottlingSeverity)
    (err_integral err : float) : float :=
  F32.add (F32.mul err_integral (k_i ti target_state))
          (F32.mul err (k_i ti target_state)).

(** Returns the power budget and the updated status.  The unqualified
    [abs] applied to a [float] is the floating overload. *)
Definition pidPowerCalculator (temp : Temperature_2_0) (sensor_info : SensorInfo)
    (sensor_status : SensorStatus) (time_elapsed_ms : Z) : float * SensorStatus :=
  let ti := throttling_info sensor_info in
  let power_budget := F32.max_float in
  let target_state := pid_target_state sensor_info sensor_status in
  if bool_decide (target_state = NONE) || bool_decide (severity sensor_status = NONE)
  then (power_budget, set_pid_memory sensor_status (F32.of_Z 0) NAN)
  else
    let err := pid_err (value temp) sensor_info target_state in
    let p := F32.mul err (if F32.ltb err (F32.of_Z 0)
                          then k_po ti target_state else k_pu ti target_state) in
    let i := F32.mul (err_integral sensor_status) (k_i ti target_state) in
    let '(i, integral) :=
      if F32.ltb err (i_cutoff ti target_state) then
        let i_next := pid_i_next ti target_state (err_integral sensor_status) err in
        if F32.ltb (F32.abs i_next) (i_max ti target_state)
        then (i_next, F32.add (err_integral sensor_status) err)
        else (i, err_integral sensor_status)
      else (i, err_integral sensor_status) in
    let d :=
      if negb (isnan (prev_err sensor_status)) then
        F32.div (F32.mul (k_d ti target_state)
                         (F32.sub err (prev_err sensor_status)))
                (F32.of_Z time_elapsed_ms)
      else F32.of_Z 0 in
    let power_budget :=
      F32.add (F32.add (F32.add (s_power ti target_state) p) i) d in
    let power_budget :=
      if F32.ltb power_budget (min_alloc_power ti target_state)
      then min_alloc_power ti target_state else power_budget in
    let power_budget :=
      if F32.gtb power_budget (max_alloc_power ti target_state)
      then max_alloc_power ti target_state else power_budget in
    (power_budget, set_pid_memory sensor_status integral err).

(** ** requestCdevByPower

    A result [None] stands for a path on which the C++ has no defined
    result: an out-of-range [operator[]] on a vector, or [.at()] on a
    missing key (an uncaught [std::out_of_range]). *)

Definition total_weight_of (ti : ThrottlingInfo) : option float :=
  foldl (fun acc i => total ← acc; w ← cdev_weight ti !! i; Some (F32.add total w))
        (Some (F32.of_Z 0)) (seq 0 (length (cdev_request ti))).

(** [for (j = 0; j < power2state.size() - 1; ++j) if (budget > power2state[j]) break;]
    started at index [j] on the remaining entries of a non-empty table. *)
Fixpoint power2state_loop (cdev_power_budget : float) (power2state : list float)
    (j : nat) : nat :=
  match power2state with
  | p :: ((_ :: _) as rest) =>
      if F32.gtb cdev_power_budget p then j
      else power2state_loop cdev_power_budget rest (S j)
  | _ => j
  end.

Definition power2state_index (cdev_power_budget : float) (power2state : list float)
    : option nat :=
  match power2state with
  | [] => None
  | _ => Some (power2state_loop cdev_power_budget power2state 0)
  end.

Definition request_cdev_step (cooling_device_info_map_ : gmap string CdevInfo)
    (ti : ThrottlingInfo) (total_power_budget total_weight : float)
    (acc : option (gmap string Z)) (i : nat) : option (gmap string Z) :=
  pid_map ← acc;
  name ← cdev_request ti !! i;
  if bool_decide (name ≠ "") then
    w ← cdev_weight ti !! i;
    let cdev_power_budget := F32.mul total_power_budget (F32.div w total_weight) in
    cdev_info ← cooling_device_info_map_ !! name;
    j ← power2state_index cdev_power_budget (power2state cdev_info);
    _ ← pid_map !! name;
    Some (<[name := Z.of_nat j]> pid_map)
  else Some pid_map.

Definition requestCdevByPower (cooling_device_info_map_ : gmap string CdevInfo)
    (sensor_status : SensorStatus) (sensor_info : SensorInfo)
    (total_power_budget : float) : option (bool * SensorStatus) :=
  let ti := throttling_info sensor_info in
  total_weight ← total_weight_of ti;
  if is_zero total_weight then Some (false, sensor_status)
  else
    pid_map ← foldl (request_cdev_step cooling_device_info_map_ ti
                                       total_power_budget total_weight)
                    (Some (pid_request_map sensor_status))
                    (seq 0 (length (cdev_request ti)));
    Some (true, set_pid_request_map sensor_status pid_map).

(** ** requestCdevBySeverity *)

(** [for (i = severity; i > NONE; --i) if (throttle_type[i] == LIMIT) { target_state = i; break; }] *)
Fixpoint hard_limit_target_loop (tt : SevArray ThrottleType)
    (cur : ThrottlingSeverity) (range : list ThrottlingSeverity) : ThrottlingSeverity :=
  match range with
  | [] => NONE
  | i :: rest =>
      if sev_ltb cur i then hard_limit_target_loop tt cur rest
      else if bool_decide (tt i = LIMIT) then i
      else hard_limit_target_loop tt cur rest
  end.

Definition requestCdevBySeverity (sensor_status : SensorStatus)
    (sensor_info : SensorInfo) : option SensorStatus :=
  let ti := throttling_info sensor_info in
  let target_state :=
    hard_limit_target_loop (throttle_type ti) (severity sensor_status)
                           severities_high_to_low in
  limit_map ← foldl (fun acc (limit_info_pair : string * CdevArray) =>
                       m ← acc;
                       _ ← m !! limit_info_pair.1;
                       Some (<[limit_info_pair.1 := limit_info_pair.2 target_state]> m))
                    (Some (hard_limit_request_map sensor_status))
                    (map_to_list (limit_info ti));
  Some (set_hard_limit_request_map sensor_status limit_map).

(** ** The helper object and what it takes from outside this file *)

(** [readThermalFile] is [thermal_sensors_.readThermalFile]: the content
    of the sysfs file registered under a sensor name, when it can be read.
    [Trim], [stof] and [to_string] are [android::base::Trim], [std::stof]
    and [std::to_string(double)].  [std::stof] throws on a text that does
    not start with a number or whose value is out of range:
    [stof_converts] tells whether it returns, and [stof] is its value
    when it does. *)
Record Platform := {
  readThermalFile : string -> option string;
  Trim : string -> string;
  stof : string -> float;
  stof_converts : string -> bool;
  to_string : double -> string;
  kMinPollIntervalMs : Z;
}.

(** [CdevRequestStatus] is the map from a sensor name to its request. *)
Record ThermalHelper := {
  cooling_device_info_map_ : gmap string CdevInfo;
  sensor_info_map_ : gmap string SensorInfo;
  sensor_status_map_ : gmap string SensorStatus;
  cdev_status_map_ : gmap string (gmap string Z);
}.

Definition set_status_maps (h : ThermalHelper)
    (sm : gmap string SensorStatus) (cm : gmap string (gmap string Z)) : ThermalHelper :=
  {| cooling_device_info_map_ := cooling_device_info_map_ h;
     sensor_info_map_ := sensor_info_map_ h;
     sensor_status_map_ := sm;
     cdev_status_map_ := cm |}.

(** ** The constructor: initial status maps (the loop over [sensor_info_map_]) *)

Definition initial_status : SensorStatus :=
  {| severity := NONE;
     prev_hot_severity := NONE;
     prev_cold_severity := NONE;
     prev_hint_severity := NONE;
     err_integral := F32.of_Z 0;
     prev_err := NAN;
     pid_request_map := ∅;
     hard_limit_request_map := ∅;
     last_update_time := 0 |}.

(** [cdev_status_map_[cdev][name] = 0]. *)
Definition register_request (name cdev : string)
    (cm : gmap string (gmap string Z)) : gmap string (gmap string Z) :=
  <[cdev := <[name := 0]> (default ∅ (cm !! cdev))]> cm.

(** One of the two inner loops: every listed cooling device must be known
    ([LOG(FATAL)] otherwise), gets request 0 in the sensor's own map and an
    entry for the sensor in [cdev_status_map_]. *)
Definition init_requests (cdev_info : gmap string CdevInfo) (name : string)
    (cdevs : list string) (cm : gmap string (gmap string Z))
    : option (gmap string Z * gmap string (gmap string Z)) :=
  foldl (fun acc cdev =>
           '(m, cm) ← acc;
           _ ← cdev_info !! cdev;
           Some (<[cdev := 0]> m, register_request name cdev cm))
        (Some (∅, cm)) cdevs.

Definition init_sensor (cdev_info : gmap string CdevInfo)
    (acc : option (gmap string SensorStatus * gmap string (gmap string Z)))
    (name_status_pair : string * SensorInfo)
    : option (gmap string SensorStatus * gmap string (gmap string Z)) :=
  '(sm, cm) ← acc;
  let name := name_status_pair.1 in
  let ti := throttling_info name_status_pair.2 in
  '(pid_map, cm) ← init_requests cdev_info name (cdev_request ti) cm;
  '(limit_map, cm) ← init_requests cdev_info name (map_to_list (limit_info ti)).*1 cm;
  Some (<[name := set_hard_limit_request_map
                    (set_pid_request_map initial_status pid_map) limit_map]> sm,
        cm).

(** The helper when the loop of the constructor over [sensor_info_map_]
    ends: the two parsed configuration maps and the two status maps that
    the loop builds.  What the constructor does after the loop is not part
    of this definition; of it, [initializeTrip], which may still change
    the delays in [sensor_info_map_], is embedded on its own below. *)
Definition ThermalHelper_init (cdev_info : gmap string CdevInfo)
    (sensor_info : gmap string SensorInfo) : option ThermalHelper :=
  '(sm, cm) ← foldl (init_sensor cdev_info) (Some (∅, ∅)) (map_to_list sensor_info);
  Some {| cooling_device_info_map_ := cdev_info;
          sensor_info_map_ := sensor_info;
          sensor_status_map_ := sm;
          cdev_status_map_ := cm |}.

(** ** checkVirtualSensor *)

(** The body of the loop over the linked sensors at index [i].  The
    counter [idx] of the source is never read and is left out. *)
Definition virtual_sensor_step (fs : Platform) (formula : FormulaOption)
    (mTemp : double) (i : nat) (linked_sensor : string) (coefficient : float) : double :=
  if bool_decide (linked_sensor = "NAN") then mTemp
  else if bool_decide (linked_sensor = "") then mTemp
  else
    match readThermalFile fs linked_sensor with
    | None => mTemp
    | Some data =>
        let sensor_reading := stof fs (Trim fs data) in
        if isnan coefficient then mTemp
        else
          match formula with
          | COUNT_THRESHOLD =>
              if (F32.ltb coefficient (F32.of_Z 0)
                  && F32.ltb sensor_reading (SFopp coefficient))
                 || (F32.geb coefficient (F32.of_Z 0)
                     && F32.geb sensor_reading coefficient)
              then F64.add mTemp (F64.of_Z 1) else mTemp
          | WEIGHTED_AVG =>
              F64.add mTemp (F64.of_float (F32.mul sensor_reading coefficient))
          | MAXIMUM =>
              let mTemp :=
                if bool_decide (i = 0%nat) then F64.of_float F32.lowest else mTemp in
              if SFltb mTemp (F64.of_float (F32.mul sensor_reading coefficient))
              then F64.of_float (F32.mul sensor_reading coefficient) else mTemp
          | MINIMUM =>
              let mTemp :=
                if bool_decide (i = 0%nat) then F64.of_float F32.max_float else mTemp in
              if SFltb (F64.of_float (F32.mul sensor_reading coefficient)) mTemp
              then F64.of_float (F32.mul sensor_reading coefficient) else mTemp
          end
    end.

Fixpoint virtual_sensor_loop (fs : Platform) (formula : FormulaOption) (i : nat)
    (linked : list string) (coeffs : list float) (mTemp : double) : double :=
  match linked, coeffs with
  | l :: linked', c :: coeffs' =>
      virtual_sensor_loop fs formula (S i) linked' coeffs'
                          (virtual_sensor_step fs formula mTemp i l c)
  | _, _ => mTemp
  end.

(** The value of [mTemp] when the loop over the linked sensors ends. *)
Definition virtual_sensor_value (fs : Platform) (sensor_info : SensorInfo) : double :=
  virtual_sensor_loop fs (formula sensor_info) 0
                      (linked_sensors sensor_info) (coefficients sensor_info)
                      (F64.of_Z 0).

(** Whether [std::stof] returns on every text that the loop over the
    linked sensors hands to it: the trimmed content of each linked sensor
    that is named and can be read. *)
Fixpoint linked_reads_convert (fs : Platform)
    (linked : list string) (coeffs : list float) : bool :=
  match linked, coeffs with
  | l :: linked', _ :: coeffs' =>
      (if bool_decide (l = "NAN") then true
       else if bool_decide (l = "") then true
       else
         match readThermalFile fs l with
         | None => true
         | Some data => stof_converts fs (Trim fs data)
         end)
      && linked_reads_convert fs linked' coeffs'
  | _, _ => true
  end.

(** The outer [option] is [None] when [std::stof] throws, the inner one
    when the function returns [false]. *)
Definition checkVirtualSensor (fs : Platform) (h : ThermalHelper)
    (sensor_name : string) : option (option string) :=
  match sensor_info_map_ h !! sensor_name with
  | None => Some None
  | Some sensor_info =>
      if linked_reads_convert fs (linked_sensors sensor_info) (coefficients sensor_info)
      then Some (Some (to_string fs (virtual_sensor_value fs sensor_info)))
      else None
  end.

(** ** readTemperature (the [Temperature_2_0] overload)

    The outer [option] is [None] when an [.at()] fails or [std::stof]
    throws, the inner one when the function returns [false]. *)
Definition readTemperature (fs : Platform) (h : ThermalHelper)
    (sensor_name : string) (is_virtual_sensor : bool)
    : option (option (Temperature_2_0 * (ThrottlingSeverity * ThrottlingSeverity))) :=
  read ←
    (if negb is_virtual_sensor then
       Some match readThermalFile fs sensor_name with
            | None => None
            | Some temp => if bool_decide (temp = "") then None else Some temp
            end
     else checkVirtualSensor fs h sensor_name);
  match read with
  | None => Some None
  | Some temp =>
      sensor_info ← sensor_info_map_ h !! sensor_name;
      if negb (stof_converts fs temp) then None
      else
      let v := F32.mul (stof fs temp) (multiplier sensor_info) in
      status ←
        (if is_monitor sensor_info then
           st ← sensor_status_map_ h !! sensor_name;
           Some (getSeverityFromThresholds
                   (hot_thresholds sensor_info) (cold_thresholds sensor_info)
                   (hot_hysteresis sensor_info) (cold_hysteresis sensor_info)
                   (prev_hot_severity st) (prev_cold_severity st) v)
         else Some (NONE, NONE));
      Some (Some ({| temp_type := sensor_type sensor_info;
                     temp_name := sensor_name;
                     value := v;
                     throttlingStatus :=
                       if sev_ltb status.2 status.1 then status.1 else status.2 |},
                  status))
  end.

(** ** fillCurrentTemperatures *)

(** The loop over [sensor_info_map_]; the inner [None] is the early
    [return false]. *)
Fixpoint fill_temperatures_loop (fs : Platform) (h : ThermalHelper)
    (filterType : bool) (type : TemperatureType)
    (sensors : list (string * SensorInfo)) (ret : list Temperature_2_0)
    : option (option (list Temperature_2_0)) :=
  match sensors with
  | [] => Some (Some ret)
  | name_info_pair :: rest =>
      if filterType && bool_decide (sensor_type name_info_pair.2 ≠ type) then
        fill_temperatures_loop fs h filterType type rest ret
      else
        r ← readTemperature fs h name_info_pair.1 false;
        match r with
        | Some (temp, _) =>
            fill_temperatures_loop fs h filterType type rest (ret ++ [temp])
        | None => Some None
        end
  end.

(** The result pairs the returned [bool] with the content of
    [*temperatures] after the call. *)
Definition fillCurrentTemperatures (fs : Platform) (h : ThermalHelper)
    (filterType : bool) (type : TemperatureType)
    (temperatures : list Temperature_2_0) : option (bool * list Temperature_2_0) :=
  r ← fill_temperatures_loop fs h filterType type
                             (map_to_list (sensor_info_map_ h)) [];
  match r with
  | None => Some (false, temperatures)
  | Some ret => Some (bool_decide (0 < length ret)%nat, ret)
  end.

(** ** updateCoolingDevices *)

(** The maximum taken over the requests of one cooling device, from 0. *)
Definition max_state_of (cdev_status : gmap string Z) : Z :=
  foldl (fun max_state (sensor_request_pair : string * Z) =>
           if bool_decide (sensor_request_pair.2 > max_state)
           then sensor_request_pair.2 else max_state)
        0 (map_to_list cdev_status).

(** Modelled from the spec: [ThermalFiles::writeCdevFile], the sysfs
    writer behind [cooling_devices_], whose source is not in
    thermal-helper.cpp.  Section 4.1 gives it as [write(logical_name,
    text)]: the text is written to the [cur_state] file registered under
    the name.  The write is recorded, in order, as the pair of the device
    and the state written; the [bool] returned only selects a log line. *)
Definition writeCdevFile (written : list (string * Z))
    (target_cdev : string) (state : Z) : list (string * Z) :=
  written ++ [(target_cdev, state)].

Definition updateCoolingDevices (cdev_status_map : gmap string (gmap string Z))
    (updated_cdev : list string) : option (list (string * Z)) :=
  foldl (fun acc target_cdev =>
           written ← acc;
           cdev_status ← cdev_status_map !! target_cdev;
           Some (writeCdevFile written target_cdev (max_state_of cdev_status)))
        (Some []) updated_cdev.

(** ** thermalWatcherCallbackFunc *)

Record WatcherLocals := {
  temps : list Temperature_2_0;
  cooling_devices_to_update : list string;
  min_sleep_ms : Z;
}.

(** The body of the aggregation loop for one cooling device;
    [fmax] of two [int] converted back to [int] is their maximum. *)
Definition aggregate_step (name : string) (sensor_status : SensorStatus)
    (acc : option (gmap string (gmap string Z) * list string)) (cdev : string)
    : option (gmap string (gmap string Z) * list string) :=
  '(cm, to_update) ← acc;
  requests ← cm !! cdev;
  pid_max ← (if bool_decide (size (pid_request_map sensor_status) ≠ 0%nat)
             then pid_request_map sensor_status !! cdev else Some 0);
  limit_max ← (if bool_decide (size (hard_limit_request_map sensor_status) ≠ 0%nat)
               then hard_limit_request_map sensor_status !! cdev else Some 0);
  let request_state := Z.max pid_max limit_max in
  current ← requests !! name;
  if bool_decide (current ≠ request_state) then
    Some (<[cdev := <[name := request_state]> requests]> cm, to_update ++ [cdev])
  else Some (cm, to_update).

(** [for (auto &cdev_request_pair : cdev_status_map_) ...] for one sensor. *)
Definition aggregate_requests (name : string) (sensor_status : SensorStatus)
    (cm : gmap string (gmap string Z)) (to_update : list string)
    : option (gmap string (gmap string Z) * list string) :=
  foldl (aggregate_step name sensor_status) (Some (cm, to_update))
        (map_to_list cm).*1.

(** The part of the loop body that follows a successful read: PID, hard
    limit, aggregation. *)
Definition throttle_sensor (h : ThermalHelper) (name : string)
    (sensor_info : SensorInfo) (sensor_status : SensorStatus)
    (temp : Temperature_2_0) (time_elapsed_ms : Z) (to_update : list string)
    : option (SensorStatus * gmap string (gmap string Z) * list string) :=
  sensor_status ←
    (if bool_decide (size (pid_request_map sensor_status) ≠ 0%nat) then
       let '(power_budget, sensor_status) :=
         pidPowerCalculator temp sensor_info sensor_status time_elapsed_ms in
       r ← requestCdevByPower (cooling_device_info_map_ h) sensor_status
                              sensor_info power_budget;
       Some r.2
     else Some sensor_status);
  sensor_status ←
    (if bool_decide (size (hard_limit_request_map sensor_status) ≠ 0%nat)
     then requestCdevBySeverity sensor_status sensor_info
     else Some sensor_status);
  '(cm, to_update) ←
    (if bool_decide (size (pid_request_map sensor_status) ≠ 0%nat)
        || bool_decide (size (hard_limit_request_map sensor_status) ≠ 0%nat)
     then aggregate_requests name sensor_status (cdev_status_map_ h) to_update
     else Some (cdev_status_map_ h, to_update));
  Some (sensor_status, cm, to_update).

(** One iteration of the loop over [sensor_status_map_].  After a
    successful [readTemperature] the call of [readTemperatureThreshold]
    cannot fail (the sensor is in [sensor_info_map_]) and is left out. *)
Definition watch_sensor (fs : Platform) (now : Z) (uevent_sensors : gset string)
    (acc : option (ThermalHelper * WatcherLocals)) (name : string)
    : option (ThermalHelper * WatcherLocals) :=
  '(h, loc) ← acc;
  sensor_status ← sensor_status_map_ h !! name;
  sensor_info ← sensor_info_map_ h !! name;
  if negb (is_monitor sensor_info) then Some (h, loc)
  else
    let uevent_sensor_name :=
      if is_virtual_sensor sensor_info then trigger_sensor sensor_info else name in
    let time_elapsed_ms := now - last_update_time sensor_status in
    let sleep_ms :=
      if bool_decide (severity sensor_status ≠ NONE)
      then passive_delay sensor_info else polling_delay sensor_info in
    if bool_decide (time_elapsed_ms < sleep_ms)
       && (bool_decide (size uevent_sensors = 0%nat)
           || bool_decide (uevent_sensor_name ∉ uevent_sensors))
    then
      let timeout_remaining := sleep_ms - time_elapsed_ms in
      Some (h, {| temps := temps loc;
                  cooling_devices_to_update := cooling_devices_to_update loc;
                  min_sleep_ms :=
                    if bool_decide (min_sleep_ms loc > timeout_remaining)
                    then timeout_remaining else min_sleep_ms loc |})
    else
      r ← readTemperature fs h name (is_virtual_sensor sensor_info);
      match r with
      | None => Some (h, loc)
      | Some (temp, throtting_status) =>
          let changed :=
            bool_decide (throttlingStatus temp ≠ severity sensor_status) in
          let sensor_status :=
            set_severities sensor_status (throttlingStatus temp)
                           throtting_status.1 throtting_status.2 in
          let sleep_ms :=
            if changed then
              if bool_decide (severity sensor_status ≠ NONE)
              then passive_delay sensor_info else polling_delay sensor_info
            else sleep_ms in
          '(sensor_status, cm, to_update) ←
            throttle_sensor h name sensor_info sensor_status temp time_elapsed_ms
                            (cooling_devices_to_update loc);
          Some (set_status_maps h
                  (<[name := set_last_update_time sensor_status now]>
                     (sensor_status_map_ h))
                  cm,
                {| temps := if changed then temps loc ++ [temp] else temps loc;
                   cooling_devices_to_update := to_update;
                   min_sleep_ms :=
                     if bool_decide (min_sleep_ms loc > sleep_ms)
                     then sleep_ms else min_sleep_ms loc |})
      end.

(** What one run of the callback leaves behind: the cooling-device
    writes it issued, the temperatures whose severity changed (handed to
    the notification callback and the power-hint bridge), and the delay it
    returns.  The closing loop over these temperatures, which calls the
    notification callback and [sendPowerExtHint], is not part of
    [thermalWatcherCallbackFunc] below: of the helper's state it assigns
    only [prev_hint_severity], in [sendPowerExtHint], which is embedded on
    its own further down. *)
Record WatcherResult := {
  writes : list (string * Z);
  notified : list Temperature_2_0;
  sleep : Z;
}.

Definition thermalWatcherCallbackFunc (fs : Platform) (now : Z) (h : ThermalHelper)
    (uevent_sensors : gset string) : option (ThermalHelper * WatcherResult) :=
  '(h', loc) ←
    foldl (watch_sensor fs now uevent_sensors)
          (Some (h, {| temps := [];
                       cooling_devices_to_update := [];
                       min_sleep_ms := 2147483647 |}))
          (map_to_list (sensor_status_map_ h)).*1;
  written ←
    (if bool_decide (cooling_devices_to_update loc ≠ [])
     then updateCoolingDevices (cdev_status_map_ h') (cooling_devices_to_update loc)
     else Some []);
  Some (h', {| writes := written;
               notified := temps loc;
               sleep := if bool_decide (min_sleep_ms loc < kMinPollIntervalMs fs)
                        then kMinPollIntervalMs fs else min_sleep_ms loc |}).

(** ** Requests, as the aggregation sees them *)

(** A sensor's own request for a cooling device: the larger of its PID
    and hard-limit entries, an absent entry counting for 0. *)
Definition sensor_request (st : SensorStatus) (cdev : string) : Z :=
  Z.max (default 0 (pid_request_map st !! cdev))
        (default 0 (hard_limit_request_map st !! cdev)).

(** [cdev_status_map_[cdev][name]], when both keys are present. *)
Definition recorded_request (cm : gmap string (gmap string Z))
    (cdev name : string) : option Z :=
  requests ← cm !! cdev; requests !! name.

(** Every request recorded for a cooling device is the own request of the
    sensor it is recorded for, a sensor without a record requests 0, and
    every record belongs to a sensor that has a status. *)
Definition requests_in_sync (h : ThermalHelper) : Prop :=
  map_Forall
    (fun cdev requests =>
       map_Forall (fun name st =>
                     default 0 (requests !! name) = sensor_request st cdev)
                  (sensor_status_map_ h)
       /\ map_Forall (fun name (_ : Z) => is_Some (sensor_status_map_ h !! name))
                     requests)
    (cdev_status_map_ h).

(** A sensor references a cooling device through [cdev_request] or
    through [limit_info]. *)
Definition references (sensor_info : SensorInfo) (cdev : string) : Prop :=
  cdev ∈ cdev_request (throttling_info sensor_info)
  \/ is_Some (limit_info (throttling_info sensor_info) !! cdev).

(** The key sets of the status maps are the ones the constructor derives
    from the configuration: a sensor's two request maps have the cooling
    devices of its [cdev_request] and of its [limit_info], a cooling device
    has a record for exactly the sensors that reference it, and the
    cooling devices with records are those referenced by some sensor. *)
Definition keys_as_configured (sensor_info : gmap string SensorInfo)
    (h : ThermalHelper) : Prop :=
  (forall name info,
      sensor_info !! name = Some info ->
      exists st,
        sensor_status_map_ h !! name = Some st
        /\ (forall c, is_Some (pid_request_map st !! c)
                      <-> c ∈ cdev_request (throttling_info info))
        /\ (forall c, is_Some (hard_limit_request_map st !! c)
                      <-> is_Some (limit_info (throttling_info info) !! c)))
  /\ (forall c name,
         is_Some (recorded_request (cdev_status_map_ h) c name)
         <-> exists info, sensor_info !! name = Some info /\ references info c)
  /\ (forall c,
         is_Some (cdev_status_map_ h !! c)
         <-> exists name info, sensor_info !! name = Some info /\ references info c).

(** ** Sequences of PID samples *)

(** One sample as the watcher takes it: the severity just classified, the
    temperature read, and the time since the previous update. *)
Record Sample := {
  sample_severity : ThrottlingSeverity;
  sample_value : float;
  sample_elapsed_ms : Z;
}.

Definition pid_sample (sensor_info : SensorInfo) (st : SensorStatus) (s : Sample)
    : float * SensorStatus :=
  pidPowerCalculator
    {| temp_type := sensor_type sensor_info; temp_name := "";
       value := sample_value s; throttlingStatus := sample_severity s |}
    sensor_info
    (set_severities st (sample_severity s)
                    (prev_hot_severity st) (prev_cold_severity st))
    (sample_elapsed_ms s).

Definition pid_run (sensor_info : SensorInfo) (st : SensorStatus)
    (samples : list Sample) : SensorStatus :=
  foldl (fun st s => (pid_sample sensor_info st s).2) st samples.

(** The bound on the stored accumulator, at the target state of the
    status: [|err_integral * k_i[target]| < i_max[target]]. *)
Definition integral_within_clamp (sensor_info : SensorInfo) (st : SensorStatus) : bool :=
  let ti := throttling_info sensor_info in
  let target_state := pid_target_state sensor_info st in
  F32.ltb (F32.abs (F32.mul (err_integral st) (k_i ti target_state)))
          (i_max ti target_state).

(** The status that sample [k] of a run finds: the result of the samples
    before it, with the severity of the sample as the watcher has just
    stored it. *)
Definition status_at (sensor_info : SensorInfo) (st : SensorStatus)
    (samples : list Sample) (k : nat) (s : Sample) : SensorStatus :=
  let found := pid_run sensor_info st (take k samples) in
  set_severities found (sample_severity s)
                 (prev_hot_severity found) (prev_cold_severity found).

(** What the guard of the integral step establishes for the accumulator
    [integral] that the run of [samples] from [st] leaves: it is zero, or
    it is the sum [before + err] that sample [k] of the run accepted,
    where [before] is the accumulator that sample found, [err] its error
    against its own target state, [err] was below the cutoff of that state
    and the tentative term [before * k_i + err * k_i] strictly inside its
    clamp. *)
Definition integral_accepted (sensor_info : SensorInfo) (st : SensorStatus)
    (samples : list Sample) (integral : float) : Prop :=
  integral = F32.of_Z 0 \/
  exists (k : nat) (s : Sample),
    samples !! k = Some s /\
    let found := status_at sensor_info st samples k s in
    let target_state := pid_target_state sensor_info found in
    let err := pid_err (sample_value s) sensor_info target_state in
    target_state <> NONE /\
    integral = F32.add (err_integral found) err /\
    F32.ltb err (i_cutoff (throttling_info sensor_info) target_state) = true /\
    F32.ltb (F32.abs (pid_i_next (throttling_info sensor_info) target_state
                                 (err_integral found) err))
            (i_max (throttling_info sensor_info) target_state) = true.

(** ** Concrete configurations

    The sensor of the specification's scenarios: thresholds 45, 55, 65,
    75, 85, 95 from LIGHT up, hysteresis 3, one PID-driven cooling device
    with the table 1500, 1000, 500, 0. *)

Definition scenario_hot_thresholds : ThrottlingArray :=
  mk_array NAN (F32.of_Z 45) (F32.of_Z 55) (F32.of_Z 65)
           (F32.of_Z 75) (F32.of_Z 85) (F32.of_Z 95).

(** Cold thresholds 10, 5, 0, -5, -10, -15 from LIGHT up. *)
Definition scenario_cold_thresholds : ThrottlingArray :=
  mk_array NAN (F32.of_Z 10) (F32.of_Z 5) (F32.of_Z 0)
           (F32.of_Z (-5)) (F32.of_Z (-10)) (F32.of_Z (-15)).

Definition scenario_throttling (k_po_value : float) : ThrottlingInfo :=
  {| k_po := fill k_po_value;
     k_pu := fill (F32.of_Z 20);
     k_i := fill (F32.of_Z 0);
     k_d := fill (F32.of_Z 0);
     i_max := fill (F32.of_Z 100);
     max_alloc_power := fill (F32.of_Z 5000);
     min_alloc_power := fill (F32.of_Z 0);
     s_power := fill (F32.of_Z 1000);
     i_cutoff := fill (F32.of_Z 100);
     throttle_type := mk_array TT_NONE TT_NONE PID TT_NONE TT_NONE TT_NONE TT_NONE;
     cdev_request := ["cpu_freq"];
     cdev_weight := [F32.of_Z 1];
     limit_info := ∅ |}.

Definition sensor_with (ti : ThrottlingInfo) : SensorInfo :=
  {| sensor_type := SKIN;
     hot_thresholds := scenario_hot_thresholds;
     cold_thresholds := fill NAN;
     hot_hysteresis := fill (F32.of_Z 3);
     cold_hysteresis := fill (F32.of_Z 0);
     vr_threshold := NAN;
     multiplier := F32.of_Z 1;
     polling_delay := 2000;
     passive_delay := 1000;
     linked_sensors := [];
     coefficients := [];
     trigger_sensor := "";
     formula := WEIGHTED_AVG;
     is_virtual_sensor := false;
     send_cb := true;
     send_powerhint := false;
     is_monitor := true;
     throttling_info := ti |}.

Definition scenario_sensor (k_po_value : float) : SensorInfo :=
  sensor_with (scenario_throttling k_po_value).

Definition scenario_cdev : CdevInfo :=
  {| cdev_type := 0;
     power2state := [F32.of_Z 1500; F32.of_Z 1000; F32.of_Z 500; F32.of_Z 0] |}.

Definition scenario_cdev_info : gmap string CdevInfo := {[ "cpu_freq" := scenario_cdev ]}.

(** The status of the scenario sensor at a given severity, with the PID
    memory left by a previous sample. *)
Definition scenario_status (sev : ThrottlingSeverity) (integral previous : float)
    : SensorStatus :=
  {| severity := sev;
     prev_hot_severity := sev;
     prev_cold_severity := NONE;
     prev_hint_severity := NONE;
     err_integral := integral;
     prev_err := previous;
     pid_request_map := {[ "cpu_freq" := 0 ]};
     hard_limit_request_map := ∅;
     last_update_time := 0 |}.

Definition reading (v : Z) : Temperature_2_0 :=
  {| temp_type := SKIN; temp_name := "skin"; value := F32.of_Z v;
     throttlingStatus := NONE |}.

(** The first two samples of the crossing-up scenario: 40 at NONE, then
    50 at LIGHT. *)
Definition crossing_up_samples : list Sample :=
  [ {| sample_severity := NONE; sample_value := F32.of_Z 40;
       sample_elapsed_ms := 1000 |};
    {| sample_severity := LIGHT; sample_value := F32.of_Z 50;
       sample_elapsed_ms := 1000 |} ].

(** A sensor whose PID severities MODERATE and SEVERE have different
    integral clamps (10 and 2), with integral gain 1. *)
Definition switching_throttling : ThrottlingInfo :=
  {| k_po := fill (F32.of_Z 20);
     k_pu := fill (F32.of_Z 20);
     k_i := fill (F32.of_Z 1);
     k_d := fill (F32.of_Z 0);
     i_max := mk_array (F32.of_Z 10) (F32.of_Z 10) (F32.of_Z 10) (F32.of_Z 2)
                       (F32.of_Z 2) (F32.of_Z 2) (F32.of_Z 2);
     max_alloc_power := fill (F32.of_Z 5000);
     min_alloc_power := fill (F32.of_Z 0);
     s_power := fill (F32.of_Z 1000);
     i_cutoff := fill (F32.of_Z 100);
     throttle_type := mk_array TT_NONE TT_NONE PID PID TT_NONE TT_NONE TT_NONE;
     cdev_request := ["cpu_freq"];
     cdev_weight := [F32.of_Z 1];
     limit_info := ∅ |}.

Definition switching_sensor : SensorInfo := sensor_with switching_throttling.

(** A sensor with one PID severity, integral gain 0.01 and clamp 0.06. *)
Definition rounding_throttling : ThrottlingInfo :=
  {| k_po := fill (F32.of_Z 20);
     k_pu := fill (F32.of_Z 20);
     k_i := fill (F32.div (F32.of_Z 1) (F32.of_Z 100));
     k_d := fill (F32.of_Z 0);
     i_max := fill (F32.div (F32.of_Z 6) (F32.of_Z 100));
     max_alloc_power := fill (F32.of_Z 5000);
     min_alloc_power := fill (F32.of_Z 0);
     s_power := fill (F32.of_Z 1000);
     i_cutoff := fill (F32.of_Z 100);
     throttle_type := mk_array TT_NONE TT_NONE PID TT_NONE TT_NONE TT_NONE TT_NONE;
     cdev_request := ["cpu_freq"];
     cdev_weight := [F32.of_Z 1];
     limit_info := ∅ |}.

Definition rounding_sensor : SensorInfo := sensor_with rounding_throttling.

(** Two samples of the switching sensor: 50 at LIGHT, then 60 at MODERATE. *)
Definition switching_samples : list Sample :=
  [ {| sample_severity := LIGHT; sample_value := F32.of_Z 50;
       sample_elapsed_ms := 1000 |};
    {| sample_severity := MODERATE; sample_value := F32.of_Z 60;
       sample_elapsed_ms := 1000 |} ].

(** Two samples of the rounding sensor at LIGHT: 54, then 50 (errors 1 and 5). *)
Definition rounding_samples : list Sample :=
  [ {| sample_severity := LIGHT; sample_value := F32.of_Z 54;
       sample_elapsed_ms := 1000 |};
    {| sample_severity := LIGHT; sample_value := F32.of_Z 50;
       sample_elapsed_ms := 1000 |} ].

(** The scenario sensor with its whole weight set to zero. *)
Definition zero_weight_throttling : ThrottlingInfo :=
  {| k_po := fill (F32.of_Z 20);
     k_pu := fill (F32.of_Z 20);
     k_i := fill (F32.of_Z 0);
     k_d := fill (F32.of_Z 0);
     i_max := fill (F32.of_Z 100);
     max_alloc_power := fill (F32.of_Z 5000);
     min_alloc_power := fill (F32.of_Z 0);
     s_power := fill (F32.of_Z 1000);
     i_cutoff := fill (F32.of_Z 100);
     throttle_type := mk_array TT_NONE TT_NONE PID TT_NONE TT_NONE TT_NONE TT_NONE;
     cdev_request := ["cpu_freq"];
     cdev_weight := [F32.of_Z 0];
     limit_info := ∅ |}.

(** A platform for the examples: sysfs files given as a table, readings
    written as decimal integers; a text that does not start with one is
    not converted. *)
Fixpoint parse_digits (s : string) (acc : Z) : Z :=
  match s with
  | EmptyString => acc
  | String c s' =>
      let n := Z.of_nat (Ascii.nat_of_ascii c) in
      if Z.leb 48 n && Z.leb n 57 then parse_digits s' (10 * acc + (n - 48))
      else acc
  end.

Definition stof_int (s : string) : float :=
  match s with
  | String "-"%char s' => F32.of_Z (- parse_digits s' 0)
  | _ => F32.of_Z (parse_digits s 0)
  end.

Definition starts_with_digit (s : string) : bool :=
  match s with
  | String c _ =>
      let n := Z.of_nat (Ascii.nat_of_ascii c) in Z.leb 48 n && Z.leb n 57
  | EmptyString => false
  end.

Definition stof_int_converts (s : string) : bool :=
  match s with
  | String "-"%char s' => starts_with_digit s'
  | _ => starts_with_digit s
  end.

Definition platform_with (files : gmap string string) : Platform :=
  {| readThermalFile := fun name => files !! name;
     Trim := fun s => s;
     stof := stof_int;
     stof_converts := stof_int_converts;
     to_string := fun _ => "";
     kMinPollIntervalMs := 2000 |}.

(** Two sensors "A" and "B" that drive the cooling device "cpu_freq" by
    hard limit only, with state 1 at LIGHT up to state 6 at SHUTDOWN. *)
Definition limit_throttling : ThrottlingInfo :=
  {| k_po := fill (F32.of_Z 0);
     k_pu := fill (F32.of_Z 0);
     k_i := fill (F32.of_Z 0);
     k_d := fill (F32.of_Z 0);
     i_max := fill (F32.of_Z 0);
     max_alloc_power := fill NAN;
     min_alloc_power := fill NAN;
     s_power := fill NAN;
     i_cutoff := fill NAN;
     throttle_type := mk_array TT_NONE LIMIT LIMIT LIMIT LIMIT LIMIT LIMIT;
     cdev_request := [];
     cdev_weight := [];
     limit_info := {[ "cpu_freq" := mk_array 0 1 2 3 4 5 6 ]} |}.

Definition two_sensor_info : gmap string SensorInfo :=
  {[ "A" := sensor_with limit_throttling; "B" := sensor_with limit_throttling ]}.

Definition empty_helper : ThermalHelper :=
  {| cooling_device_info_map_ := ∅; sensor_info_map_ := ∅;
     sensor_status_map_ := ∅; cdev_status_map_ := ∅ |}.

(** The helper as the constructor leaves it. *)
Definition two_sensor_helper : ThermalHelper :=
  default empty_helper (ThermalHelper_init scenario_cdev_info two_sensor_info).

(** The same helper after a first run of the watcher at time 10000 with
    "A" at 70 (SEVERE) and "B" at 50 (LIGHT). *)
Definition two_sensor_helper_running : ThermalHelper :=
  default empty_helper
    (fst <$> thermalWatcherCallbackFunc
               (platform_with {[ "A" := "70"; "B" := "50" ]}) 10000
               two_sensor_helper ∅).

(** A virtual sensor taking the maximum of two linked sensors. *)
Definition virtual_maximum (linked : list string) (coeffs : list float) : SensorInfo :=
  {| sensor_type := SKIN;
     hot_thresholds := scenario_hot_thresholds;
     cold_thresholds := fill NAN;
     hot_hysteresis := fill (F32.of_Z 3);
     cold_hysteresis := fill (F32.of_Z 0);
     vr_threshold := NAN;
     multiplier := F32.of_Z 1;
     polling_delay := 2000;
     passive_delay := 1000;
     linked_sensors := linked;
     coefficients := coeffs;
     trigger_sensor := "s2";
     formula := MAXIMUM;
     is_virtual_sensor := true;
     send_cb := true;
     send_powerhint := false;
     is_monitor := true;
     throttling_info := limit_throttling |}.

Definition empty_result : WatcherResult :=
  {| writes := []; notified := []; sleep := 0 |}.

(** A second run at time 20000 with "B" risen to 60 (MODERATE) and "A"
    still at 70. *)
Definition two_sensor_second_run : option (ThermalHelper * WatcherResult) :=
  thermalWatcherCallbackFunc (platform_with {[ "A" := "70"; "B" := "60" ]}) 20000
                             two_sensor_helper_running ∅.

Definition two_sensor_helper_after : ThermalHelper :=
  (default (empty_helper, empty_result) two_sensor_second_run).1.

Definition two_sensor_second_result : WatcherResult :=
  (default (empty_helper, empty_result) two_sensor_second_run).2.

(** A second run at time 20000 with both readings as before. *)
Definition two_sensor_idle_run : option (ThermalHelper * WatcherResult) :=
  thermalWatcherCallbackFunc (platform_with {[ "A" := "70"; "B" := "50" ]}) 20000
                             two_sensor_helper_running ∅.

Definition two_sensor_helper_idle : ThermalHelper :=
  (default (empty_helper, empty_result) two_sensor_idle_run).1.

Definition two_sensor_idle_result : WatcherResult :=
  (default (empty_helper, empty_result) two_sensor_idle_run).2.

(** The status of "A" as the constructor leaves it. *)
Definition two_sensor_status_A : SensorStatus :=
  default initial_status (sensor_status_map_ two_sensor_helper !! "A").

(** Two sensors that limit different cooling devices: "A" limits
    "cpu_freq" and "G" limits "gpu_freq". *)
Definition gpu_limit_throttling : ThrottlingInfo :=
  {| k_po := fill (F32.of_Z 0);
     k_pu := fill (F32.of_Z 0);
     k_i := fill (F32.of_Z 0);
     k_d := fill (F32.of_Z 0);
     i_max := fill (F32.of_Z 0);
     max_alloc_power := fill NAN;
     min_alloc_power := fill NAN;
     s_power := fill NAN;
     i_cutoff := fill NAN;
     throttle_type := mk_array TT_NONE LIMIT LIMIT LIMIT LIMIT LIMIT LIMIT;
     cdev_request := [];
     cdev_weight := [];
     limit_info := {[ "gpu_freq" := mk_array 0 1 2 3 4 5 6 ]} |}.

Definition split_sensor_info : gmap string SensorInfo :=
  {[ "A" := sensor_with limit_throttling; "G" := sensor_with gpu_limit_throttling ]}.

Definition split_cdev_info : gmap string CdevInfo :=
  {[ "cpu_freq" := scenario_cdev; "gpu_freq" := scenario_cdev ]}.

Definition split_helper : ThermalHelper :=
  default empty_helper (ThermalHelper_init split_cdev_info split_sensor_info).

(** ** The scheduling of one sensor, as the callback decides it *)

(** The delay a sensor asks for at a severity: [passive_delay] above
    NONE, [polling_delay] at NONE. *)
Definition sensor_delay (sensor_info : SensorInfo) (sev : ThrottlingSeverity) : Z :=
  if bool_decide (sev ≠ NONE)
  then passive_delay sensor_info else polling_delay sensor_info.

(** The test of the first [continue] for a monitored sensor: its delay
    has not elapsed, and no uevent names it (its trigger sensor, for a
    virtual sensor). *)
Definition not_due (now : Z) (uevent_sensors : gset string) (name : string)
    (sensor_info : SensorInfo) (sensor_status : SensorStatus) : bool :=
  bool_decide (now - last_update_time sensor_status
               < sensor_delay sensor_info (severity sensor_status))
  && (bool_decide (size uevent_sensors = 0%nat)
      || bool_decide ((if is_virtual_sensor sensor_info
                       then trigger_sensor sensor_info else name) ∉ uevent_sensors)).

(** The reading that a run of the callback takes of a sensor: none when
    the sensor is not monitored, not due, or cannot be read. *)
Definition sampled (fs : Platform) (now : Z) (uevent_sensors : gset string)
    (h : ThermalHelper) (name : string)
    : option (Temperature_2_0 * (ThrottlingSeverity * ThrottlingSeverity)) :=
  sensor_status ← sensor_status_map_ h !! name;
  sensor_info ← sensor_info_map_ h !! name;
  if is_monitor sensor_info
     && negb (not_due now uevent_sensors name sensor_info sensor_status)
  then match readTemperature fs h name (is_virtual_sensor sensor_info) with
       | Some (Some r) => Some r
       | _ => None
       end
  else None.

(** The fields of a status that the PID and hard-limit steps never
    assign. *)
Definition same_severities (st st' : SensorStatus) : Prop :=
  severity st' = severity st
  /\ prev_hot_severity st' = prev_hot_severity st
  /\ prev_cold_severity st' = prev_cold_severity st
  /\ prev_hint_severity st' = prev_hint_severity st
  /\ last_update_time st' = last_update_time st.

(** Successive runs of the callback, each with the file contents, the
    time and the uevent set of its own. *)
Definition run_callbacks (h : ThermalHelper)
    (runs : list (Platform * Z * gset string)) : option ThermalHelper :=
  foldl (fun acc run =>
           h ← acc;
           r ← thermalWatcherCallbackFunc run.1.1 run.1.2 h run.2;
           Some r.1)
        (Some h) runs.

(** ** The term of one linked sensor *)

(** What a linked sensor contributes to a virtual sensor, when it
    contributes: its name is neither "NAN" nor empty, its file can be
    read, and its coefficient is not NaN. *)
Definition contribution (fs : Platform) (linked_sensor : string) (coefficient : float)
    : option double :=
  if bool_decide (linked_sensor = "NAN") || bool_decide (linked_sensor = "") then None
  else
    data ← readThermalFile fs linked_sensor;
    if isnan coefficient then None
    else Some (F64.of_float (F32.mul (stof fs (Trim fs data)) coefficient)).

(** A virtual sensor taking the minimum of two linked sensors. *)
Definition virtual_minimum (linked : list string) (coeffs : list float) : SensorInfo :=
  {| sensor_type := SKIN;
     hot_thresholds := scenario_hot_thresholds;
     cold_thresholds := fill NAN;
     hot_hysteresis := fill (F32.of_Z 3);
     cold_hysteresis := fill (F32.of_Z 0);
     vr_threshold := NAN;
     multiplier := F32.of_Z 1;
     polling_delay := 2000;
     passive_delay := 1000;
     linked_sensors := linked;
     coefficients := coeffs;
     trigger_sensor := "s2";
     formula := MINIMUM;
     is_virtual_sensor := true;
     send_cb := true;
     send_powerhint := false;
     is_monitor := true;
     throttling_info := limit_throttling |}.

(** ** The other snapshot queries

    [fillTemperatureThresholds] and [fillCurrentCoolingDevices] run the
    loop of [fillCurrentTemperatures] over another map and with another
    read: an entry that the type filter rejects is skipped, the first read
    that returns [false] ends the call, every other result is appended.
    The outer [None] is an abort inside a read, the inner one the early
    [return false].

    The order in which the range-for statement visits a map is fixed by
    the map type, which the header declares.  It is an argument here:
    [visited] lists the entries of the map in that order. *)
Fixpoint collect_loop {I T : Type} (skip : string * I -> bool)
    (read : string -> option (option T))
    (items : list (string * I)) (ret : list T) : option (option (list T)) :=
  match items with
  | [] => Some (Some ret)
  | name_info_pair :: rest =>
      if skip name_info_pair then collect_loop skip read rest ret
      else
        r ← read name_info_pair.1;
        match r with
        | Some value => collect_loop skip read rest (ret ++ [value])
        | None => Some None
        end
  end.

Record TemperatureThreshold := {
  threshold_type : TemperatureType;
  threshold_name : string;
  hotThrottlingThresholds : ThrottlingArray;
  coldThrottlingThresholds : ThrottlingArray;
  vrThrottlingThreshold : float;
}.

(** [None] when the function returns [false]: the name is not a key of
    [sensor_info_map_] ([count], then [at] on the same key). *)
Definition readTemperatureThreshold (h : ThermalHelper) (sensor_name : string)
    : option TemperatureThreshold :=
  match sensor_info_map_ h !! sensor_name with
  | None => None
  | Some sensor_info =>
      Some {| threshold_type := sensor_type sensor_info;
              threshold_name := sensor_name;
              hotThrottlingThresholds := hot_thresholds sensor_info;
              coldThrottlingThresholds := cold_thresholds sensor_info;
              vrThrottlingThreshold := vr_threshold sensor_info |}
  end.

(** The result pairs the returned [bool] with the content of
    [*thresholds] after the call; [visited] lists the entries of
    [sensor_info_map_] in the order of the loop. *)
Definition fillTemperatureThresholds (h : ThermalHelper)
    (visited : list (string * SensorInfo))
    (filterType : bool) (type : TemperatureType)
    (thresholds : list TemperatureThreshold)
    : option (bool * list TemperatureThreshold) :=
  r ← collect_loop
         (fun name_info_pair : string * SensorInfo =>
            filterType && bool_decide (sensor_type name_info_pair.2 ≠ type))
         (fun name => Some (readTemperatureThreshold h name))
         visited [];
  match r with
  | None => Some (false, thresholds)
  | Some ret => Some (bool_decide (0 < length ret)%nat, ret)
  end.

(** [value] is a [uint64_t]. *)
Record CoolingDevice_2_0 := {
  cooling_type : Z;
  cooling_name : string;
  cooling_value : Z;
}.

(** [readCdevFile] is [cooling_devices_.readThermalFile] and [stoi] is
    [std::stoi], which throws on a text that holds no number ([None]).
    The outer [None] is such an exception, or the one of [.at()].  The
    [int] that [std::stoi] returns is converted to the [uint64_t] member
    [value], that is reduced modulo [2^64]. *)
Definition readCoolingDevice (readCdevFile : string -> option string)
    (stoi : string -> option Z) (h : ThermalHelper) (cooling_device : string)
    : option (option CoolingDevice_2_0) :=
  match readCdevFile cooling_device with
  | None => Some None
  | Some data =>
      cdev_info ← cooling_device_info_map_ h !! cooling_device;
      value ← stoi data;
      Some (Some {| cooling_type := cdev_type cdev_info;
                    cooling_name := cooling_device;
                    cooling_value := value mod 2 ^ 64 |})
  end.

(** [visited] lists the entries of [cooling_device_info_map_] in the
    order of the loop. *)
Definition fillCurrentCoolingDevices (readCdevFile : string -> option string)
    (stoi : string -> option Z) (h : ThermalHelper)
    (visited : list (string * CdevInfo))
    (filterType : bool) (type : Z) (cooling_devices : list CoolingDevice_2_0)
    : option (bool * list CoolingDevice_2_0) :=
  r ← collect_loop
         (fun name_info_pair : string * CdevInfo =>
            filterType && bool_decide (cdev_type name_info_pair.2 ≠ type))
         (readCoolingDevice readCdevFile stoi h)
         visited [];
  match r with
  | None => Some (false, cooling_devices)
  | Some ret => Some (bool_decide (0 < length ret)%nat, ret)
  end.

(** ** readTemperature (the [Temperature_1_0] overload) and fillTemperatures *)

(** The integer values of [TemperatureType] in thermal 2.0, whose first
    five are the values of thermal 1.0. *)
Definition temperature_type_value (t : TemperatureType) : Z :=
  match t with
  | UNKNOWN => -1 | CPU => 0 | GPU => 1 | BATTERY => 2 | SKIN => 3
  | USB_PORT => 4 | POWER_AMPLIFIER => 5 | BCL_VOLTAGE => 6
  | BCL_CURRENT => 7 | BCL_PERCENTAGE => 8 | NPU => 9
  end.

Record Temperature_1_0 := {
  type_1_0 : TemperatureType;
  name_1_0 : string;
  currentValue : float;
  throttlingThreshold : float;
  shutdownThreshold : float;
  vrThrottlingThreshold_1_0 : float;
}.

(** The outer [option] is [None] when [.at()] fails or [std::stof]
    throws, the inner one when the function returns [false]. *)
Definition readTemperature_1_0 (fs : Platform) (h : ThermalHelper) (sensor_name : string)
    : option (option Temperature_1_0) :=
  match readThermalFile fs sensor_name with
  | None => Some None
  | Some temp =>
      if bool_decide (temp = "") then Some None
      else
        sensor_info ← sensor_info_map_ h !! sensor_name;
        if negb (stof_converts fs temp) then None
        else
        Some (Some {| type_1_0 :=
                        if bool_decide (temperature_type_value (sensor_type sensor_info)
                                        > temperature_type_value SKIN)
                        then UNKNOWN else sensor_type sensor_info;
                      name_1_0 := sensor_name;
                      currentValue := F32.mul (stof fs temp) (multiplier sensor_info);
                      throttlingThreshold := hot_thresholds sensor_info SEVERE;
                      shutdownThreshold := hot_thresholds sensor_info SHUTDOWN;
                      vrThrottlingThreshold_1_0 := vr_threshold sensor_info |})
  end.

(** [hidl_vec::resize]: the elements below the new size are kept and the
    vector is extended with value-initialised elements. *)
Definition resize {T : Type} (n : nat) (value_initialized : T) (v : list T) : list T :=
  take n v ++ replicate (n - length v) value_initialized.

(** The loop of [fillTemperatures]; it writes into the resized vector as
    it goes. *)
Fixpoint fill_temperatures_1_0_loop (fs : Platform) (h : ThermalHelper)
    (sensors : list (string * SensorInfo)) (temperatures : list Temperature_1_0)
    (current_index : nat) : option (bool * list Temperature_1_0) :=
  match sensors with
  | [] => Some (bool_decide (0 < current_index)%nat, temperatures)
  | name_info_pair :: rest =>
      r ← readTemperature_1_0 fs h name_info_pair.1;
      match r with
      | Some temp =>
          fill_temperatures_1_0_loop fs h rest
            (<[current_index := temp]> temperatures) (S current_index)
      | None => Some (false, temperatures)
      end
  end.

(** [visited] lists the entries of [sensor_info_map_] in the order of
    the loop. *)
Definition fillTemperatures (fs : Platform) (h : ThermalHelper)
    (visited : list (string * SensorInfo))
    (value_initialized : Temperature_1_0) (temperatures : list Temperature_1_0)
    : option (bool * list Temperature_1_0) :=
  fill_temperatures_1_0_loop fs h visited
    (resize (size (sensor_info_map_ h)) value_initialized temperatures) 0.

(** A value-initialised [Temperature_1_0]: all members zero. *)
Definition value_initialized_temperature : Temperature_1_0 :=
  {| type_1_0 := CPU;
     name_1_0 := "";
     currentValue := F32.of_Z 0;
     throttlingThreshold := F32.of_Z 0;
     shutdownThreshold := F32.of_Z 0;
     vrThrottlingThreshold_1_0 := F32.of_Z 0 |}.

(** ** The power-hint bridge: updateSupportedPowerHints and sendPowerExtHint *)

Global Instance ThrottlingSeverity_countable : Countable ThrottlingSeverity.
Proof.
  refine (inj_countable' sev_index
            (fun n => match n with
                      | 0 => NONE | 1 => LIGHT | 2 => MODERATE | 3 => SEVERE
                      | 4 => CRITICAL | 5 => EMERGENCY | _ => SHUTDOWN
                      end%nat) _).
  by intros [].
Defined.

(** [supported_powerhint_map_]: for a sensor and a severity, the severity
    whose hint stands for it. *)
Abbreviation SupportedHints :=
  (gmap string (gmap ThrottlingSeverity ThrottlingSeverity)) (only parsing).

Definition set_prev_hint_severity (st : SensorStatus) (sev : ThrottlingSeverity)
    : SensorStatus :=
  {| severity := severity st;
     prev_hot_severity := prev_hot_severity st;
     prev_cold_severity := prev_cold_severity st;
     prev_hint_severity := sev;
     err_integral := err_integral st;
     prev_err := prev_err st;
     pid_request_map := pid_request_map st;
     hard_limit_request_map := hard_limit_request_map st;
     last_update_time := last_update_time st |}.

Section PowerHints.
(** The power service as [updateSupportedPowerHints] sees it: a state, and
    the answer that [isPowerHalExtConnected() && isModeSupported(name,
    severity)] gives in a state, with the state the two calls leave. *)
Variable PowerHal : Type.
Variable mode_supported : PowerHal -> string -> ThrottlingSeverity -> bool * PowerHal.

(** The body of the inner loop, over [supported_powerhint_map_[name]]. *)
Definition supported_step (name : string)
    (acc : PowerHal * gmap ThrottlingSeverity ThrottlingSeverity * ThrottlingSeverity)
    (severity : ThrottlingSeverity)
    : PowerHal * gmap ThrottlingSeverity ThrottlingSeverity * ThrottlingSeverity :=
  let '(service, hints, current_severity) := acc in
  if bool_decide (severity = NONE) then (service, <[NONE := NONE]> hints, current_severity)
  else
    let '(isSupported, service) := mode_supported service name severity in
    let current_severity := if isSupported then severity else current_severity in
    (service, <[severity := current_severity]> hints, current_severity).

Definition updateSupportedPowerHints (h : ThermalHelper) (service : PowerHal)
    (supported : SupportedHints) : PowerHal * SupportedHints :=
  foldl (fun (acc : PowerHal * SupportedHints) (name_status_pair : string * SensorInfo) =>
           if negb (send_powerhint name_status_pair.2) then acc
           else
             let '(service, hints, _) :=
               foldl (supported_step name_status_pair.1)
                     (acc.1, default ∅ (acc.2 !! name_status_pair.1), NONE)
                     hidl_enum_range in
             (service, <[name_status_pair.1 := hints]> acc.2))
        (service, supported) (map_to_list (sensor_info_map_ h)).
End PowerHints.

(** One call [power_hal_service_.setMode(name, severity, enable)]. *)
Abbreviation ModeCall := (string * ThrottlingSeverity * bool)%type (only parsing).

(** What [sendPowerExtHint] works on: the sensor statuses, the table of
    supported hints, and the calls of [setMode] made so far, in order. *)
Record HintBridge := {
  hint_status_map : gmap string SensorStatus;
  supported_powerhint_map_ : SupportedHints;
  mode_calls : list ModeCall;
}.

(** [None] when [sensor_status_map_.at(t.name)] fails.  Reading
    [supported_powerhint_map_[t.name][t.throttlingStatus]] adds the
    entries it does not find, the inner one value-initialised to NONE. *)
Definition sendPowerExtHint (b : HintBridge) (t : Temperature_2_0) : option HintBridge :=
  sensor_status ← hint_status_map b !! temp_name t;
  let prev_hint_severity := prev_hint_severity sensor_status in
  let hints := default ∅ (supported_powerhint_map_ b !! temp_name t) in
  let current_hint_severity := default NONE (hints !! throttlingStatus t) in
  let supported :=
    <[temp_name t := <[throttlingStatus t := current_hint_severity]> hints]>
      (supported_powerhint_map_ b) in
  if bool_decide (prev_hint_severity = current_hint_severity) then
    Some {| hint_status_map := hint_status_map b;
            supported_powerhint_map_ := supported;
            mode_calls := mode_calls b |}
  else
    let calls :=
      if bool_decide (prev_hint_severity ≠ NONE)
      then mode_calls b ++ [(temp_name t, prev_hint_severity, false)]
      else mode_calls b in
    let calls :=
      if bool_decide (current_hint_severity ≠ NONE)
      then calls ++ [(temp_name t, current_hint_severity, true)]
      else calls in
    Some {| hint_status_map :=
              <[temp_name t := set_prev_hint_severity sensor_status
                                                      current_hint_severity]>
                (hint_status_map b);
            supported_powerhint_map_ := supported;
            mode_calls := calls |}.

(** Whether the calls made so far leave the hint of a sensor at a
    severity enabled: the last call for the pair, if any, enabled it. *)
Definition hint_enabled (calls : list ModeCall) (name : string)
    (sev : ThrottlingSeverity) : bool :=
  foldl (fun on (call : ModeCall) =>
           if bool_decide (call.1.1 = name /\ call.1.2 = sev) then call.2 else on)
        false calls.

(** The bridge remembers what it enabled: for every sensor with a
    status, the hint enabled is the one of [prev_hint_severity], and none
    when that is NONE. *)
Definition hints_as_remembered (b : HintBridge) : Prop :=
  forall name st,
    hint_status_map b !! name = Some st ->
    forall sev,
      hint_enabled (mode_calls b) name sev = true
      <-> sev = prev_hint_severity st /\ sev <> NONE.

(** A bridge with one sensor "A" that has sent no hint yet, for which the
    service supports the hints of MODERATE and CRITICAL only. *)
Definition hint_bridge_start : HintBridge :=
  {| hint_status_map := {[ "A" := initial_status ]};
     supported_powerhint_map_ :=
       {[ "A" := {[ NONE := NONE; LIGHT := NONE; MODERATE := MODERATE;
                    SEVERE := MODERATE; CRITICAL := CRITICAL;
                    EMERGENCY := CRITICAL; SHUTDOWN := CRITICAL ]} ]};
     mode_calls := [] |}.

Definition hint_reading (sev : ThrottlingSeverity) : Temperature_2_0 :=
  {| temp_type := SKIN; temp_name := "A"; value := F32.of_Z 0;
     throttlingStatus := sev |}.

(** The bridge after "A" has been reported at SEVERE. *)
Definition hint_bridge_severe : HintBridge :=
  default hint_bridge_start (sendPowerExtHint hint_bridge_start (hint_reading SEVERE)).

(** ** PowerHalService::connect *)

Section PowerHalService.
(** Binder objects and the two interface handles are opaque; a null
    pointer is [None]. *)
Variables Binder IPower IPowerExt : Type.

Record PowerHalService := {
  power_hal_aidl_exist_ : bool;
  power_hal_aidl_ : option IPower;
  power_hal_ext_aidl_ : option IPowerExt;
}.

(** What the service manager and the binders answer during one call of
    [connect]: [AServiceManager_getService(kInstance)],
    [IPower::fromBinder], [AIBinder_getExtension] (whether the status is
    [STATUS_OK], and the binder it stores) and [IPowerExt::fromBinder]. *)
Record BinderAnswers := {
  getService : option Binder;
  IPower_fromBinder : Binder -> option IPower;
  getExtension : Binder -> bool * option Binder;
  IPowerExt_fromBinder : Binder -> option IPowerExt;
}.

Definition connect (answers : BinderAnswers) (s : PowerHalService)
    : bool * PowerHalService :=
  if negb (power_hal_aidl_exist_ s) then (false, s)
  else
    match power_hal_aidl_ s with
    | Some _ => (true, s)
    | None =>
        match getService answers with
        | None =>
            (false, {| power_hal_aidl_exist_ := false;
                       power_hal_aidl_ := power_hal_aidl_ s;
                       power_hal_ext_aidl_ := power_hal_ext_aidl_ s |})
        | Some power_binder =>
            match IPower_fromBinder answers power_binder with
            | None =>
                (false, {| power_hal_aidl_exist_ := false;
                           power_hal_aidl_ := None;
                           power_hal_ext_aidl_ := power_hal_ext_aidl_ s |})
            | Some power_hal_aidl =>
                match getExtension answers power_binder with
                | (true, Some ext_power_binder) =>
                    let power_hal_ext_aidl :=
                      IPowerExt_fromBinder answers ext_power_binder in
                    (true,
                     {| power_hal_aidl_exist_ :=
                          match power_hal_ext_aidl with
                          | None => false
                          | Some _ => power_hal_aidl_exist_ s
                          end;
                        power_hal_aidl_ := Some power_hal_aidl;
                        power_hal_ext_aidl_ := power_hal_ext_aidl |})
                | _ =>
                    (false, {| power_hal_aidl_exist_ := false;
                               power_hal_aidl_ := Some power_hal_aidl;
                               power_hal_ext_aidl_ := power_hal_ext_aidl_ s |})
                end
            end
        end
    end.

(** Successive calls of [connect], each with the answers it gets; the
    results are listed in order. *)
Fixpoint connect_calls (s : PowerHalService) (answers : list BinderAnswers)
    : list bool * PowerHalService :=
  match answers with
  | [] => ([], s)
  | a :: rest =>
      let '(ok, s) := connect a s in
      let '(oks, s) := connect_calls s rest in
      (ok :: oks, s)
  end.
End PowerHalService.

(** Two sets of answers: a service manager without the power service,
    and one where every step of [connect] succeeds. *)
Definition no_power_service : BinderAnswers unit unit unit :=
  {| getService := None;
     IPower_fromBinder := fun _ => None;
     getExtension := fun _ => (false, None);
     IPowerExt_fromBinder := fun _ => None |}.

Definition full_power_service : BinderAnswers unit unit unit :=
  {| getService := Some tt;
     IPower_fromBinder := fun _ => Some tt;
     getExtension := fun _ => (true, Some tt);
     IPowerExt_fromBinder := fun _ => Some tt |}.

(** ** PowerHalService::isModeSupported and PowerHalService::setMode *)

(** The names of the severities, as [toString] prints them. *)
Definition toString (t : ThrottlingSeverity) : string :=
  match t with
  | NONE => "NONE" | LIGHT => "LIGHT" | MODERATE => "MODERATE"
  | SEVERE => "SEVERE" | CRITICAL => "CRITICAL" | EMERGENCY => "EMERGENCY"
  | SHUTDOWN => "SHUTDOWN"
  end.

(** [StringPrintf("THERMAL_%s_%s", type, toString(t))]. *)
Definition power_hint (type : string) (t : ThrottlingSeverity) : string :=
  String.append "THERMAL_" (String.append type (String.append "_" (toString t))).

Section PowerHalCalls.
Variables IPower IPowerExt : Type.
(** [isPowerHalConnected] is declared with the class, outside this file.
    The two remote calls answer through the extension handle:
    [ext_isModeSupported] gives the value returned when the status is ok,
    [ext_setMode] whether the status is ok. *)
Variable isPowerHalConnected : PowerHalService IPower IPowerExt -> bool.
Variable ext_isModeSupported : IPowerExt -> string -> option bool.
Variable ext_setMode : IPowerExt -> string -> bool -> bool.

(** The state after a remote call that failed. *)
Definition power_hal_lost : PowerHalService IPower IPowerExt :=
  {| power_hal_aidl_exist_ := false;
     power_hal_aidl_ := None;
     power_hal_ext_aidl_ := None |}.

(** [None] when the call goes through a null [power_hal_ext_aidl_]. *)
Definition isModeSupported (s : PowerHalService IPower IPowerExt)
    (type : string) (t : ThrottlingSeverity)
    : option (bool * PowerHalService IPower IPowerExt) :=
  if negb (isPowerHalConnected s) then Some (false, s)
  else
    ext ← power_hal_ext_aidl_ _ _ s;
    match ext_isModeSupported ext (power_hint type t) with
    | None => Some (false, power_hal_lost)
    | Some isSupported => Some (isSupported, s)
    end.

Definition setMode (s : PowerHalService IPower IPowerExt)
    (type : string) (t : ThrottlingSeverity) (enable : bool)
    : option (PowerHalService IPower IPowerExt) :=
  if negb (isPowerHalConnected s) then Some s
  else
    ext ← power_hal_ext_aidl_ _ _ s;
    if negb (ext_setMode ext (power_hint type t) enable) then Some power_hal_lost
    else Some s.
End PowerHalCalls.

(** ** initializeTrip and setMinTimeout *)

Definition setMinTimeout (fs : Platform) (sensor_info : SensorInfo) : SensorInfo :=
  {| sensor_type := sensor_type sensor_info;
     hot_thresholds := hot_thresholds sensor_info;
     cold_thresholds := cold_thresholds sensor_info;
     hot_hysteresis := hot_hysteresis sensor_info;
     cold_hysteresis := cold_hysteresis sensor_info;
     vr_threshold := vr_threshold sensor_info;
     multiplier := multiplier sensor_info;
     polling_delay := kMinPollIntervalMs fs;
     passive_delay := kMinPollIntervalMs fs;
     linked_sensors := linked_sensors sensor_info;
     coefficients := coefficients sensor_info;
     trigger_sensor := trigger_sensor sensor_info;
     formula := formula sensor_info;
     is_virtual_sensor := is_virtual_sensor sensor_info;
     send_cb := send_cb sensor_info;
     send_powerhint := send_powerhint sensor_info;
     is_monitor := is_monitor sensor_info;
     throttling_info := throttling_info sensor_info |}.

Section InitializeTrip.
Variable fs : Platform.
(** [android::base::ReadFileToString] and [WriteStringToFile] (content,
    then path), the four file names of the header, and the text
    [std::to_string(static_cast<int>(x))] of a quotient. *)
Variable ReadFileToString : string -> option string.
Variable WriteStringToFile : string -> string -> bool.
Variables kSensorPolicyFile kUserSpaceSuffix : string.
Variables kSensorTripPointTempZeroFile kSensorTripPointHystZeroFile : string.
Variable int_to_string : float -> string.

(** [StringPrintf("%s/%s", dir, file)]. *)
Definition path_of (dir file : string) : string :=
  String.append dir (String.append "/" file).

(** The loop over the severities, from index 0: the result is
    [support_uevent] with the writes attempted, as pairs of a path and a
    content, in order. *)
Fixpoint trip_point_loop (sensor_info : SensorInfo) (tz_path : string)
    (range : list ThrottlingSeverity) : bool * list (string * string) :=
  match range with
  | [] => (true, [])
  | i :: rest =>
      if negb (isnan (hot_thresholds sensor_info i))
         && negb (isnan (hot_hysteresis sensor_info i))
      then
        let threshold :=
          int_to_string (F32.div (hot_thresholds sensor_info i)
                                 (multiplier sensor_info)) in
        let path := path_of tz_path kSensorTripPointTempZeroFile in
        if negb (WriteStringToFile threshold path) then (false, [(path, threshold)])
        else
          let hyst :=
            int_to_string (F32.div (hot_hysteresis sensor_info i)
                                   (multiplier sensor_info)) in
          let hyst_path := path_of tz_path kSensorTripPointHystZeroFile in
          if negb (WriteStringToFile hyst hyst_path)
          then (false, [(path, threshold); (hyst_path, hyst)])
          else (true, [(path, threshold); (hyst_path, hyst)])
      else if bool_decide (i = SHUTDOWN) then (false, [])
      else trip_point_loop sensor_info tz_path rest
  end.

(** Whether the thermal zone of a sensor can notify by uevent, with the
    writes attempted while finding out. *)
Definition support_uevent (sensor_info : SensorInfo) (tz_path : string)
    : bool * list (string * string) :=
  match ReadFileToString (path_of tz_path kSensorPolicyFile) with
  | None => (false, [])
  | Some tz_policy =>
      if bool_decide (Trim fs tz_policy ≠ kUserSpaceSuffix) then (false, [])
      else trip_point_loop sensor_info tz_path hidl_enum_range
  end.

(** The state of the loop: [sensor_info_map_], [*monitored_sensors] and
    the writes attempted so far.  [None] when [path_map.at()] fails. *)
Definition initialize_trip_step (path_map : gmap string string)
    (acc : option (gmap string SensorInfo * gset string * list (string * string)))
    (sensor_info : string * SensorInfo)
    : option (gmap string SensorInfo * gset string * list (string * string)) :=
  '(sensor_info_map, monitored_sensors, written) ← acc;
  if negb (is_monitor sensor_info.2) || is_virtual_sensor sensor_info.2
  then Some (sensor_info_map, monitored_sensors, written)
  else
    tz_path ← path_map !! sensor_info.1;
    let '(supported, attempts) := support_uevent sensor_info.2 tz_path in
    if supported
    then Some (sensor_info_map, {[ sensor_info.1 ]} ∪ monitored_sensors,
               written ++ attempts)
    else Some (<[sensor_info.1 := setMinTimeout fs sensor_info.2]> sensor_info_map,
               monitored_sensors, written ++ attempts).

Definition initializeTrip (h : ThermalHelper) (path_map : gmap string string)
    (monitored_sensors : gset string)
    : option (gmap string SensorInfo * gset string * list (string * string)) :=
  foldl (initialize_trip_step path_map)
        (Some (sensor_info_map_ h, monitored_sensors, []))
        (map_to_list (sensor_info_map_ h)).
End InitializeTrip.

(** A file system in which the thermal zone "/tz0" has the policy
    "user_space" and every write succeeds, and a path map that puts sensor
    "A" in "/tz0" and sensor "B" in "/tz1", whose policy cannot be read. *)
Definition trip_policy_files (path : string) : option string :=
  if bool_decide (path = "/tz0/policy") then Some "user_space" else None.

Definition trip_path_map : gmap string string := {[ "A" := "/tz0"; "B" := "/tz1" ]}.

(** The two-sensor helper after [setMinTimeout] has been applied to both
    sensors: the status maps are those the constructor built. *)
Definition two_sensor_helper_min_timeout : ThermalHelper :=
  {| cooling_device_info_map_ := cooling_device_info_map_ two_sensor_helper;
     sensor_info_map_ :=
       setMinTimeout (platform_with ∅) <$> sensor_info_map_ two_sensor_helper;
     sensor_status_map_ := sensor_status_map_ two_sensor_helper;
     cdev_status_map_ := cdev_status_map_ two_sensor_helper |}.

(** * Battery health telemetry (BatteryHealthReporter.cpp) *)

Module BatteryHealthReporter.

Definition SECONDS_PER_MONTH : Z := 60 * 60 * 24 * 30.

(** [std::getline] until it fails: the pieces between line feeds, a last
    piece without line feed included when it is not empty. *)
Fixpoint getlines (s line : string) : list string :=
  match s with
  | EmptyString => if bool_decide (line = "") then [] else [line]
  | String c s' =>
      if bool_decide (c = "010"%char) then line :: getlines s' ""
      else getlines s' (String.append line (String c EmptyString))
  end.

(** A [VendorAtom]: its id and its values, [None] for a value that is
    still as the vector was created. *)
Record VendorAtom := {
  atomId : Z;
  values : list (option Z);
}.

Section Reporter.
(** The ten field numbers of [health_status_stats_fields], the offset
    [kVendorAtomOffset] and the atom id come from generated headers;
    [sscanf] gives the numbers that the format converts, in order, their
    count being what the call returns. *)
Variable health_status_stats_fields : list Z.
Variable kVendorAtomOffset : Z.
Variable kBatteryHealthStatus : Z.
Variable sscanf : string -> list Z.

(** [values[health_status_stats_fields[i] - kVendorAtomOffset] = tmp[i]]
    for [i] from 0; [None] when an index is outside the vector. *)
Fixpoint assign_values (fields tmp : list Z) (values : list (option Z))
    : option (list (option Z)) :=
  match fields, tmp with
  | field :: fields', v :: tmp' =>
      let index := field - kVendorAtomOffset in
      if bool_decide (0 <= index < Z.of_nat (length values))
      then assign_values fields' tmp' (<[Z.to_nat index := Some v]> values)
      else None
  | _, _ => Some values
  end.

(** The atoms that one line makes the reporter send: none when the line
    does not convert to ten numbers.  The outer [None] is an index outside
    the vector. *)
Definition reportBatteryHealthStatus (line : string) : option (list VendorAtom) :=
  let tmp := sscanf line in
  if bool_decide (length tmp ≠ 10%nat) then Some []
  else
    values ← assign_values health_status_stats_fields tmp (replicate 10 None);
    Some [{| atomId := kBatteryHealthStatus; values := values |}].

(** One call at time [now] ([getTimeSecs]), the status file holding
    [file] when it can be read.  The result is the new [report_time_]
    with the atoms sent, [None] in their place when the call returns
    before it reads the lines. *)
Definition checkAndReportStatus (now : Z) (file : option string) (report_time_ : Z)
    : option (Z * option (list VendorAtom)) :=
  if bool_decide (report_time_ ≠ 0) && bool_decide (now - report_time_ < SECONDS_PER_MONTH)
  then Some (report_time_, None)
  else
    match file with
    | None => Some (report_time_, None)
    | Some file_contents =>
        atoms ← foldl (fun acc line =>
                         sent ← acc;
                         new ← reportBatteryHealthStatus line;
                         Some (sent ++ new))
                      (Some []) (getlines file_contents "");
        Some (now, Some atoms)
    end.

(** Successive calls, each at its time and with the file as it then is;
    the result lists the times of the calls that read the lines. *)
Fixpoint report_times (report_time_ : Z) (calls : list (Z * option string))
    : option (list Z) :=
  match calls with
  | [] => Some []
  | call :: rest =>
      r ← checkAndReportStatus call.1 call.2 report_time_;
      times ← report_times r.1 rest;
      Some (match r.2 with Some _ => call.1 :: times | None => times end)
  end.
End Reporter.

(** Every time is at least a month after the one before it, counted from
    [previous] unless that is 0. *)
Fixpoint month_apart (previous : Z) (times : list Z) : Prop :=
  match times with
  | [] => True
  | t :: rest =>
      (previous = 0 \/ SECONDS_PER_MONTH <= t - previous) /\ month_apart t rest
  end.

(** Field numbers 2 to 11 with offset 2, and a [sscanf] that converts
    the line "ok" to the numbers 1 to 10 and nothing else. *)
Definition example_fields : list Z := [2; 3; 4; 5; 6; 7; 8; 9; 10; 11].

Definition example_sscanf (line : string) : list Z :=
  if bool_decide (line = "ok") then [1; 2; 3; 4; 5; 6; 7; 8; 9; 10] else [].

(** Three calls on a readable file, at 100 s, at 200 s and a month after
    the first. *)
Definition example_calls : list (Z * option string) :=
  [(100, Some "ok"); (200, Some "ok"); (100 + SECONDS_PER_MONTH, Some "ok")].

End BatteryHealthReporter.

(** * Properties *)

(** ** Comparisons of floating values *)

Lemma SFcompare_Lt_swap (a b : float) :
  SFcompare a b = Some Lt -> SFcompare b a = Some Gt.
Proof.
  destruct a as [sa|sa| |sa ma ea], b as [sb|sb| |sb mb eb]; simpl;
    try discriminate; try (destruct sa; discriminate);
    try (destruct sb; discriminate);
    try (destruct sa, sb; (discriminate || reflexivity)).
  change (Pos.compare_cont Eq mb ma)
    with (Pos.compare_cont (CompOpp Eq) mb ma).
  rewrite (Z.compare_antisym ea eb), <- (Pos.compare_cont_antisym ma mb Eq).
  destruct sa, sb; try (discriminate || reflexivity);
    destruct (ea ?= eb)%Z; simpl; try (discriminate || reflexivity);
    destruct (Pos.compare_cont Eq ma mb); simpl; (discriminate || reflexivity).
Qed.

Lemma ltb_not_leb (a b : float) : F32.ltb a b = true -> F32.leb b a = false.
Proof.
  unfold F32.ltb, F32.leb, SFltb, SFleb.
  destruct (SFcompare a b) as [[]|] eqn:E; try discriminate.
  intros _. now rewrite (SFcompare_Lt_swap _ _ E).
Qed.

Lemma ltb_not_nan_l (a b : float) : F32.ltb a b = true -> isnan a = false.
Proof. destruct a; simpl; try reflexivity. discriminate. Qed.

Lemma ltb_not_nan_r (a b : float) : F32.ltb a b = true -> isnan b = false.
Proof. destruct a, b; simpl; try reflexivity; discriminate. Qed.

(** ** The severity classifier *)

Section SeverityScan.
Variables hot cold hh ch : ThrottlingArray.
Variable v : float.

Local Abbreviation step := (severity_scan_step hot cold hh ch v).

Lemma scan_ret_hot range acc :
  ret_hot (fold_left step range acc)
  = first_hit (fun i => negb (isnan (hot i)) && F32.leb (hot i) v)
              range (ret_hot acc).
Proof. revert acc; induction range as [|i l IH]; intros acc; [done|apply IH]. Qed.

Lemma scan_ret_hot_hysteresis range acc :
  ret_hot_hysteresis (fold_left step range acc)
  = first_hit (fun i => negb (isnan (hot i))
                        && F32.ltb (F32.sub (hot i) (hh i)) v)
              range (ret_hot_hysteresis acc).
Proof. revert acc; induction range as [|i l IH]; intros acc; [done|apply IH]. Qed.

Lemma scan_ret_cold range acc :
  ret_cold (fold_left step range acc)
  = first_hit (fun i => negb (isnan (cold i)) && F32.geb (cold i) v)
              range (ret_cold acc).
Proof. revert acc; induction range as [|i l IH]; intros acc; [done|apply IH]. Qed.

Lemma scan_ret_cold_hysteresis range acc :
  ret_cold_hysteresis (fold_left step range acc)
  = first_hit (fun i => negb (isnan (cold i))
                        && F32.gtb (F32.add (cold i) (ch i)) v)
              range (ret_cold_hysteresis acc).
Proof. revert acc; induction range as [|i l IH]; intros acc; [done|apply IH]. Qed.
End SeverityScan.

Ltac use_levels_above H :=
  let inst j :=
    (let Hj := fresh "Habove" in
     pose proof (H j) as Hj; cbn in Hj;
     first [ specialize (Hj eq_refl) | clear Hj ]) in
  inst LIGHT; inst MODERATE; inst SEVERE; inst CRITICAL; inst EMERGENCY;
  inst SHUTDOWN.

Ltac rewrite_tests test :=
  repeat match goal with
         | H : test _ = _ |- _ => rewrite H
         end.

Ltac split_tests test :=
  repeat match goal with
         | |- context [test ?j] => destruct (test j) eqn:?
         end.


(** When [i] passes the test and no level above it does, the scan ends at [i]. *)
Lemma first_hit_at test i :
  i <> NONE -> test i = true ->
  (forall j, sev_ltb i j = true -> test j = false) ->
  first_hit test severities_high_to_low NONE = i.
Proof.
  intros Hi Ht H. unfold first_hit, severities_high_to_low. cbn [fold_left].
  destruct i; try done; use_levels_above H;
    rewrite_tests test; split_tests test; cbv; reflexivity.
Qed.





(** ** The PID target state *)

Ltac use_pid_above H :=
  let inst j :=
    (let Hj := fresh "Habove" in
     pose proof (H j) as Hj; cbn in Hj;
     first [ specialize (Hj eq_refl);
             apply (bool_decide_eq_false_2 _) in Hj
           | clear Hj ]) in
  inst LIGHT; inst MODERATE; inst SEVERE; inst CRITICAL; inst EMERGENCY;
  inst SHUTDOWN.

(** When the current severity is not below the highest PID severity [h],
    the loop ends with [target_state = h]. *)
Lemma pid_target_loop_highest (tt : SevArray ThrottleType) (cur h : ThrottlingSeverity) :
  tt h = PID ->
  (forall s, sev_ltb h s = true -> tt s <> PID) ->
  sev_ltb cur h = false ->
  pid_target_loop tt cur hidl_enum_range NONE = h.
Proof.
  intros Hh Habove Hcur.
  apply (bool_decide_eq_true_2 _) in Hh.
  unfold hidl_enum_range.
  destruct h; use_pid_above Habove; clear Habove;
    destruct cur; try discriminate Hcur; clear Hcur; cbn [pid_target_loop];
    repeat match goal with
           | H : bool_decide (tt _ = PID) = _ |- _ => rewrite H; clear H
           end;
    cbn;
    repeat match goal with
           | |- context [bool_decide (tt ?j = PID)] =>
               destruct (bool_decide (tt j = PID)); cbn
           end;
    reflexivity.
Qed.

(** The budget returned when no PID applies is a finite number. *)
Lemma max_float_finite : is_finite F32.max_float = true.
Proof. reflexivity. Qed.

(** C2 (amended). When the current severity is above NONE and above
    the highest severity [h] with throttle type PID, the scan ends with
    [target_state = h], not 0.  The case is treated as "no PID" only when
    the target state is 0 or the severity is NONE: then [err_integral] is
    reset to 0, [prev_err] to NaN, and the budget returned is the largest
    finite float.  For a target state above 0 (and a severity above NONE)
    the PID step runs and [prev_err] becomes the error against
    [hot_thresholds[target_state]]. *)
Theorem pid_target_above_highest
    (temp : Temperature_2_0) (sensor_info : SensorInfo)
    (sensor_status : SensorStatus) (time_elapsed_ms : Z) :
  (forall h,
      sev_ltb NONE (severity sensor_status) = true ->
      throttle_type (throttling_info sensor_info) h = PID ->
      (forall s, sev_ltb h s = true ->
                 throttle_type (throttling_info sensor_info) s <> PID) ->
      sev_ltb h (severity sensor_status) = true ->
      pid_target_state sensor_info sensor_status = h)
  /\
  (pid_target_state sensor_info sensor_status = NONE
   \/ severity sensor_status = NONE ->
   pidPowerCalculator temp sensor_info sensor_status time_elapsed_ms
   = (F32.max_float, set_pid_memory sensor_status (F32.of_Z 0) NAN))
  /\
  (pid_target_state sensor_info sensor_status <> NONE ->
   severity sensor_status <> NONE ->
   prev_err (pidPowerCalculator temp sensor_info sensor_status time_elapsed_ms).2
   = pid_err (value temp) sensor_info (pid_target_state sensor_info sensor_status)).
Proof.
  split; [|split].
  - intros h _ Hh Habove Hlt. apply pid_target_loop_highest; auto.
    revert Hlt. clear. by destruct h, (severity sensor_status).
  - intros H. unfold pidPowerCalculator.
    destruct H as [-> | ->]; [reflexivity|].
    by rewrite orb_true_r.
  - intros Ht Hs. unfold pidPowerCalculator.
    rewrite !bool_decide_eq_false_2 by done. cbn [orb].
    repeat match goal with
           | |- context [if ?b then _ else _] => destruct b
           end; reflexivity.
Qed.

(** A run of the theorem: the scenario sensor at SEVERE (above its only
    PID severity MODERATE) targets MODERATE, and without any PID severity
    the budget is the largest finite float. *)
Lemma pid_target_above_highest_witness :
  pid_target_state (scenario_sensor (F32.of_Z 20))
                   (scenario_status SEVERE (F32.of_Z 0) NAN) = MODERATE
  /\ pidPowerCalculator (reading 70) (scenario_sensor (F32.of_Z 20))
                        (scenario_status NONE (F32.of_Z 5) (F32.of_Z 5)) 1000
     = (F32.max_float,
        set_pid_memory (scenario_status NONE (F32.of_Z 5) (F32.of_Z 5))
                       (F32.of_Z 0) NAN)
  /\ prev_err (pidPowerCalculator (reading 70) (scenario_sensor (F32.of_Z 20))
                                  (scenario_status SEVERE (F32.of_Z 0) NAN) 1000).2
     = pid_err (F32.of_Z 70) (scenario_sensor (F32.of_Z 20)) MODERATE.
Proof.
  split; [|split].
  - apply (proj1 (pid_target_above_highest
                    (reading 70) (scenario_sensor (F32.of_Z 20))
                    (scenario_status SEVERE (F32.of_Z 0) NAN) 1000)).
    + reflexivity.
    + reflexivity.
    + intros s Hs. destruct s; (discriminate Hs || discriminate).
    + reflexivity.
  - apply (proj1 (proj2 (pid_target_above_highest
                           (reading 70) (scenario_sensor (F32.of_Z 20))
                           (scenario_status NONE (F32.of_Z 5) (F32.of_Z 5)) 1000))).
    right. reflexivity.
  - apply (proj2 (proj2 (pid_target_above_highest
                           (reading 70) (scenario_sensor (F32.of_Z 20))
                           (scenario_status SEVERE (F32.of_Z 0) NAN) 1000))).
    + vm_compute. discriminate.
    + vm_compute. discriminate.
Defined.

(** C2 as stated fails: the scenario sensor has PID only at MODERATE and
    sits at SEVERE, above NONE and above its highest PID severity; the
    target state is MODERATE, the PID step runs (budget 1000 + (55 - 70) * 20
    = 700) and the PID memory is not reset. *)
Lemma pid_above_highest_counterexample :
  sev_ltb NONE SEVERE = true
  /\ throttle_type (scenario_throttling (F32.of_Z 20)) MODERATE = PID
  /\ (forall s, sev_ltb MODERATE s = true ->
                throttle_type (scenario_throttling (F32.of_Z 20)) s <> PID)
  /\ sev_ltb MODERATE SEVERE = true
  /\ pid_target_state (scenario_sensor (F32.of_Z 20))
                      (scenario_status SEVERE (F32.of_Z 0) NAN) <> NONE
  /\ pidPowerCalculator (reading 70) (scenario_sensor (F32.of_Z 20))
                        (scenario_status SEVERE (F32.of_Z 0) NAN) 1000
     = (F32.of_Z 700,
        set_pid_memory (scenario_status SEVERE (F32.of_Z 0) NAN)
                       (F32.of_Z (-15)) (F32.of_Z (-15)))
  /\ pidPowerCalculator (reading 70) (scenario_sensor (F32.of_Z 20))
                        (scenario_status SEVERE (F32.of_Z 0) NAN) 1000
     <> (S754_infinity false,
         set_pid_memory (scenario_status SEVERE (F32.of_Z 0) NAN)
                        (F32.of_Z 0) NAN).
Proof.
  repeat split; try reflexivity.
  - intros s Hs. destruct s; (discriminate Hs || discriminate).
  - vm_compute. discriminate.
  - vm_compute. discriminate.
Qed.

(** ** The PID budget and the allocated state *)

(** A zero integral or derivative contribution leaves the budget as it is. *)
Lemma add_zero_r_finite s m e z :
  is_zero z = true -> F32.add (S754_finite s m e) z = S754_finite s m e.
Proof. by destruct z. Qed.

(** C1 (amended). For a sensor at severity MODERATE whose highest PID
    severity is MODERATE, with [s_power = 1000], over-temperature gain
    [k_po = 20] (the gain used when the error is negative), [k_i = k_d =
    0] and [hot_thresholds[MODERATE] = 55], a reading of 60 gives a power
    budget of exactly 900, whenever the stored integral is finite, the
    derivative term is well defined (first sample, or a finite error
    difference over a non-zero elapsed time) and the allocation clamps do
    not cut 900.  With the whole weight on one cooling device whose table
    is 1500, 1000, 500, 0, the allocator then records state 2. *)
Theorem pid_budget_scenario
    (temp : Temperature_2_0) (sensor_info : SensorInfo) (sensor_status : SensorStatus)
    (time_elapsed_ms : Z) (cdev_info : gmap string CdevInfo)
    (cdev : string) (info : CdevInfo) :
  severity sensor_status = MODERATE ->
  throttle_type (throttling_info sensor_info) MODERATE = PID ->
  (forall s, sev_ltb MODERATE s = true ->
             throttle_type (throttling_info sensor_info) s <> PID) ->
  s_power (throttling_info sensor_info) MODERATE = F32.of_Z 1000 ->
  k_po (throttling_info sensor_info) MODERATE = F32.of_Z 20 ->
  k_i (throttling_info sensor_info) MODERATE = F32.of_Z 0 ->
  k_d (throttling_info sensor_info) MODERATE = F32.of_Z 0 ->
  hot_thresholds sensor_info MODERATE = F32.of_Z 55 ->
  value temp = F32.of_Z 60 ->
  is_finite (err_integral sensor_status) = true ->
  (isnan (prev_err sensor_status) = true \/
   (is_finite (F32.sub (F32.of_Z (-5)) (prev_err sensor_status)) = true /\
    is_finite (F32.of_Z time_elapsed_ms) = true /\
    is_zero (F32.of_Z time_elapsed_ms) = false)) ->
  F32.ltb (F32.of_Z 900) (min_alloc_power (throttling_info sensor_info) MODERATE) = false ->
  F32.gtb (F32.of_Z 900) (max_alloc_power (throttling_info sensor_info) MODERATE) = false ->
  cdev_request (throttling_info sensor_info) = [cdev] ->
  cdev <> "" ->
  cdev_weight (throttling_info sensor_info) = [F32.of_Z 1] ->
  cdev_info !! cdev = Some info ->
  power2state info = [F32.of_Z 1500; F32.of_Z 1000; F32.of_Z 500; F32.of_Z 0] ->
  is_Some (pid_request_map sensor_status !! cdev) ->
  (pidPowerCalculator temp sensor_info sensor_status time_elapsed_ms).1 = F32.of_Z 900
  /\ exists st,
      requestCdevByPower cdev_info
        (pidPowerCalculator temp sensor_info sensor_status time_elapsed_ms).2
        sensor_info
        (pidPowerCalculator temp sensor_info sensor_status time_elapsed_ms).1
      = Some (true, st)
      /\ pid_request_map st !! cdev = Some 2.
Proof.
  intros Hsev Hpid Habove Hs Hpo Hi Hd Hthr Hval Hint Hprev Hmin Hmax
         Hreq Hne Hw Hinfo Htable [old Hold].
  assert (pid_target_state sensor_info sensor_status = MODERATE) as Htarget.
  { unfold pid_target_state. apply pid_target_loop_highest; auto. by rewrite Hsev. }
  assert ((pidPowerCalculator temp sensor_info sensor_status time_elapsed_ms).1
          = F32.of_Z 900) as Hbudget.
  { unfold pidPowerCalculator, pid_i_next, pid_err.
    rewrite Htarget, Hsev, Hs, Hpo, Hi, Hd, Hthr, Hval.
    change (F32.sub (F32.of_Z 55) (F32.of_Z 60)) with (F32.of_Z (-5)).
    set (x := F32.sub (F32.of_Z (-5)) (prev_err sensor_status)) in *.
    set (T := F32.of_Z time_elapsed_ms) in *.
    set (lo := min_alloc_power _ _) in *. set (hi := max_alloc_power _ _) in *.
    set (cut := i_cutoff _ _). set (im := i_max _ _).
    assert (forall i : float, is_zero i = true ->
              forall d : float, is_zero d = true ->
              (let power_budget :=
                 F32.add (F32.add (F32.add (F32.of_Z 1000)
                                           (F32.mul (F32.of_Z (-5)) (F32.of_Z 20))) i) d in
               let power_budget :=
                 if F32.ltb power_budget lo then lo else power_budget in
               if F32.gtb power_budget hi then hi else power_budget)
              = F32.of_Z 900) as Hsum.
    { intros i Zi d Zd.
      change (F32.add (F32.of_Z 1000) (F32.mul (F32.of_Z (-5)) (F32.of_Z 20)))
        with (S754_finite false 14745600 (-14)).
      rewrite !add_zero_r_finite by done. cbv zeta.
      change (S754_finite false 14745600 (-14)) with (F32.of_Z 900).
      by rewrite Hmin, Hmax. }
    assert (is_zero (F32.mul (err_integral sensor_status) (F32.of_Z 0)) = true) as Zi
      by (by destruct (err_integral sensor_status)).
    assert (is_zero (F32.add (F32.mul (err_integral sensor_status) (F32.of_Z 0))
                             (F32.mul (F32.of_Z (-5)) (F32.of_Z 0))) = true) as Zi'
      by (by destruct (err_integral sensor_status) as [[]|[]| |[]]).
    assert (is_zero (if negb (isnan (prev_err sensor_status))
                     then F32.div (F32.mul (F32.of_Z 0) x) T
                     else F32.of_Z 0) = true) as Zd.
    { destruct Hprev as [->|(Hx & HT & HT')]; [done|].
      destruct (negb _); [|done].
      destruct x as [[]|[]| |[]]; try done; destruct T; done. }
    cbn [orb bool_decide decide_rel]. 
    replace (bool_decide (MODERATE = NONE)) with false by reflexivity.
    cbn [orb].
    destruct (F32.ltb (F32.of_Z (-5)) cut);
      [destruct (F32.ltb _ im)|]; cbn [fst];
      change (F32.ltb (F32.of_Z (-5)) (F32.of_Z 0)) with true; cbv iota;
      by apply Hsum. }
  split; [exact Hbudget|].
  rewrite Hbudget.
  unfold requestCdevByPower, total_weight_of.
  rewrite Hreq, Hw. cbn [length seq foldl lookup list_lookup mbind option_bind].
  change (F32.add (F32.of_Z 0) (F32.of_Z 1)) with (F32.of_Z 1). cbn [is_zero F32.of_Z].
  change (is_zero (F32.of_Z 1)) with false. cbv iota.
  unfold request_cdev_step. rewrite Hreq, Hw.
  cbn [lookup list_lookup mbind option_bind].
  rewrite bool_decide_eq_true_2 by done.
  rewrite Hinfo. cbn [mbind option_bind]. rewrite Htable.
  replace (pid_request_map _ !! cdev) with (Some old)
    by (symmetry; destruct (pidPowerCalculator _ _ _ _) eqn:E; revert E;
        unfold pidPowerCalculator;
        repeat match goal with
               | |- context [if ?b then _ else _] => destruct b
               end; intros [= <- <-]; exact Hold).
  eexists; split; [reflexivity|].
  cbn [pid_request_map set_pid_request_map]. by rewrite lookup_insert_eq.
Qed.

(** The scenario of the specification, with gain 20 on the
    over-temperature side: the sample at 60 that follows the sample at 50
    (stored integral 5, previous error 5, one second earlier). *)
Lemma pid_budget_scenario_witness :
  (pidPowerCalculator (reading 60) (scenario_sensor (F32.of_Z 20))
                      (scenario_status MODERATE (F32.of_Z 5) (F32.of_Z 5)) 1000).1
  = F32.of_Z 900
  /\ exists st,
      requestCdevByPower scenario_cdev_info
        (pidPowerCalculator (reading 60) (scenario_sensor (F32.of_Z 20))
                            (scenario_status MODERATE (F32.of_Z 5) (F32.of_Z 5)) 1000).2
        (scenario_sensor (F32.of_Z 20))
        (pidPowerCalculator (reading 60) (scenario_sensor (F32.of_Z 20))
                            (scenario_status MODERATE (F32.of_Z 5) (F32.of_Z 5)) 1000).1
      = Some (true, st)
      /\ pid_request_map st !! "cpu_freq" = Some 2.
Proof.
  apply (pid_budget_scenario
           (reading 60) (scenario_sensor (F32.of_Z 20))
           (scenario_status MODERATE (F32.of_Z 5) (F32.of_Z 5)) 1000
           scenario_cdev_info "cpu_freq" scenario_cdev).
  - reflexivity.
  - reflexivity.
  - intros s Hs. destruct s; (discriminate Hs || discriminate).
  - reflexivity.
  - reflexivity.
  - reflexivity.
  - reflexivity.
  - reflexivity.
  - reflexivity.
  - reflexivity.
  - right. vm_compute. auto.
  - reflexivity.
  - reflexivity.
  - reflexivity.
  - discriminate.
  - reflexivity.
  - reflexivity.
  - reflexivity.
  - exists 0. reflexivity.
Defined.

(** The PID memory that the witness starts from is the one left by the
    samples 40 and 50 of the scenario: integral 5 and previous error 5. *)
Lemma crossing_up_memory :
  err_integral (pid_run (scenario_sensor (F32.of_Z 20))
                        (scenario_status NONE (F32.of_Z 0) NAN)
                        crossing_up_samples) = F32.of_Z 5
  /\ prev_err (pid_run (scenario_sensor (F32.of_Z 20))
                       (scenario_status NONE (F32.of_Z 0) NAN)
                       crossing_up_samples) = F32.of_Z 5.
Proof. split; reflexivity. Qed.

(** C1 as stated fails: with every value the claim fixes ([s_power =
    1000], [k_pu = 20], [k_i = k_d = 0], threshold 55, severity MODERATE,
    reading 60) and an over-temperature gain [k_po = 100], the error 55 -
    60 is negative, so [k_po] is the gain applied: the budget is 500 and
    the state recorded is 3. *)
Lemma pid_budget_counterexample :
  s_power (scenario_throttling (F32.of_Z 100)) MODERATE = F32.of_Z 1000
  /\ k_pu (scenario_throttling (F32.of_Z 100)) MODERATE = F32.of_Z 20
  /\ k_i (scenario_throttling (F32.of_Z 100)) MODERATE = F32.of_Z 0
  /\ k_d (scenario_throttling (F32.of_Z 100)) MODERATE = F32.of_Z 0
  /\ hot_thresholds (scenario_sensor (F32.of_Z 100)) MODERATE = F32.of_Z 55
  /\ (pidPowerCalculator (reading 60) (scenario_sensor (F32.of_Z 100))
                         (scenario_status MODERATE (F32.of_Z 0) NAN) 1000).1
     = F32.of_Z 500
  /\ (pidPowerCalculator (reading 60) (scenario_sensor (F32.of_Z 100))
                         (scenario_status MODERATE (F32.of_Z 0) NAN) 1000).1
     <> F32.of_Z 900
  /\ (requestCdevByPower scenario_cdev_info
        (pidPowerCalculator (reading 60) (scenario_sensor (F32.of_Z 100))
                            (scenario_status MODERATE (F32.of_Z 0) NAN) 1000).2
        (scenario_sensor (F32.of_Z 100)) (F32.of_Z 500)
      ≫= fun r => pid_request_map r.2 !! "cpu_freq") = Some 3.
Proof.
  repeat split; try reflexivity.
  vm_compute. discriminate.
Qed.

(** ** The integral accumulator *)

(** What one sample does to [err_integral]: nothing, a reset, or the
    addition of [err] under the two guards, at a target state other than
    NONE. *)
Lemma pid_integral_cases (temp : Temperature_2_0) (sensor_info : SensorInfo)
    (st : SensorStatus) (time_elapsed_ms : Z) :
  err_integral (pidPowerCalculator temp sensor_info st time_elapsed_ms).2
  = err_integral st
  \/ err_integral (pidPowerCalculator temp sensor_info st time_elapsed_ms).2
     = F32.of_Z 0
  \/ (pid_target_state sensor_info st <> NONE
      /\ err_integral (pidPowerCalculator temp sensor_info st time_elapsed_ms).2
         = F32.add (err_integral st)
                   (pid_err (value temp) sensor_info (pid_target_state sensor_info st))
      /\ F32.ltb (pid_err (value temp) sensor_info (pid_target_state sensor_info st))
                 (i_cutoff (throttling_info sensor_info)
                           (pid_target_state sensor_info st)) = true
      /\ F32.ltb (F32.abs (pid_i_next (throttling_info sensor_info)
                                      (pid_target_state sensor_info st)
                                      (err_integral st)
                                      (pid_err (value temp) sensor_info
                                               (pid_target_state sensor_info st))))
                 (i_max (throttling_info sensor_info)
                        (pid_target_state sensor_info st)) = true).
Proof.
  unfold pidPowerCalculator.
  destruct (decide (pid_target_state sensor_info st = NONE)) as [Ht|Ht].
  { rewrite bool_decide_eq_true_2 by done. right; left; reflexivity. }
  rewrite (bool_decide_eq_false_2 _ Ht).
  destruct (bool_decide (severity st = NONE)); [right; left; reflexivity|].
  cbn [orb].
  destruct (F32.ltb (pid_err _ _ _) (i_cutoff _ _)) eqn:Hcut; [|left; reflexivity].
  destruct (F32.ltb (F32.abs _) (i_max _ _)) eqn:Hmax; [|left; reflexivity].
  right; right. auto.
Qed.

(** An accumulator accepted along a run stays accepted when the run goes
    on. *)
Lemma integral_accepted_app (sensor_info : SensorInfo) (st : SensorStatus)
    (samples more : list Sample) (integral : float) :
  integral_accepted sensor_info st samples integral ->
  integral_accepted sensor_info st (samples ++ more) integral.
Proof.
  intros [E|(k & s & Hk & H)]; [by left|right].
  exists k, s. split; [by apply lookup_app_l_Some|].
  unfold status_at in *.
  rewrite take_app_le by (apply lookup_lt_Some in Hk; lia).
  exact H.
Qed.

(** Along a run the accumulator is the one the run started from, or one
    that a sample of the run accepted. *)
Lemma pid_run_accepted (sensor_info : SensorInfo) (st : SensorStatus)
    (samples : list Sample) :
  err_integral (pid_run sensor_info st samples) = err_integral st
  \/ integral_accepted sensor_info st samples
       (err_integral (pid_run sensor_info st samples)).
Proof.
  induction samples as [|s samples IH] using rev_ind; [by left|].
  unfold pid_run in *. rewrite foldl_snoc.
  set (found := foldl (fun st s => (pid_sample sensor_info st s).2) st samples) in *.
  unfold pid_sample at 1. unfold pid_sample at 1.
  destruct (pid_integral_cases
              {| temp_type := sensor_type sensor_info; temp_name := "";
                 value := sample_value s; throttlingStatus := sample_severity s |}
              sensor_info
              (set_severities found (sample_severity s)
                              (prev_hot_severity found) (prev_cold_severity found))
              (sample_elapsed_ms s)) as [E|[E|(Ht & E & Hcut & Hmax)]]; rewrite E.
  - destruct IH as [IH|IH]; [by left|right].
    by apply integral_accepted_app.
  - right. by left.
  - right. right. exists (length samples), s.
    split; [by apply list_lookup_middle|].
    unfold status_at, pid_run. rewrite take_app_length.
    fold found. cbv zeta. auto.
Qed.

(** C4 (amended). Along every sequence of samples that starts from
    [err_integral = 0], the accumulator after the last sample is 0 or the
    sum [before + err] that one sample of the sequence accepted: [before]
    is the accumulator that sample found, [err] its error against its own
    target state, [err] was below [i_cutoff[target]] and the tentative
    integral term [before * k_i[target] + err * k_i[target]] strictly
    inside [i_max[target]], for the target state of the sample that made
    the addition. *)
Theorem integral_updates_guarded
    (sensor_info : SensorInfo) (st : SensorStatus) (samples : list Sample) :
  err_integral st = F32.of_Z 0 ->
  integral_accepted sensor_info st samples
    (err_integral (pid_run sensor_info st samples)).
Proof.
  intros H0.
  destruct (pid_run_accepted sensor_info st samples) as [E|H]; [|exact H].
  left. by rewrite E.
Qed.

Lemma integral_updates_guarded_witness :
  integral_accepted switching_sensor initial_status switching_samples
    (err_integral (pid_run switching_sensor initial_status switching_samples)).
Proof.
  apply (integral_updates_guarded switching_sensor initial_status switching_samples).
  reflexivity.
Defined.

(** C4 as stated fails.  The switching sensor starts from
    [err_integral = 0]; the sample 50 at LIGHT targets MODERATE and
    accepts the error 5 (|0 + 5| < 10); the sample 60 at MODERATE targets
    SEVERE, whose clamp 2 rejects the error 5, and leaves [err_integral =
    5]: for the target state of that sample, [|5 * 1| < 2] is false. *)
Lemma integral_bound_counterexample :
  err_integral initial_status = F32.of_Z 0
  /\ pid_target_state switching_sensor
       (pid_run switching_sensor initial_status switching_samples) = SEVERE
  /\ err_integral (pid_run switching_sensor initial_status switching_samples)
     = F32.of_Z 5
  /\ integral_within_clamp switching_sensor
       (pid_run switching_sensor initial_status switching_samples) = false.
Proof. repeat split; reflexivity. Qed.

(** The stored accumulator can also sit on the clamp with one target
    state and a positive clamp: with [k_i = 0.01] and [i_max = 0.06] in
    binary32, the errors 1 and 5 are both accepted (the rounded sum of the
    two scaled errors is below 0.06), and the accumulator 6 scaled by
    0.01 rounds to 0.06 itself. *)
Lemma integral_bound_rounding :
  pid_target_state rounding_sensor
    (pid_run rounding_sensor initial_status rounding_samples) = MODERATE
  /\ err_integral (pid_run rounding_sensor initial_status rounding_samples)
     = F32.of_Z 6
  /\ integral_within_clamp rounding_sensor
       (pid_run rounding_sensor initial_status rounding_samples) = false.
Proof. repeat split; reflexivity. Qed.

(** ** Allocation with a zero total weight *)

(** C7. When the weights of the requested cooling devices sum to zero,
    [requestCdevByPower] returns false and the status, with every entry of
    [pid_request_map], is exactly what it was, whatever the power budget. *)
Theorem zero_weight_fails
    (cdev_info : gmap string CdevInfo) (sensor_status : SensorStatus)
    (sensor_info : SensorInfo) (total_power_budget total_weight : float) :
  total_weight_of (throttling_info sensor_info) = Some total_weight ->
  is_zero total_weight = true ->
  requestCdevByPower cdev_info sensor_status sensor_info total_power_budget
  = Some (false, sensor_status).
Proof.
  intros Hsum Hzero. unfold requestCdevByPower.
  rewrite Hsum. cbn [mbind option_bind]. by rewrite Hzero.
Qed.

Lemma zero_weight_fails_witness :
  requestCdevByPower scenario_cdev_info
    (scenario_status MODERATE (F32.of_Z 0) NAN)
    (sensor_with zero_weight_throttling) (F32.of_Z 900)
  = Some (false, scenario_status MODERATE (F32.of_Z 0) NAN).
Proof.
  apply (zero_weight_fails scenario_cdev_info
           (scenario_status MODERATE (F32.of_Z 0) NAN)
           (sensor_with zero_weight_throttling) (F32.of_Z 900) (F32.of_Z 0)).
  - reflexivity.
  - reflexivity.
Defined.

(** The sum is defined as soon as every requested device has a weight. *)
Lemma total_weight_defined (ti : ThrottlingInfo) :
  (length (cdev_request ti) <= length (cdev_weight ti))%nat ->
  is_Some (total_weight_of ti).
Proof.
  intros Hlen. unfold total_weight_of.
  assert (forall (l : list nat) (o : option float),
             is_Some o ->
             (forall i, i ∈ l -> (i < length (cdev_weight ti))%nat) ->
             is_Some (foldl (fun acc i =>
                               total ← acc; w ← cdev_weight ti !! i;
                               Some (F32.add total w)) o l)) as H.
  { induction l as [|i l IH]; intros o Ho Hl; [exact Ho|].
    cbn [foldl]. apply IH.
    - destruct Ho as [t ->]. cbn.
      destruct (lookup_lt_is_Some_2 (cdev_weight ti) i) as [w ->]; [|by eexists].
      apply Hl. by left.
    - intros j Hj. apply Hl. by right. }
  apply H; [by eexists|].
  intros i Hi. apply elem_of_seq in Hi. lia.
Qed.

(** ** The MAXIMUM formula of a virtual sensor *)

(** C9, at a failing input.  The first linked sensor is the literal
    "NAN" (skipped), the second reads -5 with coefficient 1: the running
    maximum is never set to [lowest()], because that is done at index 0
    only, and the result is 0 where the maximum of the contributing
    products is -5. *)
Theorem virtual_maximum_first_entry_skipped :
  virtual_sensor_value (platform_with {[ "s2" := "-5" ]})
                       (virtual_maximum ["NAN"; "s2"] [F32.of_Z 1; F32.of_Z 1])
  = F64.of_Z 0
  /\ F64.of_float (F32.mul (stof_int "-5") (F32.of_Z 1)) = F64.of_Z (-5).
Proof. split; reflexivity. Qed.

(** The same happens when the first linked sensor cannot be read. *)
Lemma virtual_maximum_first_entry_unreadable :
  virtual_sensor_value (platform_with {[ "s2" := "-5" ]})
                       (virtual_maximum ["s1"; "s2"] [F32.of_Z 1; F32.of_Z 1])
  = F64.of_Z 0.
Proof. reflexivity. Qed.

(** When the entry at index 0 contributes, the maximum is the true one:
    readings 40 and 90 with coefficients 1 and 0.5 give 45, and two
    negative products -7 and -5 give -5. *)
Lemma virtual_maximum_first_entry_read :
  virtual_sensor_value (platform_with {[ "s1" := "40"; "s2" := "90" ]})
    (virtual_maximum ["s1"; "s2"] [F32.of_Z 1; F32.div (F32.of_Z 1) (F32.of_Z 2)])
  = F64.of_Z 45
  /\ virtual_sensor_value (platform_with {[ "s1" := "-7"; "s2" := "-5" ]})
       (virtual_maximum ["s1"; "s2"] [F32.of_Z 1; F32.of_Z 1])
     = F64.of_Z (-5).
Proof. split; reflexivity. Qed.

(** ** The snapshot query fillCurrentTemperatures *)

(** A sensor of [sensor_info_map_] that has its status (as the constructor
    ensures) and whose file holds a text that [std::stof] converts is read
    without a failing [.at()] and without an exception. *)
Lemma readTemperature_defined (fs : Platform) (h : ThermalHelper)
    (name : string) (info : SensorInfo) :
  sensor_info_map_ h !! name = Some info ->
  (is_monitor info = true -> is_Some (sensor_status_map_ h !! name)) ->
  (forall data, readThermalFile fs name = Some data -> data <> "" ->
                stof_converts fs data = true) ->
  readTemperature fs h name false <> None.
Proof.
  intros Hinfo Hst Hnum. unfold readTemperature. cbn [negb mbind option_bind].
  destruct (readThermalFile fs name) as [temp|]; [|done].
  destruct (decide (temp = "")) as [->|Hne].
  { by rewrite bool_decide_eq_true_2. }
  rewrite bool_decide_eq_false_2 by done.
  rewrite Hinfo. cbn [mbind option_bind].
  rewrite (Hnum temp eq_refl Hne). cbn [negb].
  destruct (is_monitor info); [|done].
  destruct Hst as [st ->]; done.
Qed.

Section Snapshot.
Variable fs : Platform.
Variable h : ThermalHelper.
Variable filterType : bool.
Variable type : TemperatureType.

Local Abbreviation skipped p := (filterType && bool_decide (sensor_type (snd p) ≠ type)).

Lemma fill_loop_fails (sensors : list (string * SensorInfo))
    (ret : list Temperature_2_0) :
  (forall p, p ∈ sensors -> skipped p = false ->
             readTemperature fs h p.1 false <> None) ->
  (exists p, p ∈ sensors /\ skipped p = false
             /\ readTemperature fs h p.1 false = Some None) ->
  fill_temperatures_loop fs h filterType type sensors ret = Some None.
Proof.
  revert ret. induction sensors as [|a l IH]; intros ret Hdef (p & Hp & Hskip & Hfail).
  { by apply elem_of_nil in Hp. }
  cbn [fill_temperatures_loop]. fold (skipped a).
  assert (forall q, q ∈ l -> skipped q = false ->
                    readTemperature fs h q.1 false <> None) as Hdef'
    by (intros q Hq; apply Hdef; by right).
  apply elem_of_cons in Hp as [->|Hp].
  - rewrite Hskip, Hfail. reflexivity.
  - destruct (skipped a) eqn:Ha; [apply IH; eauto|].
    destruct (readTemperature fs h a.1 false) as [[[temp st]|]|] eqn:E.
    + cbn [mbind option_bind]. apply IH; eauto.
    + reflexivity.
    + exfalso. apply (Hdef a); [by left|exact Ha|exact E].
Qed.

Lemma fill_loop_succeeds (sensors : list (string * SensorInfo))
    (ret : list Temperature_2_0) :
  (forall p, p ∈ sensors -> skipped p = false ->
             exists r, readTemperature fs h p.1 false = Some (Some r)) ->
  exists ret',
    fill_temperatures_loop fs h filterType type sensors ret = Some (Some (ret ++ ret'))
    /\ forall temp,
        temp ∈ ret' <->
        exists p st, p ∈ sensors /\ skipped p = false
                     /\ readTemperature fs h p.1 false = Some (Some (temp, st)).
Proof.
  revert ret. induction sensors as [|a l IH]; intros ret Hread.
  { exists []. rewrite app_nil_r. split; [done|].
    intros temp. split; [by intros ?%elem_of_nil|].
    by intros (p & st & ?%elem_of_nil & _). }
  cbn [fill_temperatures_loop]. fold (skipped a).
  assert (forall p, p ∈ l -> skipped p = false ->
                    exists r, readTemperature fs h p.1 false = Some (Some r)) as Hread'
    by (intros q Hq; apply Hread; by right).
  destruct (skipped a) eqn:Hskip.
  - destruct (IH ret Hread') as (ret' & -> & Hret').
    exists ret'. split; [done|]. intros temp. rewrite Hret'.
    split; intros (p & st & Hp & Hs & Hr).
    + exists p, st. split; [by right|done].
    + apply elem_of_cons in Hp as [->|Hp]; [congruence|eauto].
  - destruct (Hread a) as ([temp0 st0] & E); [by left|done|].
    rewrite E. cbn [mbind option_bind].
    destruct (IH (ret ++ [temp0]) Hread') as (ret' & -> & Hret').
    exists (temp0 :: ret'). split; [by rewrite <- app_assoc|].
    intros temp. rewrite elem_of_cons, Hret'.
    split.
    + intros [->|(p & st & Hp & Hs & Hr)].
      * exists a, st0. split; [by left|done].
      * exists p, st. split; [by right|done].
    + intros (p & st & Hp & Hs & Hr).
      apply elem_of_cons in Hp as [->|Hp]; [left; congruence|right; eauto].
Qed.
End Snapshot.

(** C8 (amended). Provided every file read for a sensor that passes
    the type filter holds a text that [std::stof] converts,
    [fillCurrentTemperatures] is all or nothing.  As soon as the read of
    one sensor that passes the type filter fails, it returns false and
    leaves the caller's vector as it was, whatever the other sensors read;
    when every such sensor is read, the vector receives exactly their
    readings and the result is true iff there is at least one. *)
Theorem fill_temperatures_all_or_nothing
    (fs : Platform) (h : ThermalHelper) (filterType : bool) (type : TemperatureType)
    (temperatures : list Temperature_2_0) :
  (forall name info,
      sensor_info_map_ h !! name = Some info ->
      is_monitor info = true -> is_Some (sensor_status_map_ h !! name)) ->
  (forall name info data,
      sensor_info_map_ h !! name = Some info ->
      filterType && bool_decide (sensor_type info ≠ type) = false ->
      readThermalFile fs name = Some data -> data <> "" ->
      stof_converts fs data = true) ->
  ((exists name info,
       sensor_info_map_ h !! name = Some info
       /\ filterType && bool_decide (sensor_type info ≠ type) = false
       /\ readTemperature fs h name false = Some None) ->
   fillCurrentTemperatures fs h filterType type temperatures
   = Some (false, temperatures))
  /\
  ((forall name info,
       sensor_info_map_ h !! name = Some info ->
       filterType && bool_decide (sensor_type info ≠ type) = false ->
       readTemperature fs h name false <> Some None) ->
   exists ret,
     fillCurrentTemperatures fs h filterType type temperatures
     = Some (bool_decide (0 < length ret)%nat, ret)
     /\ forall temp,
         temp ∈ ret <->
         exists name info st,
           sensor_info_map_ h !! name = Some info
           /\ filterType && bool_decide (sensor_type info ≠ type) = false
           /\ readTemperature fs h name false = Some (Some (temp, st))).
Proof.
  intros Hstatus Hnum.
  assert (forall p, p ∈ map_to_list (sensor_info_map_ h) ->
                    filterType && bool_decide (sensor_type p.2 ≠ type) = false ->
                    readTemperature fs h p.1 false <> None) as Hdef.
  { intros [name info] Hp Hsel. apply elem_of_map_to_list in Hp.
    apply (readTemperature_defined fs h name info); [done|by apply Hstatus|].
    intros data. by apply (Hnum name info). }
  split.
  - intros (name & info & Hinfo & Hskip & Hfail).
    unfold fillCurrentTemperatures.
    rewrite (fill_loop_fails fs h filterType type); [done|exact Hdef|].
    exists (name, info). split; [by apply elem_of_map_to_list|done].
  - intros Hread. unfold fillCurrentTemperatures.
    destruct (fill_loop_succeeds fs h filterType type
                (map_to_list (sensor_info_map_ h)) []) as (ret & -> & Hret).
    { intros [name info] Hp Hskip.
      pose proof Hp as Hinfo. apply elem_of_map_to_list in Hinfo.
      destruct (readTemperature fs h name false) as [[r|]|] eqn:E.
      - by exists r.
      - by destruct (Hread name info Hinfo Hskip).
      - by destruct (Hdef _ Hp Hskip). }
    exists ret. split; [done|].
    intros temp. rewrite Hret. split.
    + intros ([name info] & st & Hp & Hskip & Hr).
      exists name, info, st. by apply elem_of_map_to_list in Hp.
    + intros (name & info & st & Hinfo & Hskip & Hr).
      exists (name, info), st. by apply elem_of_map_to_list in Hinfo.
Qed.

(** The files of a table whose texts all start with a number convert. *)
Lemma platform_files_convert (files : gmap string string) (name data : string) :
  map_Forall (fun _ data => data <> "" -> stof_int_converts data = true) files ->
  readThermalFile (platform_with files) name = Some data -> data <> "" ->
  stof_converts (platform_with files) data = true.
Proof. intros Hall Hread. by apply (map_Forall_lookup_1 _ _ name data) in Hall. Qed.

Lemma two_sensor_helper_status name info :
  sensor_info_map_ two_sensor_helper !! name = Some info ->
  is_monitor info = true -> is_Some (sensor_status_map_ two_sensor_helper !! name).
Proof.
  intros Hinfo.
  apply (map_Forall_lookup_1
           (fun name info =>
              is_monitor info = true ->
              is_Some (sensor_status_map_ two_sensor_helper !! name))
           (sensor_info_map_ two_sensor_helper) name info); [|exact Hinfo].
  compute_done.
Qed.

(** With "B" unreadable the query fails and the vector stays empty; with
    both sensors readable it returns their two readings. *)
Lemma fill_temperatures_all_or_nothing_witness :
  fillCurrentTemperatures (platform_with {[ "A" := "70" ]})
                          two_sensor_helper false SKIN []
  = Some (false, [])
  /\ exists ret,
      fillCurrentTemperatures (platform_with {[ "A" := "70"; "B" := "50" ]})
                              two_sensor_helper false SKIN []
      = Some (bool_decide (0 < length ret)%nat, ret)
      /\ forall temp,
          temp ∈ ret <->
          exists name info st,
            sensor_info_map_ two_sensor_helper !! name = Some info
            /\ false && bool_decide (sensor_type info ≠ SKIN) = false
            /\ readTemperature (platform_with {[ "A" := "70"; "B" := "50" ]})
                               two_sensor_helper name false
               = Some (Some (temp, st)).
Proof.
  split.
  - apply (proj1 (fill_temperatures_all_or_nothing
                    (platform_with {[ "A" := "70" ]}) two_sensor_helper
                    false SKIN [] two_sensor_helper_status
                    ltac:(intros name info data _ _;
                          apply platform_files_convert; compute_done))).
    exists "B", (sensor_with limit_throttling).
    split; [reflexivity|]. split; reflexivity.
  - apply (proj2 (fill_temperatures_all_or_nothing
                    (platform_with {[ "A" := "70"; "B" := "50" ]}) two_sensor_helper
                    false SKIN [] two_sensor_helper_status
                    ltac:(intros name info data _ _;
                          apply platform_files_convert; compute_done))).
    assert (map_Forall
              (fun name (_ : SensorInfo) =>
                 match readTemperature (platform_with {[ "A" := "70"; "B" := "50" ]})
                                       two_sensor_helper name false with
                 | Some None => false
                 | _ => true
                 end = true)
              (sensor_info_map_ two_sensor_helper)) as Hall
      by compute_done.
    intros name info Hinfo _ E.
    apply (map_Forall_lookup_1 _ _ name info) in Hall; [|exact Hinfo].
    cbv beta in Hall. rewrite E in Hall. discriminate Hall.
Defined.

(** C8 as stated fails: "A" is readable (70, SEVERE) and "B" is not;
    the query reports failure and the output vector holds no reading. *)
Lemma fill_temperatures_counterexample :
  (exists r, readTemperature (platform_with {[ "A" := "70" ]})
                             two_sensor_helper "A" false = Some (Some r))
  /\ fillCurrentTemperatures (platform_with {[ "A" := "70" ]})
                             two_sensor_helper false SKIN []
     = Some (false, []).
Proof. split; [eexists|]; vm_compute; reflexivity. Qed.

(** ** The aggregation of requests *)

Lemma foldl_None {A B} (f : option A -> B -> option A) (l : list B) :
  (forall b, f None b = None) -> foldl f None l = None.
Proof. intros Hf. induction l as [|b l IH]; [done|]. cbn. by rewrite Hf. Qed.

(** The request computed in the aggregation is the sensor's own request. *)
Lemma aggregate_request_state (st : SensorStatus) (cdev : string) (pid_max limit_max : Z) :
  (if bool_decide (size (pid_request_map st) ≠ 0%nat)
   then pid_request_map st !! cdev else Some 0) = Some pid_max ->
  (if bool_decide (size (hard_limit_request_map st) ≠ 0%nat)
   then hard_limit_request_map st !! cdev else Some 0) = Some limit_max ->
  Z.max pid_max limit_max = sensor_request st cdev.
Proof.
  intros Hp Hl. unfold sensor_request.
  assert (forall (m : gmap string Z) (v : Z),
             (if bool_decide (size m ≠ 0%nat) then m !! cdev else Some 0) = Some v ->
             default 0 (m !! cdev) = v) as H.
  { intros m v. destruct (decide (size m ≠ 0%nat)) as [Hs|Hs].
    - rewrite bool_decide_eq_true_2 by done. by intros ->.
    - rewrite bool_decide_eq_false_2 by done.
      apply dec_stable in Hs. apply map_size_empty_inv in Hs.
      rewrite Hs, lookup_empty. by intros [= <-]. }
  by rewrite (H _ _ Hp), (H _ _ Hl).
Qed.

(** One step of the aggregation, when it is defined. *)
Lemma aggregate_step_Some name st cm to_update cdev cm' to_update' :
  aggregate_step name st (Some (cm, to_update)) cdev = Some (cm', to_update') ->
  exists requests current,
    cm !! cdev = Some requests
    /\ requests !! name = Some current
    /\ ((current = sensor_request st cdev /\ cm' = cm /\ to_update' = to_update)
        \/ (current <> sensor_request st cdev
            /\ cm' = <[cdev := <[name := sensor_request st cdev]> requests]> cm
            /\ to_update' = to_update ++ [cdev])).
Proof.
  unfold aggregate_step. cbn [mbind option_bind].
  destruct (cm !! cdev) as [requests|]; [|done]. cbn [mbind option_bind].
  destruct (if bool_decide (size (pid_request_map st) ≠ 0%nat)
            then pid_request_map st !! cdev else Some 0) as [pid_max|] eqn:Hp; [|done].
  cbn [mbind option_bind].
  destruct (if bool_decide (size (hard_limit_request_map st) ≠ 0%nat)
            then hard_limit_request_map st !! cdev else Some 0)
    as [limit_max|] eqn:Hl; [|done].
  cbn [mbind option_bind].
  rewrite (aggregate_request_state st cdev pid_max limit_max Hp Hl).
  destruct (requests !! name) as [current|] eqn:Hcur; cbn [mbind option_bind]; [|done].
  intros H. exists requests, current. split; [done|]. split; [done|].
  destruct (decide (current = sensor_request st cdev)) as [E|E].
  - rewrite bool_decide_eq_false_2 in H by (by intros ?).
    injection H as <- <-. by left.
  - rewrite bool_decide_eq_true_2 in H by done.
    injection H as <- <-. by right.
Qed.

Lemma recorded_request_insert cm cdev requests name v c n :
  cm !! cdev = Some requests ->
  recorded_request (<[cdev := <[name := v]> requests]> cm) c n
  = if bool_decide (c = cdev /\ n = name) then Some v else recorded_request cm c n.
Proof.
  intros Hc. unfold recorded_request.
  destruct (decide (c = cdev)) as [->|Hne].
  - rewrite lookup_insert_eq, Hc. cbn.
    destruct (decide (n = name)) as [->|Hn].
    + rewrite lookup_insert_eq. by rewrite bool_decide_eq_true_2.
    + rewrite lookup_insert_ne by done.
      rewrite bool_decide_eq_false_2; [done|]. by intros [_ ?].
  - rewrite lookup_insert_ne by done.
    rewrite bool_decide_eq_false_2; [done|]. by intros [? _].
Qed.

Lemma aggregate_step_spec name st cm to_update cdev cm' to_update' :
  aggregate_step name st (Some (cm, to_update)) cdev = Some (cm', to_update') ->
  exists current,
    recorded_request cm cdev name = Some current
    /\ (forall c n,
           recorded_request cm' c n
           = if bool_decide (c = cdev /\ n = name)
             then Some (sensor_request st cdev) else recorded_request cm c n)
    /\ (forall c, is_Some (cm' !! c) <-> is_Some (cm !! c))
    /\ to_update' = to_update ++ (if bool_decide (current = sensor_request st cdev)
                                  then [] else [cdev]).
Proof.
  intros H.
  destruct (aggregate_step_Some _ _ _ _ _ _ _ H)
    as (requests & current & Hc & Hn & [(E & -> & ->)|(E & -> & ->)]);
    exists current.
  - split; [unfold recorded_request; by rewrite Hc|].
    split; [|split; [done|]].
    + intros c n.
      destruct (decide (c = cdev /\ n = name)) as [[-> ->]|Hcn].
      * rewrite bool_decide_eq_true_2 by done.
        unfold recorded_request. rewrite Hc. cbn. by rewrite Hn, E.
      * by rewrite bool_decide_eq_false_2.
    + rewrite bool_decide_eq_true_2 by done. by rewrite app_nil_r.
  - split; [unfold recorded_request; by rewrite Hc|].
    split; [|split].
    + intros c n. by apply recorded_request_insert.
    + intros c. destruct (decide (c = cdev)) as [->|Hne].
      * rewrite lookup_insert_eq, Hc. split; by eexists.
      * by rewrite lookup_insert_ne.
    + by rewrite bool_decide_eq_false_2.
Qed.

(** The whole aggregation loop for one sensor, over the keys of the map. *)
Lemma aggregate_fold name st (cdevs : list string) cm0 upd0 cm1 upd1 :
  NoDup cdevs ->
  foldl (aggregate_step name st) (Some (cm0, upd0)) cdevs = Some (cm1, upd1) ->
  (forall c, c ∈ cdevs -> recorded_request cm1 c name = Some (sensor_request st c))
  /\ (forall c n, n <> name -> recorded_request cm1 c n = recorded_request cm0 c n)
  /\ (forall c n, c ∉ cdevs -> recorded_request cm1 c n = recorded_request cm0 c n)
  /\ (forall c, is_Some (cm1 !! c) <-> is_Some (cm0 !! c))
  /\ (forall c n, is_Some (recorded_request cm1 c n)
                  <-> is_Some (recorded_request cm0 c n))
  /\ exists new,
      upd1 = upd0 ++ new
      /\ forall c, c ∈ new ->
                   recorded_request cm1 c name <> recorded_request cm0 c name.
Proof.
  intros Hnodup. revert cm0 upd0.
  induction cdevs as [|cdev l IH]; intros cm0 upd0 Hfold.
  { injection Hfold as <- <-. repeat split; try done.
    - by intros c ?%elem_of_nil.
    - exists []. rewrite app_nil_r. split; [done|]. by intros c ?%elem_of_nil. }
  cbn [foldl] in Hfold.
  destruct (aggregate_step name st (Some (cm0, upd0)) cdev) as [[cm upd]|] eqn:Hstep;
    [|by rewrite foldl_None in Hfold].
  apply NoDup_cons in Hnodup as [Hnotin Hnodup].
  destruct (aggregate_step_spec _ _ _ _ _ _ _ Hstep) as (current & Hcur & Hrec & Hdom & ->).
  destruct (IH Hnodup _ _ Hfold) as (IHa & IHb & IHc & IHd & IHe & new & -> & IHnew).
  split; [|split; [|split; [|split; [|split]]]].
  - intros c [->|Hc]%elem_of_cons.
    + rewrite IHc, Hrec by done. by rewrite bool_decide_eq_true_2.
    + by apply IHa.
  - intros c n Hn. rewrite IHb, Hrec by done.
    rewrite bool_decide_eq_false_2; [done|]. by intros [_ ?].
  - intros c n Hc. apply not_elem_of_cons in Hc as [Hne Hc].
    rewrite IHc, Hrec by done.
    rewrite bool_decide_eq_false_2; [done|]. by intros [? _].
  - intros c. by rewrite IHd, Hdom.
  - intros c n. rewrite IHe, Hrec.
    destruct (decide (c = cdev /\ n = name)) as [[-> ->]|Hcn].
    + rewrite bool_decide_eq_true_2 by done. rewrite Hcur. split; by eexists.
    + by rewrite bool_decide_eq_false_2.
  - eexists. split; [by rewrite <- app_assoc|].
    intros c [Hc|Hc]%elem_of_app.
    + destruct (decide (current = sensor_request st cdev)) as [Hcur'|Hcur'].
      { rewrite bool_decide_eq_true_2 in Hc by done. by apply elem_of_nil in Hc. }
      rewrite bool_decide_eq_false_2 in Hc by done.
      apply list_elem_of_singleton in Hc as ->.
      rewrite IHc, Hrec, Hcur by done.
      rewrite bool_decide_eq_true_2 by done. congruence.
    + intros E. apply (IHnew c Hc). rewrite E, Hrec.
      rewrite bool_decide_eq_false_2; [done|].
      intros [-> _]. apply (IHnew cdev Hc).
      rewrite IHc by done. reflexivity.
Qed.

Lemma elem_of_map_keys {A} (m : gmap string A) (c : string) :
  c ∈ (map_to_list m).*1 <-> is_Some (m !! c).
Proof.
  rewrite list_elem_of_fmap. split.
  - intros ([c' x] & -> & Hin). apply elem_of_map_to_list in Hin. by eexists.
  - intros [x Hx]. exists (c, x). split; [done|]. by apply elem_of_map_to_list.
Qed.

(** ** What the PID and hard-limit steps leave in place *)

Lemma pidPowerCalculator_maps temp sensor_info st time_elapsed_ms :
  pid_request_map (pidPowerCalculator temp sensor_info st time_elapsed_ms).2
  = pid_request_map st
  /\ hard_limit_request_map (pidPowerCalculator temp sensor_info st time_elapsed_ms).2
     = hard_limit_request_map st.
Proof.
  unfold pidPowerCalculator.
  repeat match goal with
         | |- context [if ?b then _ else _] => destruct b
         end; split; reflexivity.
Qed.

Lemma request_cdev_fold cdev_info ti budget weight (l : list nat) (m m' : gmap string Z) :
  foldl (request_cdev_step cdev_info ti budget weight) (Some m) l = Some m' ->
  forall c, is_Some (m' !! c) <-> is_Some (m !! c).
Proof.
  revert m. induction l as [|i l IH]; intros m Hfold c.
  { by injection Hfold as <-. }
  cbn [foldl] in Hfold.
  destruct (request_cdev_step cdev_info ti budget weight (Some m) i) as [m1|] eqn:Hstep;
    [|by rewrite foldl_None in Hfold].
  rewrite (IH _ Hfold). revert Hstep. unfold request_cdev_step.
  cbn [mbind option_bind].
  destruct (cdev_request ti !! i) as [name|]; cbn [mbind option_bind]; [|done].
  destruct (bool_decide (name ≠ "")); [|by intros [= <-]].
  destruct (cdev_weight ti !! i) as [w|]; cbn [mbind option_bind]; [|done].
  destruct (cdev_info !! name) as [info|]; cbn [mbind option_bind]; [|done].
  destruct (power2state_index _ _) as [j|]; cbn [mbind option_bind]; [|done].
  destruct (m !! name) as [old|] eqn:Hold; cbn [mbind option_bind]; [|done].
  intros [= <-]. destruct (decide (c = name)) as [->|Hne].
  - rewrite lookup_insert_eq, Hold. split; by eexists.
  - by rewrite lookup_insert_ne.
Qed.

Lemma requestCdevByPower_maps cdev_info st sensor_info budget ok st' :
  requestCdevByPower cdev_info st sensor_info budget = Some (ok, st') ->
  hard_limit_request_map st' = hard_limit_request_map st
  /\ forall c, is_Some (pid_request_map st' !! c) <-> is_Some (pid_request_map st !! c).
Proof.
  unfold requestCdevByPower.
  destruct (total_weight_of _) as [w|]; cbn [mbind option_bind]; [|done].
  destruct (is_zero w); [by intros [= <- <-]|].
  destruct (foldl _ _ _) as [m|] eqn:Hfold; cbn [mbind option_bind]; [|done].
  intros [= <- <-]. split; [done|]. cbn [pid_request_map set_pid_request_map].
  by apply (request_cdev_fold _ _ _ _ _ _ _ Hfold).
Qed.

Lemma requestCdevBySeverity_maps st sensor_info st' :
  requestCdevBySeverity st sensor_info = Some st' ->
  pid_request_map st' = pid_request_map st
  /\ forall c, is_Some (hard_limit_request_map st' !! c)
               <-> is_Some (hard_limit_request_map st !! c).
Proof.
  unfold requestCdevBySeverity.
  generalize (hard_limit_target_loop (throttle_type (throttling_info sensor_info))
                                     (severity st) severities_high_to_low).
  intros target.
  generalize (map_to_list (limit_info (throttling_info sensor_info))).
  generalize (hard_limit_request_map st).
  intros m l.
  destruct (foldl _ _ _) as [m'|] eqn:Hfold; cbn [mbind option_bind]; [|done].
  intros [= <-]. split; [done|]. cbn [hard_limit_request_map set_hard_limit_request_map].
  revert m Hfold. induction l as [|[cdev states] l IH]; intros m Hfold c.
  { by injection Hfold as <-. }
  cbn [foldl mbind option_bind fst snd] in Hfold.
  destruct (m !! cdev) as [old|] eqn:Hold; cbn [mbind option_bind] in Hfold;
    [|by rewrite foldl_None in Hfold].
  rewrite (IH _ Hfold). destruct (decide (c = cdev)) as [->|Hne].
  - rewrite lookup_insert_eq, Hold. split; by eexists.
  - by rewrite lookup_insert_ne.
Qed.

Lemma size_zero_iff (m m' : gmap string Z) :
  (forall c, is_Some (m' !! c) <-> is_Some (m !! c)) ->
  size m' = 0%nat <-> size m = 0%nat.
Proof.
  intros Hdom.
  destruct (decide (size m = 0%nat)) as [E|E], (decide (size m' = 0%nat)) as [E'|E'];
    try done; exfalso.
  - apply map_size_ne_0_lookup in E' as [c Hc]. apply Hdom in Hc.
    apply map_size_empty_inv in E. rewrite E, lookup_empty in Hc. by destruct Hc.
  - apply map_size_ne_0_lookup in E as [c Hc]. apply Hdom in Hc.
    apply map_size_empty_inv in E'. rewrite E', lookup_empty in Hc. by destruct Hc.
Qed.

(** The PID stage of the loop body. *)
Lemma pid_stage h sensor_info st temp time_elapsed_ms st1 :
  (if bool_decide (size (pid_request_map st) ≠ 0%nat) then
     let '(power_budget, sensor_status) :=
       pidPowerCalculator temp sensor_info st time_elapsed_ms in
     r ← requestCdevByPower (cooling_device_info_map_ h) sensor_status
                            sensor_info power_budget;
     Some r.2
   else Some st) = Some st1 ->
  hard_limit_request_map st1 = hard_limit_request_map st
  /\ (forall c, is_Some (pid_request_map st1 !! c) <-> is_Some (pid_request_map st !! c))
  /\ (size (pid_request_map st) = 0%nat -> st1 = st).
Proof.
  destruct (decide (size (pid_request_map st) ≠ 0%nat)) as [Hs|Hs].
  - rewrite bool_decide_eq_true_2 by done.
    destruct (pidPowerCalculator_maps temp sensor_info st time_elapsed_ms) as [Hp Hl].
    destruct (pidPowerCalculator temp sensor_info st time_elapsed_ms) as [budget stp].
    cbn [snd] in Hp, Hl.
    destruct (requestCdevByPower _ _ _ _) as [[ok st']|] eqn:Hreq;
      cbn [mbind option_bind]; [|done].
    intros [= <-]. cbn [snd].
    destruct (requestCdevByPower_maps _ _ _ _ _ _ Hreq) as [Hl' Hp'].
    split; [congruence|]. split; [|done].
    intros c. by rewrite Hp', Hp.
  - rewrite bool_decide_eq_false_2 by done. intros [= <-].
    split; [done|]. split; done.
Qed.

(** The hard-limit stage of the loop body. *)
Lemma limit_stage sensor_info st st1 :
  (if bool_decide (size (hard_limit_request_map st) ≠ 0%nat)
   then requestCdevBySeverity st sensor_info else Some st) = Some st1 ->
  pid_request_map st1 = pid_request_map st
  /\ (forall c, is_Some (hard_limit_request_map st1 !! c)
                <-> is_Some (hard_limit_request_map st !! c))
  /\ (size (hard_limit_request_map st) = 0%nat -> st1 = st).
Proof.
  destruct (decide (size (hard_limit_request_map st) ≠ 0%nat)) as [Hs|Hs].
  - rewrite bool_decide_eq_true_2 by done. intros Hreq.
    destruct (requestCdevBySeverity_maps _ _ _ Hreq) as [Hp Hl].
    split; [done|]. split; done.
  - rewrite bool_decide_eq_false_2 by done. intros [= <-].
    split; [done|]. split; done.
Qed.

Lemma throttle_sensor_spec h name sensor_info st temp time_elapsed_ms upd st' cm' upd' :
  throttle_sensor h name sensor_info st temp time_elapsed_ms upd = Some (st', cm', upd') ->
  ((forall c, is_Some (cdev_status_map_ h !! c) ->
              default 0 (recorded_request (cdev_status_map_ h) c name)
              = sensor_request st c) ->
   forall c, is_Some (cm' !! c) ->
             default 0 (recorded_request cm' c name) = sensor_request st' c)
  /\ (forall c n, n <> name ->
                  recorded_request cm' c n = recorded_request (cdev_status_map_ h) c n)
  /\ (forall c, is_Some (cm' !! c) <-> is_Some (cdev_status_map_ h !! c))
  /\ (forall c n, is_Some (recorded_request cm' c n)
                  <-> is_Some (recorded_request (cdev_status_map_ h) c n))
  /\ exists new,
      upd' = upd ++ new
      /\ forall c, c ∈ new ->
                   recorded_request cm' c name
                   <> recorded_request (cdev_status_map_ h) c name.
Proof.
  unfold throttle_sensor.
  destruct (if bool_decide (size (pid_request_map st) ≠ 0%nat) then _ else _)
    as [st1|] eqn:Hpid; cbn [mbind option_bind]; [|done].
  apply pid_stage in Hpid as (Hl1 & Hp1 & Hsame1).
  destruct (if bool_decide (size (hard_limit_request_map st1) ≠ 0%nat) then _ else _)
    as [st2|] eqn:Hlim; cbn [mbind option_bind]; [|done].
  apply limit_stage in Hlim as (Hp2 & Hl2 & Hsame2).
  destruct (decide (size (pid_request_map st2) ≠ 0%nat
                    \/ size (hard_limit_request_map st2) ≠ 0%nat)) as [Hs|Hs].
  - replace (bool_decide (size (pid_request_map st2) ≠ 0%nat)
             || bool_decide (size (hard_limit_request_map st2) ≠ 0%nat)) with true.
    2:{ symmetry. apply orb_true_iff.
        destruct Hs; [left|right]; by apply bool_decide_eq_true_2. }
    unfold aggregate_requests.
    destruct (foldl _ _ _) as [[cm1 upd1]|] eqn:Hfold; cbn [mbind option_bind]; [|done].
    intros [= <- <- <-].
    destruct (aggregate_fold _ _ _ _ _ _ _ (NoDup_fst_map_to_list _) Hfold)
      as (Ha & Hb & _ & Hd & He & Hnew).
    split; [|split; [|split; [|split]]]; try done.
    intros _ c Hc. rewrite Ha; [done|]. apply elem_of_map_keys. by apply Hd.
  - replace (bool_decide (size (pid_request_map st2) ≠ 0%nat)
             || bool_decide (size (hard_limit_request_map st2) ≠ 0%nat)) with false.
    2:{ symmetry. apply orb_false_iff.
        split; apply bool_decide_eq_false_2; intros ?; apply Hs; auto. }
    cbn [mbind option_bind]. intros [= <- <- <-].
    assert (size (pid_request_map st2) = 0%nat) as Hp0
      by (destruct (decide (size (pid_request_map st2) = 0%nat)); [done|];
          exfalso; apply Hs; by left).
    assert (size (hard_limit_request_map st2) = 0%nat) as Hl0
      by (destruct (decide (size (hard_limit_request_map st2) = 0%nat)); [done|];
          exfalso; apply Hs; by right).
    assert (st1 = st) as ->.
    { apply Hsame1. rewrite Hp2 in Hp0. by apply (size_zero_iff _ _ Hp1). }
    assert (st2 = st) as ->.
    { apply Hsame2. by apply (size_zero_iff _ _ Hl2). }
    split; [done|]. split; [done|]. split; [done|]. split; [done|].
    exists []. rewrite app_nil_r. split; [done|]. by intros c ?%elem_of_nil.
Qed.

(** ** The invariant of the control loop *)

Lemma requests_in_sync_iff (h : ThermalHelper) :
  requests_in_sync h <->
  (forall c name st,
      is_Some (cdev_status_map_ h !! c) ->
      sensor_status_map_ h !! name = Some st ->
      default 0 (recorded_request (cdev_status_map_ h) c name) = sensor_request st c)
  /\ (forall c name,
         is_Some (recorded_request (cdev_status_map_ h) c name) ->
         is_Some (sensor_status_map_ h !! name)).
Proof.
  unfold requests_in_sync, recorded_request. rewrite map_Forall_lookup. split.
  - intros H. split.
    + intros c name st [requests Hc] Hst. rewrite Hc. cbn.
      destruct (H c requests Hc) as [H1 _].
      by apply (map_Forall_lookup_1 _ _ name st) in H1.
    + intros c name. destruct (cdev_status_map_ h !! c) as [requests|] eqn:Hc;
        cbn; [|by intros []].
      intros [v Hv]. destruct (H c requests Hc) as [_ H2].
      by apply (map_Forall_lookup_1 _ _ name v) in H2.
  - intros [H1 H2] c requests Hc. split; apply map_Forall_lookup.
    + intros name st Hst. specialize (H1 c name st (mk_is_Some _ _ Hc) Hst).
      by rewrite Hc in H1.
    + intros name v Hv. apply (H2 c name). rewrite Hc. cbn. by eexists.
Qed.

Lemma sensor_request_set_severities st sev hot cold c :
  sensor_request (set_severities st sev hot cold) c = sensor_request st c.
Proof. reflexivity. Qed.

Lemma sensor_request_set_last_update_time st t c :
  sensor_request (set_last_update_time st t) c = sensor_request st c.
Proof. reflexivity. Qed.

(** One sensor's iteration keeps the invariant, touches no other
    sensor's record, and lists a cooling device only when the sensor's
    record for it changed. *)
Lemma watch_sensor_spec fs now uevent_sensors h loc name h' loc' :
  watch_sensor fs now uevent_sensors (Some (h, loc)) name = Some (h', loc') ->
  (requests_in_sync h -> requests_in_sync h')
  /\ (forall c n, n <> name ->
                  recorded_request (cdev_status_map_ h') c n
                  = recorded_request (cdev_status_map_ h) c n)
  /\ exists new,
      cooling_devices_to_update loc' = cooling_devices_to_update loc ++ new
      /\ forall c, c ∈ new ->
                   recorded_request (cdev_status_map_ h') c name
                   <> recorded_request (cdev_status_map_ h) c name.
Proof.
  assert (forall h0 loc0, h' = h0 -> loc' = loc0 ->
            cooling_devices_to_update loc0 = cooling_devices_to_update loc ->
            cdev_status_map_ h0 = cdev_status_map_ h ->
            (requests_in_sync h -> requests_in_sync h0) ->
            (requests_in_sync h -> requests_in_sync h')
            /\ (forall c n, n <> name ->
                            recorded_request (cdev_status_map_ h') c n
                            = recorded_request (cdev_status_map_ h) c n)
            /\ exists new,
                cooling_devices_to_update loc' = cooling_devices_to_update loc ++ new
                /\ forall c, c ∈ new ->
                             recorded_request (cdev_status_map_ h') c name
                             <> recorded_request (cdev_status_map_ h) c name) as Hskip.
  { intros h0 loc0 -> -> Hupd Hcm Hsync. split; [done|]. split.
    - intros c n _. by rewrite Hcm.
    - exists []. rewrite app_nil_r. split; [done|]. by intros c ?%elem_of_nil. }
  unfold watch_sensor. cbn [mbind option_bind].
  destruct (sensor_status_map_ h !! name) as [st|] eqn:Hst; cbn [mbind option_bind]; [|done].
  destruct (sensor_info_map_ h !! name) as [info|] eqn:Hinfo; cbn [mbind option_bind]; [|done].
  destruct (negb (is_monitor info)); [intros [= <- <-]; by eapply Hskip|].
  destruct (_ && _); [intros [= <- <-]; by eapply Hskip|].
  destruct (readTemperature fs h name (is_virtual_sensor info))
    as [[[temp status]|]|]; cbn [mbind option_bind]; [| |done].
  2:{ intros [= <- <-]; by eapply Hskip. }
  destruct (throttle_sensor _ _ _ _ _ _ _) as [[[st2 cm2] upd2]|] eqn:Hthr;
    cbn [mbind option_bind]; [|done].
  intros [= <- <-].
  cbn [cdev_status_map_ sensor_status_map_ set_status_maps cooling_devices_to_update].
  destruct (throttle_sensor_spec _ _ _ _ _ _ _ _ _ _ Hthr) as (T1 & T2 & T3 & T4 & T5).
  split; [|split; [exact T2|exact T5]].
  rewrite !requests_in_sync_iff.
  cbn [cdev_status_map_ sensor_status_map_ set_status_maps].
  intros [S1 S2]. split.
  - intros c n stn Hc.
    destruct (decide (n = name)) as [->|Hne].
    + rewrite lookup_insert_eq. intros [= <-].
      rewrite sensor_request_set_last_update_time.
      apply T1; [|exact Hc].
      intros c' Hc'. rewrite sensor_request_set_severities. by apply S1.
    + rewrite lookup_insert_ne by done. intros Hn.
      rewrite T2 by done. apply S1; [|done]. by apply T3.
  - intros c n Hn. apply T4, S2 in Hn.
    destruct (decide (n = name)) as [->|Hne].
    + rewrite lookup_insert_eq. by eexists.
    + by rewrite lookup_insert_ne.
Qed.

(** The loop over the sensors, each visited once. *)
Lemma watch_fold fs now uevent_sensors (names : list string) h0 loc0 h1 loc1 :
  NoDup names ->
  foldl (watch_sensor fs now uevent_sensors) (Some (h0, loc0)) names = Some (h1, loc1) ->
  (requests_in_sync h0 -> requests_in_sync h1)
  /\ (forall c n, n ∉ names ->
                  recorded_request (cdev_status_map_ h1) c n
                  = recorded_request (cdev_status_map_ h0) c n)
  /\ exists new,
      cooling_devices_to_update loc1 = cooling_devices_to_update loc0 ++ new
      /\ forall c, c ∈ new ->
                   exists n, recorded_request (cdev_status_map_ h1) c n
                             <> recorded_request (cdev_status_map_ h0) c n.
Proof.
  intros Hnodup. revert h0 loc0.
  induction names as [|name l IH]; intros h0 loc0 Hfold.
  { injection Hfold as <- <-. split; [done|]. split; [done|].
    exists []. rewrite app_nil_r. split; [done|]. by intros c ?%elem_of_nil. }
  cbn [foldl] in Hfold.
  destruct (watch_sensor fs now uevent_sensors (Some (h0, loc0)) name)
    as [[h loc]|] eqn:Hstep; [|by rewrite foldl_None in Hfold].
  apply NoDup_cons in Hnodup as [Hnotin Hnodup].
  destruct (watch_sensor_spec _ _ _ _ _ _ _ _ Hstep) as (W1 & W2 & new0 & Hupd0 & Hnew0).
  destruct (IH Hnodup _ _ Hfold) as (I1 & I2 & new & Hupd & Hnew).
  split; [auto|]. split.
  - intros c n Hn. apply not_elem_of_cons in Hn as [Hne Hn].
    rewrite I2 by done. by apply W2.
  - exists (new0 ++ new). split; [by rewrite Hupd, Hupd0, app_assoc|].
    intros c [Hc|Hc]%elem_of_app.
    + exists name. rewrite I2 by done. by apply Hnew0.
    + destruct (Hnew c Hc) as [n Hn].
      destruct (decide (n = name)) as [->|Hne].
      * exfalso. apply Hn. by apply I2.
      * exists n. by rewrite <- (W2 c n Hne).
Qed.

(** ** The state written to a cooling device *)

(** [max_state_of] is the maximum of the recorded requests, floored at 0. *)
Lemma max_state_of_spec (requests : gmap string Z) :
  0 <= max_state_of requests
  /\ (forall name v, requests !! name = Some v -> v <= max_state_of requests)
  /\ (max_state_of requests = 0
      \/ exists name, requests !! name = Some (max_state_of requests)).
Proof.
  unfold max_state_of.
  assert (forall (l : list (string * Z)) (acc : Z),
             let m := foldl (fun max_state (p : string * Z) =>
                               if bool_decide (p.2 > max_state) then p.2 else max_state)
                            acc l in
             acc <= m
             /\ (forall p, p ∈ l -> p.2 <= m)
             /\ (m = acc \/ exists p, p ∈ l /\ p.2 = m)) as H.
  { induction l as [|p l IH]; intros acc; cbn [foldl].
    { split; [lia|]. split; [by intros p ?%elem_of_nil|by left]. }
    destruct (IH (if bool_decide (p.2 > acc) then p.2 else acc)) as (I1 & I2 & I3).
    cbv zeta. split; [|split].
    - case_bool_decide; lia.
    - intros q [->|Hq]%elem_of_cons; [|by apply I2]. case_bool_decide; lia.
    - destruct I3 as [I3|(q & Hq & I3)].
      + case_bool_decide; [right; exists p; split; [by left|done]|by left].
      + right. exists q. split; [by right|done]. }
  destruct (H (map_to_list requests) 0) as (H1 & H2 & H3). split; [done|]. split.
  - intros name v Hv. by apply (H2 (name, v)), elem_of_map_to_list.
  - destruct H3 as [H3|([name v] & Hp & H3)]; [by left|right].
    exists name. apply elem_of_map_to_list in Hp. cbn in H3. by rewrite <- H3.
Qed.

Lemma updateCoolingDevices_spec cm updated_cdev written cdev state :
  updateCoolingDevices cm updated_cdev = Some written ->
  (cdev, state) ∈ written ->
  cdev ∈ updated_cdev
  /\ exists requests, cm !! cdev = Some requests /\ state = max_state_of requests.
Proof.
  unfold updateCoolingDevices.
  assert (forall (l : list string) (w0 w : list (string * Z)),
             foldl (fun acc target_cdev =>
                      written ← acc;
                      cdev_status ← cm !! target_cdev;
                      Some (writeCdevFile written target_cdev
                                          (max_state_of cdev_status)))
                   (Some w0) l = Some w ->
             (cdev, state) ∈ w ->
             (cdev, state) ∈ w0
             \/ (cdev ∈ l
                 /\ exists requests,
                     cm !! cdev = Some requests /\ state = max_state_of requests)) as H.
  { induction l as [|target l IH]; intros w0 w Hfold Hin.
    { injection Hfold as <-. by left. }
    cbn [foldl mbind option_bind] in Hfold.
    destruct (cm !! target) as [requests|] eqn:Hc; cbn [mbind option_bind] in Hfold;
      [|by rewrite foldl_None in Hfold].
    destruct (IH _ _ Hfold Hin) as [Hw|[Hl Hr]].
    - unfold writeCdevFile in Hw. apply elem_of_app in Hw as [Hw|Hw]; [by left|].
      apply list_elem_of_singleton in Hw. injection Hw as -> ->.
      right. split; [by left|]. by exists requests.
    - right. split; [by right|done]. }
  intros Hfold Hin. destruct (H _ _ _ Hfold Hin) as [Hnil|?]; [|done].
  by apply elem_of_nil in Hnil.
Qed.

(** The callback, seen from its two status maps and its writes. *)
Lemma thermalWatcherCallbackFunc_spec fs now h uevent_sensors h' res :
  thermalWatcherCallbackFunc fs now h uevent_sensors = Some (h', res) ->
  (requests_in_sync h -> requests_in_sync h')
  /\ forall cdev state,
      (cdev, state) ∈ writes res ->
      (exists requests,
          cdev_status_map_ h' !! cdev = Some requests
          /\ state = max_state_of requests)
      /\ exists name,
          recorded_request (cdev_status_map_ h') cdev name
          <> recorded_request (cdev_status_map_ h) cdev name.
Proof.
  unfold thermalWatcherCallbackFunc.
  destruct (foldl _ _ _) as [[h1 loc]|] eqn:Hfold; cbn [mbind option_bind]; [|done].
  destruct (watch_fold _ _ _ _ _ _ _ _ (NoDup_fst_map_to_list _) Hfold)
    as (Hsync & _ & new & Hupd & Hnew).
  cbn [cooling_devices_to_update app] in Hupd.
  destruct (if bool_decide (cooling_devices_to_update loc ≠ []) then _ else _)
    as [written|] eqn:Hw; cbn [mbind option_bind]; [|done].
  intros [= <- <-]. split; [exact Hsync|]. cbn [writes].
  intros cdev state Hin.
  destruct (decide (cooling_devices_to_update loc ≠ [])) as [Hne|Hne].
  - rewrite bool_decide_eq_true_2 in Hw by done.
    destruct (updateCoolingDevices_spec _ _ _ _ _ Hw Hin) as [Hc Hmax].
    split; [exact Hmax|]. apply Hnew. by rewrite <- Hupd.
  - rewrite bool_decide_eq_false_2 in Hw by done.
    injection Hw as <-. by apply elem_of_nil in Hin.
Qed.

(** C5. Starting from a state in which every recorded request is the
    own request of its sensor, every state the callback writes to a
    cooling device is the maximum, floored at 0, of the sensors' own
    requests for that device as they stand when the write is made: it is
    at least 0 and at least every sensor's request, and it is 0 or
    attained by some sensor. *)
Theorem written_state_is_max_request
    (fs : Platform) (now : Z) (h : ThermalHelper) (uevent_sensors : gset string)
    (h' : ThermalHelper) (res : WatcherResult) (cdev : string) (state : Z) :
  requests_in_sync h ->
  thermalWatcherCallbackFunc fs now h uevent_sensors = Some (h', res) ->
  (cdev, state) ∈ writes res ->
  0 <= state
  /\ (forall name st,
         sensor_status_map_ h' !! name = Some st -> sensor_request st cdev <= state)
  /\ (state = 0
      \/ exists name st,
          sensor_status_map_ h' !! name = Some st /\ sensor_request st cdev = state).
Proof.
  intros Hsync Hrun Hin.
  destruct (thermalWatcherCallbackFunc_spec _ _ _ _ _ _ Hrun) as [Hkeep Hwrites].
  destruct (Hwrites cdev state Hin) as [(requests & Hc & ->) _].
  apply Hkeep, requests_in_sync_iff in Hsync as [S1 S2].
  destruct (max_state_of_spec requests) as (M1 & M2 & M3).
  assert (forall name, recorded_request (cdev_status_map_ h') cdev name
                       = requests !! name) as Hrec
    by (intros name; unfold recorded_request; by rewrite Hc).
  split; [exact M1|]. split.
  - intros name st Hst.
    rewrite <- (S1 cdev name st (mk_is_Some _ _ Hc) Hst), Hrec.
    destruct (requests !! name) as [v|] eqn:Hv; cbn; [by apply (M2 name)|exact M1].
  - destruct M3 as [M3|[name Hname]]; [by left|right].
    destruct (S2 cdev name) as [st Hst]; [rewrite Hrec, Hname; by eexists|].
    exists name, st. split; [exact Hst|].
    by rewrite <- (S1 cdev name st (mk_is_Some _ _ Hc) Hst), Hrec, Hname.
Qed.

(** ** Every changed record is listed and written *)

(** The aggregation loop of one sensor lists every cooling device for
    which it changed a record, and keeps what was listed before. *)
Lemma aggregate_fold_changed name st (cdevs : list string) cm0 upd0 cm1 upd1 :
  foldl (aggregate_step name st) (Some (cm0, upd0)) cdevs = Some (cm1, upd1) ->
  (forall c, c ∈ upd0 -> c ∈ upd1)
  /\ (forall c n, recorded_request cm1 c n <> recorded_request cm0 c n -> c ∈ upd1).
Proof.
  revert cm0 upd0.
  induction cdevs as [|cdev l IH]; intros cm0 upd0 Hfold.
  { injection Hfold as <- <-. split; [done|]. intros c n Hne. by destruct Hne. }
  cbn [foldl] in Hfold.
  destruct (aggregate_step name st (Some (cm0, upd0)) cdev) as [[cm upd]|] eqn:Hstep;
    [|by rewrite foldl_None in Hfold].
  destruct (aggregate_step_spec _ _ _ _ _ _ _ Hstep) as (current & Hcur & Hrec & _ & ->).
  destruct (IH _ _ Hfold) as [Hmono Hch].
  split.
  - intros c Hc. apply Hmono, elem_of_app. by left.
  - intros c n Hne.
    destruct (decide (recorded_request cm1 c n = recorded_request cm c n)) as [E|E];
      [|by apply (Hch c n)].
    rewrite E, Hrec in Hne.
    destruct (decide (c = cdev /\ n = name)) as [[-> ->]|Hcn].
    + rewrite bool_decide_eq_true_2 in Hne by done.
      apply Hmono, elem_of_app. right.
      rewrite bool_decide_eq_false_2; [by apply list_elem_of_singleton|].
      intros ->. by rewrite Hcur in Hne.
    + rewrite bool_decide_eq_false_2 in Hne by done. by destruct Hne.
Qed.

Lemma throttle_sensor_changed h name sensor_info st temp time_elapsed_ms upd st' cm' upd' :
  throttle_sensor h name sensor_info st temp time_elapsed_ms upd = Some (st', cm', upd') ->
  (forall c, c ∈ upd -> c ∈ upd')
  /\ (forall c n, recorded_request cm' c n <> recorded_request (cdev_status_map_ h) c n ->
                  c ∈ upd').
Proof.
  unfold throttle_sensor.
  destruct (if bool_decide (size (pid_request_map st) ≠ 0%nat) then _ else _)
    as [st1|]; cbn [mbind option_bind]; [|done].
  destruct (if bool_decide (size (hard_limit_request_map st1) ≠ 0%nat) then _ else _)
    as [st2|]; cbn [mbind option_bind]; [|done].
  destruct (_ || _).
  - unfold aggregate_requests.
    destruct (foldl _ _ _) as [[cm1 upd1]|] eqn:Hfold; cbn [mbind option_bind]; [|done].
    intros [= <- <- <-]. by apply (aggregate_fold_changed _ _ _ _ _ _ _ Hfold).
  - cbn [mbind option_bind]. intros [= <- <- <-].
    split; [done|]. intros c n Hne. by destruct Hne.
Qed.

Lemma watch_sensor_changed fs now uevent_sensors h loc name h' loc' :
  watch_sensor fs now uevent_sensors (Some (h, loc)) name = Some (h', loc') ->
  (forall c, c ∈ cooling_devices_to_update loc -> c ∈ cooling_devices_to_update loc')
  /\ (forall c n, recorded_request (cdev_status_map_ h') c n
                  <> recorded_request (cdev_status_map_ h) c n ->
                  c ∈ cooling_devices_to_update loc').
Proof.
  assert (forall h0 loc0, h' = h0 -> loc' = loc0 ->
            cooling_devices_to_update loc0 = cooling_devices_to_update loc ->
            cdev_status_map_ h0 = cdev_status_map_ h ->
            (forall c, c ∈ cooling_devices_to_update loc ->
                       c ∈ cooling_devices_to_update loc')
            /\ (forall c n, recorded_request (cdev_status_map_ h') c n
                            <> recorded_request (cdev_status_map_ h) c n ->
                            c ∈ cooling_devices_to_update loc')) as Hskip.
  { intros h0 loc0 -> -> Hupd Hcm. split.
    - intros c. by rewrite Hupd.
    - intros c n Hne. rewrite Hcm in Hne. by destruct Hne. }
  unfold watch_sensor. cbn [mbind option_bind].
  destruct (sensor_status_map_ h !! name) as [st|] eqn:Hst; cbn [mbind option_bind]; [|done].
  destruct (sensor_info_map_ h !! name) as [info|] eqn:Hinfo; cbn [mbind option_bind]; [|done].
  destruct (negb (is_monitor info)); [intros [= <- <-]; by eapply Hskip|].
  destruct (_ && _); [intros [= <- <-]; by eapply Hskip|].
  destruct (readTemperature fs h name (is_virtual_sensor info))
    as [[[temp status]|]|]; cbn [mbind option_bind]; [| |done].
  2:{ intros [= <- <-]; by eapply Hskip. }
  destruct (throttle_sensor _ _ _ _ _ _ _) as [[[st2 cm2] upd2]|] eqn:Hthr;
    cbn [mbind option_bind]; [|done].
  intros [= <- <-].
  cbn [cdev_status_map_ set_status_maps cooling_devices_to_update].
  by apply (throttle_sensor_changed _ _ _ _ _ _ _ _ _ _ Hthr).
Qed.

(** The loop over the sensors lists every cooling device for which a
    record differs between its start and its end. *)
Lemma watch_fold_changed fs now uevent_sensors (names : list string) h0 loc0 h1 loc1 :
  foldl (watch_sensor fs now uevent_sensors) (Some (h0, loc0)) names = Some (h1, loc1) ->
  (forall c, c ∈ cooling_devices_to_update loc0 -> c ∈ cooling_devices_to_update loc1)
  /\ (forall c n, recorded_request (cdev_status_map_ h1) c n
                  <> recorded_request (cdev_status_map_ h0) c n ->
                  c ∈ cooling_devices_to_update loc1).
Proof.
  revert h0 loc0.
  induction names as [|name l IH]; intros h0 loc0 Hfold.
  { injection Hfold as <- <-. split; [done|]. intros c n Hne. by destruct Hne. }
  cbn [foldl] in Hfold.
  destruct (watch_sensor fs now uevent_sensors (Some (h0, loc0)) name)
    as [[h loc]|] eqn:Hstep; [|by rewrite foldl_None in Hfold].
  destruct (watch_sensor_changed _ _ _ _ _ _ _ _ Hstep) as [W1 W2].
  destruct (IH _ _ Hfold) as [I1 I2].
  split; [auto|].
  intros c n Hne.
  destruct (decide (recorded_request (cdev_status_map_ h1) c n
                    = recorded_request (cdev_status_map_ h) c n)) as [E|E];
    [|by apply (I2 c n)].
  rewrite E in Hne. by apply I1, (W2 c n).
Qed.

(** [updateCoolingDevices] writes to every device of its list. *)
Lemma updateCoolingDevices_writes cm updated_cdev written cdev :
  updateCoolingDevices cm updated_cdev = Some written ->
  cdev ∈ updated_cdev ->
  exists state, (cdev, state) ∈ written.
Proof.
  unfold updateCoolingDevices.
  assert (forall (l : list string) (w0 w : list (string * Z)),
             foldl (fun acc target_cdev =>
                      written ← acc;
                      cdev_status ← cm !! target_cdev;
                      Some (writeCdevFile written target_cdev
                                          (max_state_of cdev_status)))
                   (Some w0) l = Some w ->
             (forall p, p ∈ w0 -> p ∈ w)
             /\ (cdev ∈ l -> exists state, (cdev, state) ∈ w)) as H.
  { induction l as [|target l IH]; intros w0 w Hfold.
    { injection Hfold as <-. split; [done|]. by intros ?%elem_of_nil. }
    cbn [foldl mbind option_bind] in Hfold.
    destruct (cm !! target) as [requests|] eqn:Hc; cbn [mbind option_bind] in Hfold;
      [|by rewrite foldl_None in Hfold].
    destruct (IH _ _ Hfold) as [Hmono Hl].
    unfold writeCdevFile in Hmono. split.
    - intros p Hp. apply Hmono, elem_of_app. by left.
    - intros [->|Hin]%elem_of_cons; [|by apply Hl].
      exists (max_state_of requests). apply Hmono, elem_of_app. right.
      by apply list_elem_of_singleton. }
  intros Hfold. by apply (H _ _ _ Hfold).
Qed.

(** The callback writes to every cooling device for which a record
    differs between its start and its end. *)
Lemma thermalWatcherCallbackFunc_writes_changed fs now h uevent_sensors h' res cdev name :
  thermalWatcherCallbackFunc fs now h uevent_sensors = Some (h', res) ->
  recorded_request (cdev_status_map_ h') cdev name
  <> recorded_request (cdev_status_map_ h) cdev name ->
  exists state, (cdev, state) ∈ writes res.
Proof.
  unfold thermalWatcherCallbackFunc.
  destruct (foldl _ _ _) as [[h1 loc]|] eqn:Hfold; cbn [mbind option_bind]; [|done].
  destruct (watch_fold_changed _ _ _ _ _ _ _ _ Hfold) as [_ Hch].
  destruct (if bool_decide (cooling_devices_to_update loc ≠ []) then _ else _)
    as [written|] eqn:Hw; cbn [mbind option_bind]; [|done].
  intros [= <- <-] Hne. cbn [writes].
  pose proof (Hch cdev name Hne) as Hin.
  rewrite bool_decide_eq_true_2 in Hw.
  - by apply (updateCoolingDevices_writes _ _ _ _ Hw).
  - intros Hnil. rewrite Hnil in Hin. by apply elem_of_nil in Hin.
Qed.

(** C6 (amended). In one run of the callback, a cooling device for
    which no sensor's recorded request changed receives no write, and a
    cooling device for which some sensor's recorded request changed is
    written, whether or not the maximum over the sensors changed. *)
Theorem no_write_without_request_change
    (fs : Platform) (now : Z) (h : ThermalHelper) (uevent_sensors : gset string)
    (h' : ThermalHelper) (res : WatcherResult) (cdev : string) :
  thermalWatcherCallbackFunc fs now h uevent_sensors = Some (h', res) ->
  ((forall name, recorded_request (cdev_status_map_ h') cdev name
                 = recorded_request (cdev_status_map_ h) cdev name) ->
   forall state, (cdev, state) ∉ writes res)
  /\ ((exists name, recorded_request (cdev_status_map_ h') cdev name
                    <> recorded_request (cdev_status_map_ h) cdev name) ->
      exists state, (cdev, state) ∈ writes res).
Proof.
  intros Hrun. split.
  - intros Hsame state Hin.
    destruct (thermalWatcherCallbackFunc_spec _ _ _ _ _ _ Hrun) as [_ Hwrites].
    destruct (Hwrites cdev state Hin) as [_ [name Hne]].
    apply Hne, Hsame.
  - intros [name Hne].
    by apply (thermalWatcherCallbackFunc_writes_changed _ _ _ _ _ _ _ _ Hrun Hne).
Qed.

(** ** The key sets built by the constructor *)

Lemma recorded_register_request name cdev cm c n :
  is_Some (recorded_request (register_request name cdev cm) c n)
  <-> is_Some (recorded_request cm c n) \/ (c = cdev /\ n = name).
Proof.
  unfold recorded_request, register_request.
  destruct (decide (c = cdev)) as [->|Hc].
  - rewrite lookup_insert_eq. cbn.
    destruct (decide (n = name)) as [->|Hn].
    + rewrite lookup_insert_eq. split; [by right|by eexists].
    + rewrite lookup_insert_ne by done.
      destruct (cm !! cdev) as [requests|]; cbn.
      * split; [by left|]. by intros [?|[_ ?]].
      * rewrite lookup_empty. split; [by intros []|]. by intros [[]|[_ ?]].
  - rewrite lookup_insert_ne by done. split; [by left|]. by intros [?|[? _]].
Qed.

Lemma lookup_register_request name cdev cm c :
  is_Some (register_request name cdev cm !! c) <-> is_Some (cm !! c) \/ c = cdev.
Proof.
  unfold register_request. destruct (decide (c = cdev)) as [->|Hc].
  - rewrite lookup_insert_eq. split; [by right|by eexists].
  - rewrite lookup_insert_ne by done. split; [by left|]. by intros [?|?].
Qed.

Lemma init_requests_fold (cdev_info : gmap string CdevInfo) name (cdevs : list string)
    (m0 : gmap string Z) cm0 m cm :
  foldl (fun acc cdev =>
           '(m, cm) ← acc; _ ← cdev_info !! cdev;
           Some (<[cdev := 0]> m, register_request name cdev cm))
        (Some (m0, cm0)) cdevs = Some (m, cm) ->
  (forall c, is_Some (m !! c) <-> is_Some (m0 !! c) \/ c ∈ cdevs)
  /\ (forall c n, is_Some (recorded_request cm c n)
                  <-> is_Some (recorded_request cm0 c n) \/ (n = name /\ c ∈ cdevs))
  /\ (forall c, is_Some (cm !! c) <-> is_Some (cm0 !! c) \/ c ∈ cdevs).
Proof.
  revert m0 cm0. induction cdevs as [|cdev l IH]; intros m0 cm0 Hfold.
  { injection Hfold as <- <-. repeat split; try (by left);
      intros [?|H]; try done; try (by apply elem_of_nil in H).
    destruct H as [_ H]. by apply elem_of_nil in H. }
  cbn [foldl mbind option_bind] in Hfold.
  destruct (cdev_info !! cdev) as [info|]; cbn [mbind option_bind] in Hfold;
    [|by rewrite foldl_None in Hfold].
  destruct (IH _ _ Hfold) as (I1 & I2 & I3). split; [|split].
  - intros c. rewrite I1, elem_of_cons. destruct (decide (c = cdev)) as [->|Hc].
    + rewrite lookup_insert_eq. split; [by right; left|by left; eexists].
    + rewrite lookup_insert_ne by done. tauto.
  - intros c n. rewrite I2, recorded_register_request, elem_of_cons. tauto.
  - intros c. rewrite I3, lookup_register_request, elem_of_cons. tauto.
Qed.

Lemma init_sensor_spec cdev_info sm0 cm0 name info sm cm :
  init_sensor cdev_info (Some (sm0, cm0)) (name, info) = Some (sm, cm) ->
  (exists st,
      sm = <[name := st]> sm0
      /\ (forall c, is_Some (pid_request_map st !! c)
                    <-> c ∈ cdev_request (throttling_info info))
      /\ (forall c, is_Some (hard_limit_request_map st !! c)
                    <-> is_Some (limit_info (throttling_info info) !! c)))
  /\ (forall c n, is_Some (recorded_request cm c n)
                  <-> is_Some (recorded_request cm0 c n)
                      \/ (n = name /\ references info c))
  /\ (forall c, is_Some (cm !! c) <-> is_Some (cm0 !! c) \/ references info c).
Proof.
  unfold init_sensor, init_requests. cbn [mbind option_bind fst snd].
  destruct (foldl _ (Some (∅, cm0)) (cdev_request _)) as [[pid_map cm1]|] eqn:Hpid;
    cbn [mbind option_bind]; [|done].
  destruct (foldl _ (Some (∅, cm1)) _) as [[limit_map cm2]|] eqn:Hlim;
    cbn [mbind option_bind]; [|done].
  intros [= <- <-].
  destruct (init_requests_fold _ _ _ _ _ _ _ Hpid) as (P1 & P2 & P3).
  destruct (init_requests_fold _ _ _ _ _ _ _ Hlim) as (L1 & L2 & L3).
  unfold references. split; [|split].
  - eexists. split; [reflexivity|].
    cbn [pid_request_map hard_limit_request_map set_hard_limit_request_map
         set_pid_request_map].
    split.
    + intros c. rewrite P1, lookup_empty. split; [by intros [[]|?]|by right].
    + intros c. rewrite L1, lookup_empty, elem_of_map_keys.
      split; [by intros [[]|?]|by right].
  - intros c n. rewrite L2, P2, elem_of_map_keys. tauto.
  - intros c. rewrite L3, P3, elem_of_map_keys. tauto.
Qed.

Lemma init_fold cdev_info (sensors : list (string * SensorInfo)) sm0 cm0 sm cm :
  NoDup sensors.*1 ->
  foldl (init_sensor cdev_info) (Some (sm0, cm0)) sensors = Some (sm, cm) ->
  (forall name, name ∉ sensors.*1 -> sm !! name = sm0 !! name)
  /\ (forall name info,
         (name, info) ∈ sensors ->
         exists st,
           sm !! name = Some st
           /\ (forall c, is_Some (pid_request_map st !! c)
                         <-> c ∈ cdev_request (throttling_info info))
           /\ (forall c, is_Some (hard_limit_request_map st !! c)
                         <-> is_Some (limit_info (throttling_info info) !! c)))
  /\ (forall c n, is_Some (recorded_request cm c n)
                  <-> is_Some (recorded_request cm0 c n)
                      \/ exists info, (n, info) ∈ sensors /\ references info c)
  /\ (forall c, is_Some (cm !! c)
                <-> is_Some (cm0 !! c)
                    \/ exists n info, (n, info) ∈ sensors /\ references info c).
Proof.
  revert sm0 cm0. induction sensors as [|[name info] l IH]; intros sm0 cm0 Hnodup Hfold.
  { injection Hfold as <- <-. split; [done|]. split; [by intros ?? ?%elem_of_nil|].
    split.
    - intros c n. split; [by left|]. intros [?|(i & H & _)]; [done|].
      by apply elem_of_nil in H.
    - intros c. split; [by left|]. intros [?|(n & i & H & _)]; [done|].
      by apply elem_of_nil in H. }
  cbn [foldl] in Hfold.
  destruct (init_sensor cdev_info (Some (sm0, cm0)) (name, info)) as [[sm1 cm1]|] eqn:Hstep.
  2:{ rewrite foldl_None in Hfold; [done|]. by intros []. }
  cbn [fmap list_fmap fst] in Hnodup. apply NoDup_cons in Hnodup as [Hnotin Hnodup].
  destruct (init_sensor_spec _ _ _ _ _ _ _ Hstep) as ((st & -> & Hp & Hl) & R1 & D1).
  destruct (IH _ _ Hnodup Hfold) as (I1 & I2 & I3 & I4).
  split; [|split; [|split]].
  - intros n Hn. cbn [fmap list_fmap fst] in Hn. apply not_elem_of_cons in Hn as [Hne Hn].
    rewrite I1 by done. by rewrite lookup_insert_ne.
  - intros n i [Heq|Hin]%elem_of_cons.
    + injection Heq as -> ->. exists st. rewrite I1 by done. by rewrite lookup_insert_eq.
    + by apply I2.
  - intros c n. rewrite I3, R1. split.
    + intros [[?|[-> ?]]|(i & ? & ?)]; [by left| |].
      * right. exists info. split; [by left|done].
      * right. exists i. split; [by right|done].
    + intros [?|(i & [Heq|Hin]%elem_of_cons & ?)]; [by left; left| |].
      * injection Heq as -> ->. left. by right.
      * right. by exists i.
  - intros c. rewrite I4, D1. split.
    + intros [[?|?]|(n & i & ? & ?)]; [by left| |].
      * right. exists name, info. split; [by left|done].
      * right. exists n, i. split; [by right|done].
    + intros [?|(n & i & [Heq|Hin]%elem_of_cons & ?)]; [by left; left| |].
      * injection Heq as -> ->. left. by right.
      * right. by exists n, i.
Qed.

(** The constructor builds the key sets from the configuration. *)
Lemma ThermalHelper_init_keys cdev_info sensor_info h :
  ThermalHelper_init cdev_info sensor_info = Some h ->
  sensor_info_map_ h = sensor_info /\ keys_as_configured sensor_info h.
Proof.
  unfold ThermalHelper_init.
  destruct (foldl _ _ _) as [[sm cm]|] eqn:Hfold; cbn [mbind option_bind]; [|done].
  intros [= <-]. split; [done|].
  destruct (init_fold _ _ _ _ _ _ (NoDup_fst_map_to_list _) Hfold) as (_ & I2 & I3 & I4).
  unfold keys_as_configured. cbn [sensor_status_map_ cdev_status_map_].
  split; [|split].
  - intros name info Hinfo. apply I2. by apply elem_of_map_to_list.
  - intros c name. rewrite I3. unfold recorded_request. rewrite lookup_empty. cbn.
    split.
    + intros [[]|(info & Hin & Href)]; [done|].
      exists info. by apply elem_of_map_to_list in Hin.
    + intros (info & Hinfo & Href). right. exists info.
      by apply elem_of_map_to_list in Hinfo.
  - intros c. rewrite I4, lookup_empty. split.
    + intros [[]|(name & info & Hin & Href)]; [done|].
      exists name, info. by apply elem_of_map_to_list in Hin.
    + intros (name & info & Hinfo & Href). right. exists name, info.
      by apply elem_of_map_to_list in Hinfo.
Qed.

(** ** When the lookups of the aggregation are defined *)


Lemma aggregate_step_is_Some name st cm upd c :
  is_Some (aggregate_step name st (Some (cm, upd)) c)
  <-> is_Some (cm !! c)
      /\ (size (pid_request_map st) ≠ 0%nat -> is_Some (pid_request_map st !! c))
      /\ (size (hard_limit_request_map st) ≠ 0%nat ->
          is_Some (hard_limit_request_map st !! c))
      /\ is_Some (recorded_request cm c name).
Proof.
  unfold aggregate_step, recorded_request. cbn [mbind option_bind].
  destruct (cm !! c) as [requests|]; cbn [mbind option_bind].
  2:{ split; [by intros []|]. by intros [[] _]. }
  destruct (decide (size (pid_request_map st) ≠ 0%nat)) as [Hp|Hp];
    [rewrite (bool_decide_eq_true_2 _ Hp)|rewrite (bool_decide_eq_false_2 _ Hp)].
  - destruct (pid_request_map st !! c) as [pid_max|]; cbn [mbind option_bind].
    2:{ split; [by intros []|]. intros (_ & H & _). by destruct (H Hp). }
    destruct (decide (size (hard_limit_request_map st) ≠ 0%nat)) as [Hl|Hl];
      [rewrite (bool_decide_eq_true_2 _ Hl)|rewrite (bool_decide_eq_false_2 _ Hl)].
    + destruct (hard_limit_request_map st !! c) as [limit_max|]; cbn [mbind option_bind].
      2:{ split; [by intros []|]. intros (_ & _ & H & _). by destruct (H Hl). }
      destruct (requests !! name) as [current|]; cbn [mbind option_bind].
      * destruct (bool_decide _); (split; [intros _|by eexists]); by repeat split.
      * split; [by intros []|]. by intros (_ & _ & _ & []).
    + cbn [mbind option_bind].
      destruct (requests !! name) as [current|]; cbn [mbind option_bind].
      * destruct (bool_decide _); (split; [intros _|by eexists]); by repeat split.
      * split; [by intros []|]. by intros (_ & _ & _ & []).
  - cbn [mbind option_bind].
    destruct (decide (size (hard_limit_request_map st) ≠ 0%nat)) as [Hl|Hl];
      [rewrite (bool_decide_eq_true_2 _ Hl)|rewrite (bool_decide_eq_false_2 _ Hl)].
    + destruct (hard_limit_request_map st !! c) as [limit_max|]; cbn [mbind option_bind].
      2:{ split; [by intros []|]. intros (_ & _ & H & _). by destruct (H Hl). }
      destruct (requests !! name) as [current|]; cbn [mbind option_bind].
      * destruct (bool_decide _); (split; [intros _|by eexists]); by repeat split.
      * split; [by intros []|]. by intros (_ & _ & _ & []).
    + cbn [mbind option_bind].
      destruct (requests !! name) as [current|]; cbn [mbind option_bind].
      * destruct (bool_decide _); (split; [intros _|by eexists]); by repeat split.
      * split; [by intros []|]. by intros (_ & _ & _ & []).
Qed.

Lemma aggregate_fold_is_Some name st (cdevs : list string) cm upd :
  is_Some (foldl (aggregate_step name st) (Some (cm, upd)) cdevs)
  <-> forall c, c ∈ cdevs ->
        is_Some (cm !! c)
        /\ (size (pid_request_map st) ≠ 0%nat -> is_Some (pid_request_map st !! c))
        /\ (size (hard_limit_request_map st) ≠ 0%nat ->
            is_Some (hard_limit_request_map st !! c))
        /\ is_Some (recorded_request cm c name).
Proof.
  revert cm upd. induction cdevs as [|cdev l IH]; intros cm upd.
  { split; [by intros _ c ?%elem_of_nil|by eexists]. }
  cbn [foldl].
  destruct (aggregate_step name st (Some (cm, upd)) cdev) as [[cm1 upd1]|] eqn:Hstep.
  - destruct (aggregate_step_spec _ _ _ _ _ _ _ Hstep) as (current & Hcur & Hrec & Hdom & _).
    assert (forall c, is_Some (recorded_request cm1 c name)
                      <-> is_Some (recorded_request cm c name)) as Hkeys.
    { intros c. rewrite Hrec.
      destruct (decide (c = cdev /\ name = name)) as [[-> _]|Hne].
      - rewrite bool_decide_eq_true_2 by done. rewrite Hcur. split; by eexists.
      - by rewrite bool_decide_eq_false_2. }
    rewrite IH. split.
    + intros H c [->|Hc]%elem_of_cons.
      * apply aggregate_step_is_Some with (upd := upd). rewrite Hstep. by eexists.
      * destruct (H c Hc) as (H1 & H2 & H3 & H4).
        split; [by apply Hdom|]. split; [done|]. split; [done|]. by apply Hkeys.
    + intros H c Hc.
      destruct (H c) as (H1 & H2 & H3 & H4); [by right|].
      split; [by apply Hdom|]. split; [done|]. split; [done|]. by apply Hkeys.
  - rewrite foldl_None by done. split; [by intros []|].
    intros H. exfalso.
    assert (is_Some (aggregate_step name st (Some (cm, upd)) cdev)) as [x Hx].
    { apply aggregate_step_is_Some. apply H. by left. }
    congruence.
Qed.

Lemma aggregate_requests_is_Some name st cm upd :
  is_Some (aggregate_requests name st cm upd)
  <-> forall c, is_Some (cm !! c) ->
        (size (pid_request_map st) ≠ 0%nat -> is_Some (pid_request_map st !! c))
        /\ (size (hard_limit_request_map st) ≠ 0%nat ->
            is_Some (hard_limit_request_map st !! c))
        /\ is_Some (recorded_request cm c name).
Proof.
  unfold aggregate_requests. rewrite aggregate_fold_is_Some. split.
  - intros H c Hc. destruct (H c) as (_ & ?); [by apply elem_of_map_keys|done].
  - intros H c Hc. apply elem_of_map_keys in Hc. split; [done|]. by apply H.
Qed.

(** C10. In a helper whose key sets are the configured ones, for a
    sensor whose aggregation step runs (one of its two request maps is not
    empty), the [.at()] lookups made for every cooling device of
    [cdev_status_map_] all succeed exactly when every cooling device
    referenced by any sensor is among this sensor's [cdev_request] (if
    that list is not empty) and among the keys of its [limit_info] (if that
    map is not empty). *)
Theorem aggregation_lookups_defined
    (sensor_info : gmap string SensorInfo) (h : ThermalHelper)
    (name : string) (info : SensorInfo) (st : SensorStatus) (to_update : list string) :
  keys_as_configured sensor_info h ->
  sensor_info !! name = Some info ->
  (forall c, is_Some (pid_request_map st !! c)
             <-> c ∈ cdev_request (throttling_info info)) ->
  (forall c, is_Some (hard_limit_request_map st !! c)
             <-> is_Some (limit_info (throttling_info info) !! c)) ->
  size (pid_request_map st) ≠ 0%nat \/ size (hard_limit_request_map st) ≠ 0%nat ->
  (is_Some (aggregate_requests name st (cdev_status_map_ h) to_update)
   <-> forall name' info' c,
         sensor_info !! name' = Some info' ->
         references info' c ->
         (cdev_request (throttling_info info) ≠ [] ->
          c ∈ cdev_request (throttling_info info))
         /\ (limit_info (throttling_info info) ≠ ∅ ->
             is_Some (limit_info (throttling_info info) !! c))).
Proof.
  intros (_ & Krec & Kdom) Hinfo Hpid Hlim Hrun.
  assert (size (pid_request_map st) ≠ 0%nat
          <-> cdev_request (throttling_info info) ≠ []) as Hp.
  { rewrite map_size_ne_0_lookup. split.
    - intros [c Hc] E. apply Hpid in Hc. rewrite E in Hc. by apply elem_of_nil in Hc.
    - intros E. destruct (cdev_request (throttling_info info)) as [|c l] eqn:El; [done|].
      exists c. apply Hpid. rewrite ?El. by left. }
  assert (size (hard_limit_request_map st) ≠ 0%nat
          <-> limit_info (throttling_info info) ≠ ∅) as Hl.
  { rewrite map_size_ne_0_lookup. split.
    - intros [c Hc] E. apply Hlim in Hc. rewrite E, lookup_empty in Hc. by destruct Hc.
    - intros E. apply map_choose in E as (c & x & Hx).
      exists c. apply Hlim. by eexists. }
  rewrite aggregate_requests_is_Some. split.
  - intros H name' info' c Hinfo' Href.
    destruct (H c) as (H1 & H2 & _).
    { apply Kdom. by exists name', info'. }
    split.
    + intros Hne. by apply Hpid, H1, Hp.
    + intros Hne. by apply Hlim, H2, Hl.
  - intros H c Hc. apply Kdom in Hc as (name' & info' & Hinfo' & Href).
    destruct (H name' info' c Hinfo' Href) as [H1 H2].
    split; [|split].
    + intros Hs. by apply Hpid, H1, Hp.
    + intros Hs. by apply Hlim, H2, Hl.
    + apply Krec. exists info. split; [done|].
      destruct Hrun as [Hs|Hs]; [left|right].
      * by apply H1, Hp.
      * by apply H2, Hl.
Qed.

(** The key sets stay the configured ones along the control loop. *)
Lemma throttle_sensor_keys h name sensor_info st temp time_elapsed_ms upd st' cm' upd' :
  throttle_sensor h name sensor_info st temp time_elapsed_ms upd = Some (st', cm', upd') ->
  (forall c, is_Some (pid_request_map st' !! c) <-> is_Some (pid_request_map st !! c))
  /\ (forall c, is_Some (hard_limit_request_map st' !! c)
                <-> is_Some (hard_limit_request_map st !! c)).
Proof.
  unfold throttle_sensor.
  destruct (if bool_decide (size (pid_request_map st) ≠ 0%nat) then _ else _)
    as [st1|] eqn:Hpid; cbn [mbind option_bind]; [|done].
  apply pid_stage in Hpid as (Hl1 & Hp1 & _).
  destruct (if bool_decide (size (hard_limit_request_map st1) ≠ 0%nat) then _ else _)
    as [st2|] eqn:Hlim; cbn [mbind option_bind]; [|done].
  apply limit_stage in Hlim as (Hp2 & Hl2 & _).
  destruct (if _ || _ then _ else _) as [[cm2 upd2]|]; cbn [mbind option_bind]; [|done].
  intros [= <- <- <-]. split; intros c.
  - by rewrite Hp2, Hp1.
  - by rewrite Hl2, Hl1.
Qed.

Lemma watch_sensor_keys fs now uevent_sensors h loc name h' loc' sensor_info :
  watch_sensor fs now uevent_sensors (Some (h, loc)) name = Some (h', loc') ->
  keys_as_configured sensor_info h -> keys_as_configured sensor_info h'.
Proof.
  unfold watch_sensor. cbn [mbind option_bind].
  destruct (sensor_status_map_ h !! name) as [st|] eqn:Hst; cbn [mbind option_bind]; [|done].
  destruct (sensor_info_map_ h !! name) as [info|] eqn:Hinfo; cbn [mbind option_bind]; [|done].
  destruct (negb (is_monitor info)); [by intros [= <- <-]|].
  destruct (_ && _); [by intros [= <- <-]|].
  destruct (readTemperature fs h name (is_virtual_sensor info))
    as [[[temp status]|]|]; cbn [mbind option_bind]; [| |done].
  2:{ by intros [= <- <-]. }
  destruct (throttle_sensor _ _ _ _ _ _ _) as [[[st2 cm2] upd2]|] eqn:Hthr;
    cbn [mbind option_bind]; [|done].
  intros [= <- <-].
  destruct (throttle_sensor_spec _ _ _ _ _ _ _ _ _ _ Hthr) as (_ & _ & T3 & T4 & _).
  destruct (throttle_sensor_keys _ _ _ _ _ _ _ _ _ _ Hthr) as (Kp & Kl).
  cbn [pid_request_map hard_limit_request_map set_severities] in Kp, Kl.
  intros (K1 & K2 & K3). unfold keys_as_configured.
  cbn [cdev_status_map_ sensor_status_map_ set_status_maps].
  split; [|split].
  - intros n i Hn. destruct (K1 n i Hn) as (st0 & Hst0 & Hp0 & Hl0).
    destruct (decide (n = name)) as [->|Hne].
    + rewrite lookup_insert_eq. eexists. split; [reflexivity|].
      cbn [pid_request_map hard_limit_request_map set_last_update_time].
      assert (st0 = st) as -> by congruence.
      split; intros c; [by rewrite Kp, Hp0|by rewrite Kl, Hl0].
    + rewrite lookup_insert_ne by done. by exists st0.
  - intros c n. by rewrite T4, K2.
  - intros c. by rewrite T3, K3.
Qed.

Lemma thermalWatcherCallbackFunc_keys fs now h uevent_sensors h' res sensor_info :
  thermalWatcherCallbackFunc fs now h uevent_sensors = Some (h', res) ->
  keys_as_configured sensor_info h -> keys_as_configured sensor_info h'.
Proof.
  unfold thermalWatcherCallbackFunc.
  destruct (foldl _ _ _) as [[h1 loc]|] eqn:Hfold; cbn [mbind option_bind]; [|done].
  destruct (if bool_decide (cooling_devices_to_update loc ≠ []) then _ else _)
    as [written|]; cbn [mbind option_bind]; [|done].
  intros [= <- <-]. revert Hfold.
  generalize ({| temps := []; cooling_devices_to_update := []; min_sleep_ms := 2147483647 |}).
  generalize (map_to_list (sensor_status_map_ h)).*1.
  intros names. revert h. induction names as [|name l IH]; intros h loc0 Hfold Hkeys.
  { by injection Hfold as <- <-. }
  cbn [foldl] in Hfold.
  destruct (watch_sensor fs now uevent_sensors (Some (h, loc0)) name)
    as [[h2 loc2]|] eqn:Hstep; [|by rewrite foldl_None in Hfold].
  apply (IH _ _ Hfold). by apply (watch_sensor_keys _ _ _ _ _ _ _ _ _ Hstep).
Qed.

(** ** The constructor establishes the invariant *)

Lemma recorded_register_request_value name cdev cm c n v :
  recorded_request (register_request name cdev cm) c n = Some v ->
  v = 0 \/ recorded_request cm c n = Some v.
Proof.
  unfold recorded_request, register_request.
  destruct (decide (c = cdev)) as [->|Hc].
  - rewrite lookup_insert_eq. cbn.
    destruct (decide (n = name)) as [->|Hn].
    + rewrite lookup_insert_eq. intros [= <-]. by left.
    + rewrite lookup_insert_ne by done.
      destruct (cm !! cdev) as [requests|]; cbn; [by right|].
      by rewrite lookup_empty.
  - rewrite lookup_insert_ne by done. by right.
Qed.

Lemma init_requests_fold_zero (cdev_info : gmap string CdevInfo) name
    (cdevs : list string) (m0 : gmap string Z) cm0 m cm :
  foldl (fun acc cdev =>
           '(m, cm) ← acc; _ ← cdev_info !! cdev;
           Some (<[cdev := 0]> m, register_request name cdev cm))
        (Some (m0, cm0)) cdevs = Some (m, cm) ->
  (forall c v, m !! c = Some v -> v = 0 \/ m0 !! c = Some v)
  /\ (forall c n v, recorded_request cm c n = Some v ->
                    v = 0 \/ recorded_request cm0 c n = Some v).
Proof.
  revert m0 cm0. induction cdevs as [|cdev l IH]; intros m0 cm0 Hfold.
  { injection Hfold as <- <-. split; intros; by right. }
  cbn [foldl mbind option_bind] in Hfold.
  destruct (cdev_info !! cdev) as [info|]; cbn [mbind option_bind] in Hfold;
    [|by rewrite foldl_None in Hfold].
  destruct (IH _ _ Hfold) as (I1 & I2). split.
  - intros c v Hv. destruct (I1 c v Hv) as [?|Hv']; [by left|].
    destruct (decide (c = cdev)) as [->|Hc].
    + rewrite lookup_insert_eq in Hv'. injection Hv' as <-. by left.
    + rewrite lookup_insert_ne in Hv' by done. by right.
  - intros c n v Hv. destruct (I2 c n v Hv) as [?|Hv']; [by left|].
    by apply recorded_register_request_value in Hv'.
Qed.

Lemma init_fold_zero cdev_info (sensors : list (string * SensorInfo)) sm0 cm0 sm cm :
  foldl (init_sensor cdev_info) (Some (sm0, cm0)) sensors = Some (sm, cm) ->
  (forall name st, sm !! name = Some st ->
                   sm0 !! name = Some st \/ forall c, sensor_request st c = 0)
  /\ (forall c n v, recorded_request cm c n = Some v ->
                    v = 0 \/ recorded_request cm0 c n = Some v).
Proof.
  revert sm0 cm0. induction sensors as [|[name info] l IH]; intros sm0 cm0 Hfold.
  { injection Hfold as <- <-. split; intros; [by left|by right]. }
  cbn [foldl] in Hfold.
  destruct (init_sensor cdev_info (Some (sm0, cm0)) (name, info)) as [[sm1 cm1]|] eqn:Hstep.
  2:{ rewrite foldl_None in Hfold; [done|]. by intros []. }
  destruct (IH _ _ Hfold) as (I1 & I2).
  revert Hstep. unfold init_sensor, init_requests. cbn [mbind option_bind fst snd].
  destruct (foldl _ (Some (∅, cm0)) (cdev_request _)) as [[pid_map cm2]|] eqn:Hpid;
    cbn [mbind option_bind]; [|done].
  destruct (foldl _ (Some (∅, cm2)) _) as [[limit_map cm3]|] eqn:Hlim;
    cbn [mbind option_bind]; [|done].
  intros [= <- <-].
  destruct (init_requests_fold_zero _ _ _ _ _ _ _ Hpid) as (P1 & P2).
  destruct (init_requests_fold_zero _ _ _ _ _ _ _ Hlim) as (L1 & L2).
  split.
  - intros n st Hn. destruct (I1 n st Hn) as [Hn'|?]; [|by right].
    destruct (decide (n = name)) as [->|Hne].
    + rewrite lookup_insert_eq in Hn'. injection Hn' as <-. right. intros c.
      unfold sensor_request.
      cbn [pid_request_map hard_limit_request_map set_hard_limit_request_map
           set_pid_request_map].
      assert (default 0 (pid_map !! c) = 0) as ->.
      { destruct (pid_map !! c) as [v|] eqn:Hv; [|done].
        destruct (P1 c v Hv) as [->|Hv']; [done|]. by rewrite lookup_empty in Hv'. }
      assert (default 0 (limit_map !! c) = 0) as ->.
      { destruct (limit_map !! c) as [v|] eqn:Hv; [|done].
        destruct (L1 c v Hv) as [->|Hv']; [done|]. by rewrite lookup_empty in Hv'. }
      reflexivity.
    + rewrite lookup_insert_ne in Hn' by done. by left.
  - intros c n v Hv. destruct (I2 c n v Hv) as [?|Hv']; [by left|].
    destruct (L2 c n v Hv') as [?|Hv'']; [by left|]. by apply P2.
Qed.

(** Right after construction every recorded request and every sensor's
    own request is 0, so the invariant holds. *)
Lemma ThermalHelper_init_in_sync cdev_info sensor_info h :
  ThermalHelper_init cdev_info sensor_info = Some h -> requests_in_sync h.
Proof.
  intros Hinit.
  destruct (ThermalHelper_init_keys _ _ _ Hinit) as (_ & K1 & K2 & _).
  revert Hinit. unfold ThermalHelper_init.
  destruct (foldl _ _ _) as [[sm cm]|] eqn:Hfold; cbn [mbind option_bind]; [|done].
  intros [= <-]. cbn [sensor_status_map_ cdev_status_map_] in K1, K2.
  destruct (init_fold_zero _ _ _ _ _ _ Hfold) as (Z1 & Z2).
  apply requests_in_sync_iff. cbn [sensor_status_map_ cdev_status_map_]. split.
  - intros c name st _ Hst.
    destruct (Z1 name st Hst) as [Hst'|Hz]; [by rewrite lookup_empty in Hst'|].
    rewrite Hz. destruct (recorded_request cm c name) as [v|] eqn:Hv; [|done].
    destruct (Z2 c name v Hv) as [->|Hv']; [done|].
    unfold recorded_request in Hv'. by rewrite lookup_empty in Hv'.
  - intros c name Hrec. apply K2 in Hrec as (info & Hinfo & _).
    destruct (K1 name info Hinfo) as (st & Hst & _). by eexists.
Qed.

(** ** The two-sensor example *)

Lemma two_sensor_helper_built :
  ThermalHelper_init scenario_cdev_info two_sensor_info = Some two_sensor_helper.
Proof. vm_compute. reflexivity. Qed.

Lemma two_sensor_helper_running_in_sync : requests_in_sync two_sensor_helper_running.
Proof. unfold requests_in_sync. compute_done. Qed.

Lemma two_sensor_second_run_result :
  thermalWatcherCallbackFunc (platform_with {[ "A" := "70"; "B" := "60" ]}) 20000
                             two_sensor_helper_running ∅
  = Some (two_sensor_helper_after, two_sensor_second_result).
Proof. vm_compute. reflexivity. Qed.

Lemma two_sensor_idle_run_result :
  thermalWatcherCallbackFunc (platform_with {[ "A" := "70"; "B" := "50" ]}) 20000
                             two_sensor_helper_running ∅
  = Some (two_sensor_helper_idle, two_sensor_idle_result).
Proof. vm_compute. reflexivity. Qed.

(** The write of the second run: "A" requests 3, "B" has risen from 1
    to 2, and the state written to "cpu_freq" is 3. *)
Lemma written_state_is_max_request_witness :
  0 <= 3
  /\ (forall name st,
         sensor_status_map_ two_sensor_helper_after !! name = Some st ->
         sensor_request st "cpu_freq" <= 3)
  /\ (3 = 0
      \/ exists name st,
          sensor_status_map_ two_sensor_helper_after !! name = Some st
          /\ sensor_request st "cpu_freq" = 3).
Proof.
  apply (written_state_is_max_request
           (platform_with {[ "A" := "70"; "B" := "60" ]}) 20000
           two_sensor_helper_running ∅
           two_sensor_helper_after two_sensor_second_result "cpu_freq" 3).
  - unfold requests_in_sync. compute_done.
  - vm_compute. reflexivity.
  - change (writes two_sensor_second_result) with [("cpu_freq", 3)].
    apply list_elem_of_here.
Defined.

(** With both readings unchanged no record changes and nothing is
    written; when "B" moves from 50 to 60 its record for "cpu_freq"
    changes and the device is written. *)
Lemma no_write_without_request_change_witness :
(("cpu_freq", 3) ∉ writes two_sensor_idle_result)
  /\ exists state, ("cpu_freq", state) ∈ writes two_sensor_second_result.
Proof.
  split.
  - apply (no_write_without_request_change
             (platform_with {[ "A" := "70"; "B" := "50" ]}) 20000
             two_sensor_helper_running ∅
             two_sensor_helper_idle two_sensor_idle_result "cpu_freq").
    + vm_compute. reflexivity.
    + intros name.
      change (cdev_status_map_ two_sensor_helper_idle)
        with (cdev_status_map_ two_sensor_helper_running).
      reflexivity.
  - apply (no_write_without_request_change
             (platform_with {[ "A" := "70"; "B" := "60" ]}) 20000
             two_sensor_helper_running ∅
             two_sensor_helper_after two_sensor_second_result "cpu_freq").
    + vm_compute. reflexivity.
    + exists "B". vm_compute. discriminate.
Defined.

(** C6 as stated fails.  Before the second run the aggregated state of
    "cpu_freq" is 3 (the first run wrote 3); in the second run "B" moves
    from 1 to 2 while "A" stays at 3, so the aggregated state is still 3,
    and yet the run writes 3 to "cpu_freq" again. *)
Lemma spurious_write_counterexample :
  max_state_of <$> (cdev_status_map_ two_sensor_helper_running !! "cpu_freq") = Some 3
  /\ thermalWatcherCallbackFunc (platform_with {[ "A" := "70"; "B" := "60" ]}) 20000
                                two_sensor_helper_running ∅
     = Some (two_sensor_helper_after, two_sensor_second_result)
  /\ max_state_of <$> (cdev_status_map_ two_sensor_helper_after !! "cpu_freq") = Some 3
  /\ writes two_sensor_second_result = [("cpu_freq", 3)].
Proof. split; [|split; [|split]]; vm_compute; reflexivity. Qed.

(** On the two-sensor configuration, where both sensors limit the only
    cooling device, the lookups made for "A" are defined. *)
Lemma aggregation_lookups_defined_witness :
  is_Some (aggregate_requests "A" two_sensor_status_A
                              (cdev_status_map_ two_sensor_helper) [])
  <-> forall name' info' c,
        two_sensor_info !! name' = Some info' ->
        references info' c ->
        (cdev_request (throttling_info (sensor_with limit_throttling)) ≠ [] ->
         c ∈ cdev_request (throttling_info (sensor_with limit_throttling)))
        /\ (limit_info (throttling_info (sensor_with limit_throttling)) ≠ ∅ ->
            is_Some (limit_info (throttling_info (sensor_with limit_throttling)) !! c)).
Proof.
  destruct (ThermalHelper_init_keys _ _ _ two_sensor_helper_built) as [_ Hkeys].
  pose proof Hkeys as (K1 & _).
  destruct (K1 "A" (sensor_with limit_throttling) eq_refl) as (st & Hst & Hp & Hl).
  assert (st = two_sensor_status_A) as ->.
  { unfold two_sensor_status_A. by rewrite Hst. }
  apply (aggregation_lookups_defined
           two_sensor_info two_sensor_helper "A" (sensor_with limit_throttling)
           two_sensor_status_A [] Hkeys eq_refl Hp Hl).
  right. vm_compute. discriminate.
Defined.

(** On the split configuration "A" has no entry for "gpu_freq": its
    aggregation step has an undefined lookup, and so has the callback. *)
Lemma aggregation_lookup_undefined_example :
  ThermalHelper_init split_cdev_info split_sensor_info = Some split_helper
  /\ thermalWatcherCallbackFunc (platform_with {[ "A" := "70"; "G" := "50" ]}) 10000
                                split_helper ∅ = None.
Proof. split; vm_compute; reflexivity. Qed.

(** ** The order on floating values *)

Lemma SFcompare_swap (a b : float) :
  SFcompare b a = CompOpp <$> SFcompare a b.
Proof.
  destruct a as [sa|sa| |sa ma ea], b as [sb|sb| |sb mb eb]; cbn;
    try reflexivity; try (by destruct sa); try (by destruct sb);
    try (by destruct sa, sb).
  change (Pos.compare_cont Eq mb ma)
    with (Pos.compare_cont (CompOpp Eq) mb ma).
  rewrite (Z.compare_antisym ea eb), <- (Pos.compare_cont_antisym ma mb Eq).
  destruct sa, sb; try reflexivity;
    destruct (ea ?= eb)%Z; cbn; try reflexivity;
    by destruct (Pos.compare_cont Eq ma mb).
Qed.

Lemma SFcompare_refl (a : float) : isnan a = false -> SFcompare a a = Some Eq.
Proof.
  destruct a as [s|s| |s m e]; cbn; try done; try (by destruct s).
  intros _. rewrite Z.compare_refl.
  change (Pos.compare_cont Eq m m) with (Pos.compare m m).
  rewrite Pos.compare_refl. by destruct s.
Qed.

(** [a < b] and [b <= c] give [a < c]. *)
Lemma ltb_leb_trans (a b c : float) :
  F32.ltb a b = true -> F32.leb b c = true -> F32.ltb a c = true.
Proof.
  unfold F32.ltb, F32.leb, SFltb, SFleb.
  destruct a as [sa|sa| |sa ma ea], b as [sb|sb| |sb mb eb], c as [sc|sc| |sc mc ec];
    cbn; try discriminate; try reflexivity;
    try (destruct sa; cbn; (discriminate || reflexivity));
    try (destruct sb; cbn; (discriminate || reflexivity));
    try (destruct sc; cbn; (discriminate || reflexivity));
    try (destruct sa, sb; cbn; (discriminate || reflexivity));
    try (destruct sa, sc; cbn; (discriminate || reflexivity));
    try (destruct sb, sc; cbn; (discriminate || reflexivity));
    try (destruct sa, sb, sc; cbn; (discriminate || reflexivity)).
  all: change (Pos.compare_cont Eq ma mb) with (Pos.compare ma mb);
    change (Pos.compare_cont Eq mb mc) with (Pos.compare mb mc);
    change (Pos.compare_cont Eq ma mc) with (Pos.compare ma mc).
  all: destruct sa, sb, sc; try discriminate; try reflexivity;
    destruct (Z.compare_spec ea eb), (Z.compare_spec eb ec), (Z.compare_spec ea ec);
    cbn; try discriminate; try reflexivity; try lia;
    destruct (Pos.compare_spec ma mb), (Pos.compare_spec mb mc),
      (Pos.compare_spec ma mc);
    cbn; try discriminate; try reflexivity; try lia.
Qed.

Lemma SFcompare_None (a b : float) :
  SFcompare a b = None <-> isnan a = true \/ isnan b = true.
Proof.
  assert (forall c : comparison, Some c = None <-> false = true \/ false = true)
    as Hc by (intros c; split; [done|by intros [|]]).
  destruct a as [sa|sa| |sa ma ea], b as [sb|sb| |sb mb eb]; cbn;
    try apply Hc; try tauto;
    try (destruct sa; apply Hc); try (destruct sb; apply Hc);
    try (destruct sa, sb; apply Hc).
Qed.

Lemma leb_not_nan_l (a b : float) : F32.leb a b = true -> isnan a = false.
Proof. destruct a; simpl; try reflexivity. discriminate. Qed.

Lemma leb_not_nan_r (a b : float) : F32.leb a b = true -> isnan b = false.
Proof. destruct a, b; simpl; try reflexivity; discriminate. Qed.

Lemma leb_refl (a : float) : isnan a = false -> F32.leb a a = true.
Proof.
  intros H. unfold F32.leb, SFleb. by rewrite (SFcompare_refl a H).
Qed.

(** On values that are not NaN the order is total. *)
Lemma ltb_false_leb (a b : float) :
  isnan a = false -> isnan b = false -> F32.ltb a b = false -> F32.leb b a = true.
Proof.
  intros Ha Hb. unfold F32.ltb, F32.leb, SFltb, SFleb.
  rewrite (SFcompare_swap a b).
  destruct (SFcompare a b) as [[]|] eqn:E; cbn; try done.
  apply SFcompare_None in E as [E|E]; congruence.
Qed.

Lemma ltb_leb (a b : float) : F32.ltb a b = true -> F32.leb a b = true.
Proof.
  unfold F32.ltb, F32.leb, SFltb, SFleb.
  by destruct (SFcompare a b) as [[]|].
Qed.

(** ** The clamp of the power budget *)

Lemma clamp_between (lo hi b : float) :
  F32.leb lo hi = true ->
  isnan (let b1 := if F32.ltb b lo then lo else b in
         if F32.gtb b1 hi then hi else b1) = false ->
  F32.leb lo (let b1 := if F32.ltb b lo then lo else b in
              if F32.gtb b1 hi then hi else b1) = true
  /\ F32.leb (let b1 := if F32.ltb b lo then lo else b in
              if F32.gtb b1 hi then hi else b1) hi = true.
Proof.
  intros Hlh. cbv zeta. unfold F32.gtb.
  pose proof (leb_not_nan_l _ _ Hlh) as Hlo.
  pose proof (leb_not_nan_r _ _ Hlh) as Hhi.
  destruct (F32.ltb b lo) eqn:E1.
  - destruct (SFltb hi lo) eqn:E2.
    + apply ltb_not_leb in E2. unfold F32.leb in *. congruence.
    + intros _. split; [by apply leb_refl|done].
  - destruct (SFltb hi b) eqn:E2; intros Hb.
    + split; [done|by apply leb_refl].
    + split; by apply ltb_false_leb.
Qed.

(** X1.  While the PID controller is active (a PID target state exists
    and the sensor is above NONE) and the allocation bounds of the target
    state are ordered, [min_alloc_power <= max_alloc_power], the budget
    that [pidPowerCalculator] returns lies between the two bounds, unless
    it is NaN: a NaN sum passes both comparisons of the clamp
    unchanged. *)
Theorem pid_budget_within_allocation
    (temp : Temperature_2_0) (sensor_info : SensorInfo)
    (sensor_status : SensorStatus) (time_elapsed_ms : Z) :
  pid_target_state sensor_info sensor_status <> NONE ->
  severity sensor_status <> NONE ->
  F32.leb (min_alloc_power (throttling_info sensor_info)
                           (pid_target_state sensor_info sensor_status))
          (max_alloc_power (throttling_info sensor_info)
                           (pid_target_state sensor_info sensor_status)) = true ->
  isnan (pidPowerCalculator temp sensor_info sensor_status time_elapsed_ms).1 = false ->
  F32.leb (min_alloc_power (throttling_info sensor_info)
                           (pid_target_state sensor_info sensor_status))
          (pidPowerCalculator temp sensor_info sensor_status time_elapsed_ms).1 = true
  /\ F32.leb (pidPowerCalculator temp sensor_info sensor_status time_elapsed_ms).1
             (max_alloc_power (throttling_info sensor_info)
                              (pid_target_state sensor_info sensor_status)) = true.
Proof.
  intros Ht Hs Hlh. unfold pidPowerCalculator.
  rewrite (bool_decide_eq_false_2 _ Ht), (bool_decide_eq_false_2 _ Hs).
  cbn [orb]. cbv zeta.
  set (ti := throttling_info sensor_info) in *.
  set (t := pid_target_state sensor_info sensor_status) in *.
  destruct (F32.ltb (pid_err (value temp) sensor_info t) (i_cutoff ti t));
    [destruct (F32.ltb _ (i_max ti t))|]; cbn [fst];
    apply (clamp_between _ _ _ Hlh).
Qed.

Lemma pid_budget_within_allocation_witness :
  F32.leb (F32.of_Z 0)
          (pidPowerCalculator (reading 60) (scenario_sensor (F32.of_Z 20))
             (scenario_status MODERATE (F32.of_Z 5) (F32.of_Z 5)) 1000).1 = true
  /\ F32.leb (pidPowerCalculator (reading 60) (scenario_sensor (F32.of_Z 20))
                (scenario_status MODERATE (F32.of_Z 5) (F32.of_Z 5)) 1000).1
             (F32.of_Z 5000) = true.
Proof.
  apply (pid_budget_within_allocation (reading 60) (scenario_sensor (F32.of_Z 20))
           (scenario_status MODERATE (F32.of_Z 5) (F32.of_Z 5)) 1000);
    vm_compute; (reflexivity || discriminate).
Defined.

(** ** The table search of the power allocator *)

Lemma power2state_loop_spec (b : float) (l : list float) (j0 : nat) :
  l <> [] ->
  (j0 <= power2state_loop b l j0 < j0 + length l)%nat
  /\ (forall k p, l !! k = Some p -> (j0 + k < power2state_loop b l j0)%nat ->
                  F32.gtb b p = false)
  /\ ((S (power2state_loop b l j0) < j0 + length l)%nat ->
      exists p, l !! (power2state_loop b l j0 - j0)%nat = Some p
                /\ F32.gtb b p = true).
Proof.
  revert j0. induction l as [|p [|q rest] IH]; intros j0 Hne; [done| |].
  - cbn. split; [lia|]. split; [intros; lia|intros; lia].
  - change (power2state_loop b (p :: q :: rest) j0)
      with (if F32.gtb b p then j0 else power2state_loop b (q :: rest) (S j0)).
    destruct (F32.gtb b p) eqn:E.
    + split; [cbn; lia|]. split; [intros; lia|].
      intros _. exists p. by rewrite Nat.sub_diag.
    + destruct (IH (S j0)) as (Hr & Hbefore & Hat); [done|].
      set (j := power2state_loop b (q :: rest) (S j0)) in *.
      split; [cbn [length] in *; lia|]. split.
      * intros [|k] p' Hp' Hlt; cbn in Hp'; [congruence|].
        apply (Hbefore k p' Hp'). lia.
      * intros Hlt. destruct Hat as (p' & Hp' & Hgt); [cbn [length] in *; lia|].
        exists p'. split; [|done].
        replace (j - j0)%nat with (S (j - S j0)) by lia. done.
Qed.

Lemma power2state_loop_mono (b1 b2 : float) (l : list float) (j0 : nat) :
  F32.leb b1 b2 = true ->
  (power2state_loop b2 l j0 <= power2state_loop b1 l j0)%nat.
Proof.
  intros Hle. revert j0. induction l as [|p [|q rest] IH]; intros j0; [done|done|].
  change (power2state_loop b2 (p :: q :: rest) j0)
    with (if F32.gtb b2 p then j0 else power2state_loop b2 (q :: rest) (S j0)).
  change (power2state_loop b1 (p :: q :: rest) j0)
    with (if F32.gtb b1 p then j0 else power2state_loop b1 (q :: rest) (S j0)).
  destruct (F32.gtb b1 p) eqn:E1.
  - unfold F32.gtb in *. pose proof (ltb_leb_trans p b1 b2 E1 Hle) as E2.
    unfold F32.ltb in E2. by rewrite E2.
  - destruct (F32.gtb b2 p); [|apply IH].
    destruct (power2state_loop_spec b1 (q :: rest) (S j0)) as [? _]; [done|lia].
Qed.

Lemma allocator_row_in_table (b : float) (l : list float) :
  match power2state_index b l with
  | Some j => (j < length l)%nat
  | None => True
  end.
Proof.
  destruct l as [|p rest]; [done|]. unfold power2state_index.
  destruct (power2state_loop_spec b (p :: rest) 0) as [? _]; [done|lia].
Qed.

(** X2.  The state that the allocator picks in a power table is a row of
    the table, no row before it has a power strictly below the budget, and
    unless it is the last row its own power is strictly below the budget:
    the first row the budget exceeds, the last row when there is none.  An
    empty table has no defined result. *)
Theorem allocator_picks_first_row_below_budget
    (cdev_power_budget : float) (power2state : list float) :
  match power2state_index cdev_power_budget power2state with
  | None => power2state = []
  | Some j =>
      (j < length power2state)%nat
      /\ (forall k p, (k < j)%nat -> power2state !! k = Some p ->
                      F32.gtb cdev_power_budget p = false)
      /\ ((S j < length power2state)%nat ->
          exists p, power2state !! j = Some p
                    /\ F32.gtb cdev_power_budget p = true)
  end.
Proof.
  destruct power2state as [|p rest]; [done|].
  unfold power2state_index.
  destruct (power2state_loop_spec cdev_power_budget (p :: rest) 0)
    as (Hr & Hbefore & Hat); [done|].
  split; [lia|]. split.
  - intros k p' Hk Hp'. by apply (Hbefore k p' Hp').
  - intros Hlt. rewrite Nat.sub_0_r in Hat. apply Hat. lia.
Qed.

(** X3.  A larger budget never selects a deeper state: when
    [b1 <= b2], the row picked for [b2] is not after the row picked for
    [b1], whatever the table holds. *)
Theorem allocator_monotone_in_budget (b1 b2 : float) (power2state : list float) :
  F32.leb b1 b2 = true ->
  match power2state_index b1 power2state, power2state_index b2 power2state with
  | Some j1, Some j2 => (j2 <= j1)%nat
  | None, None => power2state = []
  | _, _ => False
  end.
Proof.
  intros Hle. destruct power2state as [|p rest]; [done|].
  unfold power2state_index. by apply power2state_loop_mono.
Qed.

Lemma allocator_monotone_in_budget_witness :
  match power2state_index (F32.of_Z 900) (power2state scenario_cdev),
        power2state_index (F32.of_Z 1200) (power2state scenario_cdev) with
  | Some j1, Some j2 => (j2 <= j1)%nat
  | None, None => power2state scenario_cdev = []
  | _, _ => False
  end.
Proof.
  apply (allocator_monotone_in_budget (F32.of_Z 900) (F32.of_Z 1200)
           (power2state scenario_cdev)).
  reflexivity.
Defined.

(** ** What requestCdevByPower stores *)

Lemma request_cdev_step_Some cdev_info ti budget weight m i m1 :
  request_cdev_step cdev_info ti budget weight (Some m) i = Some m1 ->
  exists name,
    cdev_request ti !! i = Some name
    /\ ((name = "" /\ m1 = m)
        \/ (name <> ""
            /\ exists info j,
                cdev_info !! name = Some info
                /\ (j < length (power2state info))%nat
                /\ m1 = <[name := Z.of_nat j]> m)).
Proof.
  unfold request_cdev_step. cbn [mbind option_bind].
  destruct (cdev_request ti !! i) as [name|]; [|done]. cbn [mbind option_bind].
  intros H. exists name. split; [done|].
  destruct (decide (name = "")) as [->|Hne].
  - left. split; [done|].
    rewrite bool_decide_eq_false_2 in H by (by intros ?). congruence.
  - right. split; [done|].
    rewrite (bool_decide_eq_true_2 _ Hne) in H.
    destruct (cdev_weight ti !! i) as [w|]; [|done]. cbn [mbind option_bind] in H.
    destruct (cdev_info !! name) as [info|]; [|done]. cbn [mbind option_bind] in H.
    pose proof (allocator_row_in_table (F32.mul budget (F32.div w weight))
                  (power2state info)) as Hrow.
    destruct (power2state_index _ (power2state info)) as [j|]; [|done].
    cbn [mbind option_bind] in H.
    destruct (m !! name); [|done]. cbn [mbind option_bind] in H.
    exists info, j. split; [done|]. split; [done|congruence].
Qed.

Lemma request_cdev_fold_values cdev_info ti budget weight (l : list nat)
    (m m' : gmap string Z) :
  foldl (request_cdev_step cdev_info ti budget weight) (Some m) l = Some m' ->
  (forall c, (forall i, i ∈ l -> cdev_request ti !! i = Some c -> c = "") ->
             m' !! c = m !! c)
  /\ (forall c i, i ∈ l -> cdev_request ti !! i = Some c -> c <> "" ->
        exists info j,
          cdev_info !! c = Some info
          /\ m' !! c = Some (Z.of_nat j)
          /\ (j < length (power2state info))%nat).
Proof.
  revert m. induction l as [|i l IH]; intros m Hfold.
  { injection Hfold as <-. split; [done|]. intros c i Hi. by apply elem_of_nil in Hi. }
  cbn [foldl] in Hfold.
  destruct (request_cdev_step cdev_info ti budget weight (Some m) i) as [m1|] eqn:Hstep;
    [|by rewrite foldl_None in Hfold].
  destruct (IH _ Hfold) as [IH1 IH2].
  apply request_cdev_step_Some in Hstep as (name & Hname & Hstep).
  assert (forall c, c <> name \/ name = "" -> m1 !! c = m !! c) as Hother.
  { intros c Hc. destruct Hstep as [[_ ->]|(Hne & info & j & _ & _ & ->)]; [done|].
    destruct Hc as [Hc|Hc]; [by rewrite lookup_insert_ne|done]. }
  split.
  - intros c Hc. rewrite IH1.
    + apply Hother. destruct (decide (c = name)) as [->|]; [right|by left].
      apply (Hc i); [left|done].
    + intros i' Hi'. apply Hc. by right.
  - intros c i' Hi' Hc Hne.
    destruct (decide (Exists (fun k => cdev_request ti !! k = Some c) l)) as [Hex|Hex].
    + apply Exists_exists in Hex as (k & Hk & Hkc). by apply (IH2 c k).
    + rewrite IH1.
      2:{ intros k Hk Hkc. destruct Hex. apply Exists_exists. by exists k. }
      apply elem_of_cons in Hi' as [->|Hi'].
      2:{ destruct Hex. apply Exists_exists. by exists i'. }
      rewrite Hname in Hc. injection Hc as ->.
      destruct Hstep as [[-> _]|(_ & info & j & Hinfo & Hj & ->)]; [done|].
      exists info, j. by rewrite lookup_insert_eq.
Qed.

(** X4.  When [requestCdevByPower] returns true it has changed nothing
    of the status but [pid_request_map]; there, every entry that is not a
    device listed in [cdev_request] (and the entry of the empty name) is as
    before, and every listed device with a non-empty name is known to
    [cooling_device_info_map_] and now holds a valid row index of its own
    power table. *)
Theorem pid_requests_are_table_rows
    (cdev_info : gmap string CdevInfo) (sensor_status : SensorStatus)
    (sensor_info : SensorInfo) (total_power_budget : float) (st' : SensorStatus) :
  requestCdevByPower cdev_info sensor_status sensor_info total_power_budget
  = Some (true, st') ->
  st' = set_pid_request_map sensor_status (pid_request_map st')
  /\ (forall c, c ∉ cdev_request (throttling_info sensor_info) \/ c = "" ->
                pid_request_map st' !! c = pid_request_map sensor_status !! c)
  /\ (forall c, c ∈ cdev_request (throttling_info sensor_info) -> c <> "" ->
        exists info j,
          cdev_info !! c = Some info
          /\ pid_request_map st' !! c = Some j
          /\ 0 <= j < Z.of_nat (length (power2state info))).
Proof.
  unfold requestCdevByPower.
  destruct (total_weight_of _) as [w|]; cbn [mbind option_bind]; [|done].
  destruct (is_zero w); [done|].
  destruct (foldl _ _ _) as [m|] eqn:Hfold; cbn [mbind option_bind]; [|done].
  intros [= <-]. cbn [pid_request_map set_pid_request_map].
  apply request_cdev_fold_values in Hfold as [H1 H2].
  split; [done|]. split.
  - intros c Hc. apply H1. intros i _ Hi.
    destruct Hc as [Hc|Hc]; [|done]. destruct Hc.
    apply list_elem_of_lookup. by exists i.
  - intros c Hc Hne. apply list_elem_of_lookup in Hc as [i Hi].
    destruct (H2 c i) as (info & j & Hinfo & Hj & Hlt); [|done|done|].
    { apply elem_of_seq. apply lookup_lt_Some in Hi. lia. }
    exists info, (Z.of_nat j). split; [done|]. split; [done|lia].
Qed.

Lemma pid_requests_are_table_rows_witness :
  (exists st',
      requestCdevByPower scenario_cdev_info
        (scenario_status MODERATE (F32.of_Z 0) NAN)
        (scenario_sensor (F32.of_Z 20)) (F32.of_Z 900) = Some (true, st')
      /\ forall c, c ∈ cdev_request (throttling_info (scenario_sensor (F32.of_Z 20))) ->
                   c <> "" ->
           exists info j,
             scenario_cdev_info !! c = Some info
             /\ pid_request_map st' !! c = Some j
             /\ 0 <= j < Z.of_nat (length (power2state info))).
Proof.
  eexists. split; [vm_compute; reflexivity|].
  refine (proj2 (proj2 (pid_requests_are_table_rows scenario_cdev_info
            (scenario_status MODERATE (F32.of_Z 0) NAN)
            (scenario_sensor (F32.of_Z 20)) (F32.of_Z 900) _ _))).
  vm_compute. reflexivity.
Defined.

(** ** requestCdevBySeverity *)

Lemma limit_fold (target : ThrottlingSeverity) (l : list (string * CdevArray))
    (m m' : gmap string Z) :
  NoDup l.*1 ->
  foldl (fun acc (limit_info_pair : string * CdevArray) =>
           m ← acc;
           _ ← m !! limit_info_pair.1;
           Some (<[limit_info_pair.1 := limit_info_pair.2 target]> m))
        (Some m) l = Some m' ->
  (forall c, c ∉ l.*1 -> m' !! c = m !! c)
  /\ (forall c states, (c, states) ∈ l -> m' !! c = Some (states target)).
Proof.
  revert m. induction l as [|[cdev states] l IH]; intros m Hnd Hfold.
  { injection Hfold as <-. split; [done|]. intros c a Hin. by apply elem_of_nil in Hin. }
  apply NoDup_cons in Hnd as [Hnotin Hnd].
  cbn [foldl mbind option_bind fst snd] in Hfold.
  destruct (m !! cdev) as [old|] eqn:Hold; cbn [mbind option_bind] in Hfold;
    [|by rewrite foldl_None in Hfold].
  destruct (IH _ Hnd Hfold) as [IH1 IH2]. split.
  - intros c Hc. cbn [fmap list_fmap fst] in Hc. apply not_elem_of_cons in Hc as [Hne Hc].
    rewrite (IH1 c Hc). by rewrite lookup_insert_ne.
  - intros c a Hin. apply elem_of_cons in Hin as [Heq|Hin].
    + injection Heq as -> ->. rewrite (IH1 cdev Hnotin). by rewrite lookup_insert_eq.
    + by apply IH2.
Qed.

Lemma limit_fold_is_Some (target : ThrottlingSeverity) (l : list (string * CdevArray))
    (m : gmap string Z) :
  is_Some (foldl (fun acc (limit_info_pair : string * CdevArray) =>
                    m ← acc;
                    _ ← m !! limit_info_pair.1;
                    Some (<[limit_info_pair.1 := limit_info_pair.2 target]> m))
                 (Some m) l)
  <-> forall c, c ∈ l.*1 -> is_Some (m !! c).
Proof.
  revert m. induction l as [|[cdev states] l IH]; intros m.
  { split; [|by eexists]. intros _ c Hc. by apply elem_of_nil in Hc. }
  cbn [foldl mbind option_bind fst snd fmap list_fmap].
  destruct (m !! cdev) as [old|] eqn:Hold; cbn [mbind option_bind].
  - rewrite IH. split.
    + intros H c Hc. apply elem_of_cons in Hc as [->|Hc]; [by eexists|].
      specialize (H c Hc). destruct (decide (c = cdev)) as [->|Hne]; [by eexists|].
      by rewrite lookup_insert_ne in H.
    + intros H c Hc. destruct (decide (c = cdev)) as [->|Hne].
      * rewrite lookup_insert_eq. by eexists.
      * rewrite lookup_insert_ne by done. apply H. by right.
  - rewrite foldl_None by done. split; [by intros [? ?]|].
    intros H. destruct (H cdev) as [? Hc]; [by left|congruence].
Qed.

(** X5.  The hard-limit target state is the highest severity marked
    LIMIT among those above NONE and not above the sensor's current
    severity, and NONE when no such severity is marked. *)
Theorem hard_limit_target_is_highest_limit_level
    (tt : SevArray ThrottleType) (cur : ThrottlingSeverity) :
  sev_ltb cur (hard_limit_target_loop tt cur severities_high_to_low) = false
  /\ (hard_limit_target_loop tt cur severities_high_to_low <> NONE ->
      tt (hard_limit_target_loop tt cur severities_high_to_low) = LIMIT)
  /\ (forall i,
         sev_ltb (hard_limit_target_loop tt cur severities_high_to_low) i = true ->
         sev_ltb cur i = false -> tt i <> LIMIT).
Proof.
  destruct cur; cbn;
    repeat (match goal with
            | |- context [bool_decide (tt ?s = LIMIT)] =>
                destruct (decide (tt s = LIMIT));
                [rewrite (bool_decide_eq_true_2 (tt s = LIMIT)) by done
                |rewrite (bool_decide_eq_false_2 (tt s = LIMIT)) by done]
            end; cbn);
    (split; [done|]); (split; [done|]); intros []; cbn; done.
Qed.

(** X6.  [requestCdevBySeverity] has a defined result exactly when every
    device of [limit_info] has an entry in [hard_limit_request_map].  It
    then changes nothing but that map, where every device of [limit_info]
    holds its configured state for the target severity and every other
    entry is as before. *)
Theorem hard_limit_requests_follow_limit_info
    (sensor_status : SensorStatus) (sensor_info : SensorInfo) :
  (is_Some (requestCdevBySeverity sensor_status sensor_info)
   <-> forall c, is_Some (limit_info (throttling_info sensor_info) !! c) ->
                 is_Some (hard_limit_request_map sensor_status !! c))
  /\ forall st',
      requestCdevBySeverity sensor_status sensor_info = Some st' ->
      st' = set_hard_limit_request_map sensor_status (hard_limit_request_map st')
      /\ forall c,
          hard_limit_request_map st' !! c
          = match limit_info (throttling_info sensor_info) !! c with
            | Some states =>
                Some (states (hard_limit_target_loop
                                (throttle_type (throttling_info sensor_info))
                                (severity sensor_status) severities_high_to_low))
            | None => hard_limit_request_map sensor_status !! c
            end.
Proof.
  unfold requestCdevBySeverity.
  set (target := hard_limit_target_loop _ _ _).
  set (f := fun (acc : option (gmap string Z)) (limit_info_pair : string * CdevArray) =>
              m ← acc; _ ← m !! limit_info_pair.1;
              Some (<[limit_info_pair.1 := limit_info_pair.2 target]> m)).
  split.
  - pose proof (limit_fold_is_Some target
                  (map_to_list (limit_info (throttling_info sensor_info)))
                  (hard_limit_request_map sensor_status)) as Hiff.
    fold f in Hiff. split.
    + intros Hsome c Hc. apply Hiff; [|by apply elem_of_map_keys].
      destruct (foldl f _ _); [by eexists|]. by destruct Hsome.
    + intros Hall. destruct (proj2 Hiff) as [m' ->]; [|by eexists].
      intros c Hc. apply Hall. by apply elem_of_map_keys.
  - intros st'.
    destruct (foldl f _ _) as [m'|] eqn:Hfold; cbn [mbind option_bind]; [|done].
    intros [= <-]. cbn [hard_limit_request_map set_hard_limit_request_map].
    split; [done|]. intros c.
    apply limit_fold in Hfold as [H1 H2]; [|apply NoDup_fst_map_to_list].
    destruct (limit_info (throttling_info sensor_info) !! c) as [states|] eqn:Hc.
    + apply H2. by apply elem_of_map_to_list.
    + apply H1. intros [x Hx]%elem_of_map_keys.
      unfold CdevArray, SevArray in *. congruence.
Qed.

(** ** The constructor *)

Lemma init_requests_is_Some (cdev_info : gmap string CdevInfo) name
    (cdevs : list string) (m0 : gmap string Z) cm0 :
  is_Some (foldl (fun acc cdev =>
                    '(m, cm) ← acc; _ ← cdev_info !! cdev;
                    Some (<[cdev := 0]> m, register_request name cdev cm))
                 (Some (m0, cm0)) cdevs)
  <-> forall c, c ∈ cdevs -> is_Some (cdev_info !! c).
Proof.
  revert m0 cm0. induction cdevs as [|cdev l IH]; intros m0 cm0.
  { split; [|by eexists]. intros _ c Hc. by apply elem_of_nil in Hc. }
  cbn [foldl mbind option_bind].
  destruct (cdev_info !! cdev) as [info|] eqn:Hinfo; cbn [mbind option_bind].
  - rewrite IH. split.
    + intros H c [->|Hc]%elem_of_cons; [by eexists|by apply H].
    + intros H c Hc. apply H. by right.
  - rewrite foldl_None by done. split; [by intros [? ?]|].
    intros H. destruct (H cdev) as [? Hc]; [by left|congruence].
Qed.

Lemma init_sensor_is_Some cdev_info sm cm name info :
  is_Some (init_sensor cdev_info (Some (sm, cm)) (name, info))
  <-> forall c, references info c -> is_Some (cdev_info !! c).
Proof.
  unfold init_sensor, init_requests, references. cbn [mbind option_bind fst snd].
  pose proof (init_requests_is_Some cdev_info name
                (cdev_request (throttling_info info)) ∅ cm) as Hpid.
  destruct (foldl _ (Some (∅, cm)) (cdev_request _)) as [[pid_map cm1]|];
    cbn [mbind option_bind].
  - pose proof (init_requests_is_Some cdev_info name
                  (map_to_list (limit_info (throttling_info info))).*1 ∅ cm1) as Hlim.
    destruct (foldl _ (Some (∅, cm1)) _) as [[limit_map cm2]|];
      cbn [mbind option_bind].
    + split; [|by eexists]. intros _ c [Hc|Hc].
      * apply Hpid; [by eexists|done].
      * apply Hlim; [by eexists|by apply elem_of_map_keys].
    + split; [by intros [? ?]|]. intros H.
      destruct (proj2 Hlim) as [? ?]; [|done].
      intros c Hc. apply H. right. by apply elem_of_map_keys.
  - split; [by intros [? ?]|]. intros H.
    destruct (proj2 Hpid) as [? ?]; [|done].
    intros c Hc. apply H. by left.
Qed.

Lemma init_fold_is_Some cdev_info (sensors : list (string * SensorInfo)) sm cm :
  is_Some (foldl (init_sensor cdev_info) (Some (sm, cm)) sensors)
  <-> forall name info c,
        (name, info) ∈ sensors -> references info c -> is_Some (cdev_info !! c).
Proof.
  revert sm cm. induction sensors as [|[name info] l IH]; intros sm cm.
  { split; [|by eexists]. intros _ n i c Hin. by apply elem_of_nil in Hin. }
  cbn [foldl].
  pose proof (init_sensor_is_Some cdev_info sm cm name info) as Hstep.
  destruct (init_sensor cdev_info (Some (sm, cm)) (name, info)) as [[sm1 cm1]|].
  - rewrite IH. split.
    + intros H n i c [Heq|Hin]%elem_of_cons Href.
      * injection Heq as -> ->. apply Hstep; [by eexists|done].
      * by apply (H n i c).
    + intros H n i c Hin Href. apply (H n i c); [by right|done].
  - rewrite foldl_None by (by intros []). split; [by intros [? ?]|].
    intros H. destruct (proj2 Hstep) as [? ?]; [|done].
    intros c Href. apply (H name info c); [by left|done].
Qed.

(** X7.  The constructor completes its loop over the sensors exactly
    when every cooling device that a sensor references, through
    [cdev_request] or through [limit_info], is a key of
    [cooling_device_info_map_]; otherwise it stops at [LOG(FATAL)]. *)
Theorem constructor_needs_known_cooling_devices
    (cdev_info : gmap string CdevInfo) (sensor_info : gmap string SensorInfo) :
  is_Some (ThermalHelper_init cdev_info sensor_info)
  <-> forall name info c,
        sensor_info !! name = Some info -> references info c ->
        is_Some (cdev_info !! c).
Proof.
  unfold ThermalHelper_init.
  pose proof (init_fold_is_Some cdev_info (map_to_list sensor_info) ∅ ∅) as Hiff.
  destruct (foldl _ _ _) as [[sm cm]|]; cbn [mbind option_bind].
  - split; [|by eexists]. intros _ name info c Hinfo.
    apply (proj1 Hiff (ltac:(by eexists)) name info c). by apply elem_of_map_to_list.
  - split; [by intros [? ?]|]. intros H.
    destruct (proj2 Hiff) as [? ?]; [|done].
    intros name info c Hin. apply (H name info c). by apply elem_of_map_to_list.
Qed.

(** A status as the constructor leaves it: NONE everywhere, an empty PID
    memory, and request maps that hold nothing but 0. *)
Lemma init_sensor_fresh cdev_info sm0 cm0 name info sm cm :
  init_sensor cdev_info (Some (sm0, cm0)) (name, info) = Some (sm, cm) ->
  exists st,
    sm = <[name := st]> sm0
    /\ st = set_hard_limit_request_map
              (set_pid_request_map initial_status (pid_request_map st))
              (hard_limit_request_map st)
    /\ (forall c v, pid_request_map st !! c = Some v -> v = 0)
    /\ (forall c v, hard_limit_request_map st !! c = Some v -> v = 0).
Proof.
  unfold init_sensor, init_requests. cbn [mbind option_bind fst snd].
  destruct (foldl _ (Some (∅, cm0)) (cdev_request _)) as [[pid_map cm1]|] eqn:Hpid;
    cbn [mbind option_bind]; [|done].
  destruct (foldl _ (Some (∅, cm1)) _) as [[limit_map cm2]|] eqn:Hlim;
    cbn [mbind option_bind]; [|done].
  intros [= <- <-].
  destruct (init_requests_fold_zero _ _ _ _ _ _ _ Hpid) as [P1 _].
  destruct (init_requests_fold_zero _ _ _ _ _ _ _ Hlim) as [L1 _].
  eexists. split; [reflexivity|].
  cbn [pid_request_map hard_limit_request_map set_hard_limit_request_map
       set_pid_request_map].
  split; [done|]. split.
  - intros c v Hv. destruct (P1 c v Hv) as [?|H]; [done|by rewrite lookup_empty in H].
  - intros c v Hv. destruct (L1 c v Hv) as [?|H]; [done|by rewrite lookup_empty in H].
Qed.

Lemma init_fold_fresh cdev_info (sensors : list (string * SensorInfo)) sm0 cm0 sm cm :
  foldl (init_sensor cdev_info) (Some (sm0, cm0)) sensors = Some (sm, cm) ->
  forall name st,
    sm !! name = Some st ->
    sm0 !! name = Some st
    \/ (st = set_hard_limit_request_map
               (set_pid_request_map initial_status (pid_request_map st))
               (hard_limit_request_map st)
        /\ (forall c v, pid_request_map st !! c = Some v -> v = 0)
        /\ (forall c v, hard_limit_request_map st !! c = Some v -> v = 0)).
Proof.
  revert sm0 cm0. induction sensors as [|[name info] l IH]; intros sm0 cm0 Hfold n st Hst.
  { injection Hfold as <- <-. by left. }
  cbn [foldl] in Hfold.
  destruct (init_sensor cdev_info (Some (sm0, cm0)) (name, info)) as [[sm1 cm1]|] eqn:Hstep.
  2:{ rewrite foldl_None in Hfold; [done|]. by intros []. }
  apply init_sensor_fresh in Hstep as (st1 & -> & Hfresh).
  destruct (IH _ _ Hfold n st Hst) as [H|H]; [|by right].
  destruct (decide (n = name)) as [->|Hne].
  - rewrite lookup_insert_eq in H. injection H as <-. by right.
  - rewrite lookup_insert_ne in H by done. by left.
Qed.

(** X8.  What the loop of the constructor over the configured sensors
    leaves in the two status maps: a status for exactly the configured
    sensors, each with severity NONE (current, previous hot, previous cold
    and previous hint), integral 0, no previous error, update time 0 and
    request maps that hold only 0, and only 0 recorded for every cooling
    device. *)
Theorem constructor_initial_state
    (cdev_info : gmap string CdevInfo) (sensor_info : gmap string SensorInfo)
    (h : ThermalHelper) :
  ThermalHelper_init cdev_info sensor_info = Some h ->
  (forall name, is_Some (sensor_status_map_ h !! name) <-> is_Some (sensor_info !! name))
  /\ (forall name st,
         sensor_status_map_ h !! name = Some st ->
         severity st = NONE /\ prev_hot_severity st = NONE
         /\ prev_cold_severity st = NONE /\ prev_hint_severity st = NONE
         /\ err_integral st = F32.of_Z 0 /\ prev_err st = NAN
         /\ last_update_time st = 0
         /\ (forall c v, pid_request_map st !! c = Some v -> v = 0)
         /\ (forall c v, hard_limit_request_map st !! c = Some v -> v = 0))
  /\ (forall c name v, recorded_request (cdev_status_map_ h) c name = Some v -> v = 0).
Proof.
  unfold ThermalHelper_init.
  destruct (foldl _ _ _) as [[sm cm]|] eqn:Hfold; cbn [mbind option_bind]; [|done].
  intros [= <-].
  cbn [cooling_device_info_map_ sensor_info_map_ sensor_status_map_ cdev_status_map_].
  destruct (init_fold _ _ _ _ _ _ (NoDup_fst_map_to_list _) Hfold) as (I1 & I2 & _).
  pose proof (init_fold_fresh _ _ _ _ _ _ Hfold) as Hfresh.
  destruct (init_fold_zero _ _ _ _ _ _ Hfold) as [_ Hzero].
  split; [|split].
  - intros name. split.
    + intros Hst. destruct (sensor_info !! name) as [info|] eqn:Hinfo; [by eexists|].
      rewrite I1 in Hst; [by rewrite lookup_empty in Hst|].
      rewrite elem_of_map_keys, Hinfo. by intros [? ?].
    + intros [info Hinfo]. destruct (I2 name info) as (st & Hst & _); [|by eexists].
      by apply elem_of_map_to_list.
  - intros name st Hst. destruct (Hfresh name st Hst) as [H|(Heq & Hp & Hl)].
    { by rewrite lookup_empty in H. }
    rewrite Heq. cbn. repeat (split; [reflexivity|]). split.
    + intros c v. rewrite Heq in Hp. apply Hp.
    + intros c v. rewrite Heq in Hl. apply Hl.
  - intros c name v Hv. destruct (Hzero c name v Hv) as [?|H]; [done|].
    unfold recorded_request in H. by rewrite lookup_empty in H.
Qed.

Lemma constructor_initial_state_witness :
  (forall name, is_Some (sensor_status_map_ two_sensor_helper !! name)
                <-> is_Some (two_sensor_info !! name))
  /\ (forall name st,
         sensor_status_map_ two_sensor_helper !! name = Some st ->
         severity st = NONE /\ prev_hot_severity st = NONE
         /\ prev_cold_severity st = NONE /\ prev_hint_severity st = NONE
         /\ err_integral st = F32.of_Z 0 /\ prev_err st = NAN
         /\ last_update_time st = 0
         /\ (forall c v, pid_request_map st !! c = Some v -> v = 0)
         /\ (forall c v, hard_limit_request_map st !! c = Some v -> v = 0))
  /\ (forall c name v,
         recorded_request (cdev_status_map_ two_sensor_helper) c name = Some v -> v = 0).
Proof.
  apply (constructor_initial_state scenario_cdev_info two_sensor_info two_sensor_helper).
  vm_compute. reflexivity.
Defined.

(** ** The scheduler: what one run does to each sensor *)

Lemma same_severities_refl st : same_severities st st.
Proof. by repeat split. Qed.

Lemma same_severities_trans st1 st2 st3 :
  same_severities st1 st2 -> same_severities st2 st3 -> same_severities st1 st3.
Proof.
  intros (A1 & A2 & A3 & A4 & A5) (B1 & B2 & B3 & B4 & B5).
  repeat split; congruence.
Qed.

Lemma pidPowerCalculator_severities temp sensor_info st time_elapsed_ms :
  same_severities st (pidPowerCalculator temp sensor_info st time_elapsed_ms).2.
Proof.
  unfold pidPowerCalculator. cbv zeta.
  destruct (_ || _); [by repeat split|].
  destruct (F32.ltb (pid_err _ _ _) _); [destruct (F32.ltb _ _)|]; by repeat split.
Qed.

Lemma requestCdevByPower_severities cdev_info st sensor_info budget ok st' :
  requestCdevByPower cdev_info st sensor_info budget = Some (ok, st') ->
  same_severities st st'.
Proof.
  unfold requestCdevByPower.
  destruct (total_weight_of _) as [w|]; cbn [mbind option_bind]; [|done].
  destruct (is_zero w); [intros [= <- <-]; apply same_severities_refl|].
  destruct (foldl _ _ _) as [m|]; cbn [mbind option_bind]; [|done].
  intros [= <- <-]. by repeat split.
Qed.

Lemma requestCdevBySeverity_severities st sensor_info st' :
  requestCdevBySeverity st sensor_info = Some st' -> same_severities st st'.
Proof.
  unfold requestCdevBySeverity.
  destruct (foldl _ _ _) as [m|]; cbn [mbind option_bind]; [|done].
  intros [= <-]. by repeat split.
Qed.

Lemma throttle_sensor_severities h name sensor_info st temp time_elapsed_ms upd
    st' cm' upd' :
  throttle_sensor h name sensor_info st temp time_elapsed_ms upd = Some (st', cm', upd') ->
  same_severities st st'.
Proof.
  unfold throttle_sensor.
  destruct (if bool_decide (size (pid_request_map st) ≠ 0%nat) then _ else _)
    as [st1|] eqn:Hpid; cbn [mbind option_bind]; [|done].
  destruct (if bool_decide (size (hard_limit_request_map st1) ≠ 0%nat) then _ else _)
    as [st2|] eqn:Hlim; cbn [mbind option_bind]; [|done].
  destruct (if _ || _ then _ else _) as [[cm2 upd2]|]; cbn [mbind option_bind]; [|done].
  intros [= <- <- <-].
  apply (same_severities_trans _ st1).
  - destruct (bool_decide (size (pid_request_map st) ≠ 0%nat)).
    + pose proof (pidPowerCalculator_severities temp sensor_info st time_elapsed_ms) as Hp.
      destruct (pidPowerCalculator temp sensor_info st time_elapsed_ms) as [b st0].
      destruct (requestCdevByPower _ st0 _ _) as [[ok st0']|] eqn:Hreq;
        cbn [mbind option_bind] in Hpid; [|done].
      injection Hpid as <-. cbn [snd] in *.
      apply (same_severities_trans _ st0); [done|].
      by apply (requestCdevByPower_severities _ _ _ _ _ _ Hreq).
    + injection Hpid as <-. apply same_severities_refl.
  - destruct (bool_decide (size (hard_limit_request_map st1) ≠ 0%nat)).
    + by apply (requestCdevBySeverity_severities _ _ _ Hlim).
    + injection Hlim as <-. apply same_severities_refl.
Qed.

Lemma readTemperature_name fs h name v temp ts :
  readTemperature fs h name v = Some (Some (temp, ts)) -> temp_name temp = name.
Proof.
  unfold readTemperature.
  destruct (if negb v then _ else _) as [[t|]|]; cbn [mbind option_bind]; [|done|done].
  destruct (sensor_info_map_ h !! name) as [info|]; cbn [mbind option_bind]; [|done].
  destruct (negb (stof_converts fs t)); [done|].
  destruct (if is_monitor info then _ else _) as [status|]; cbn [mbind option_bind];
    [|done].
  by intros [= <- <-].
Qed.

Lemma min_sleep_vote (m x : Z) :
  (if bool_decide (m > x) then x else m) <= m
  /\ (if bool_decide (m > x) then x else m) <= x.
Proof. case_bool_decide; lia. Qed.

Lemma watch_sensor_own fs now uevent_sensors h loc name h' loc' :
  watch_sensor fs now uevent_sensors (Some (h, loc)) name = Some (h', loc') ->
  sensor_info_map_ h' = sensor_info_map_ h
  /\ cooling_device_info_map_ h' = cooling_device_info_map_ h
  /\ min_sleep_ms loc' <= min_sleep_ms loc
  /\ exists st info st',
      sensor_status_map_ h !! name = Some st
      /\ sensor_info_map_ h !! name = Some info
      /\ sensor_status_map_ h' = <[name := st']> (sensor_status_map_ h)
      /\ match sampled fs now uevent_sensors h name with
         | None =>
             st' = st /\ temps loc' = temps loc
             /\ (is_monitor info = true ->
                 not_due now uevent_sensors name info st = true ->
                 min_sleep_ms loc'
                 <= sensor_delay info (severity st) - (now - last_update_time st))
         | Some (temp, ts) =>
             severity st' = throttlingStatus temp
             /\ prev_hot_severity st' = ts.1
             /\ prev_cold_severity st' = ts.2
             /\ prev_hint_severity st' = prev_hint_severity st
             /\ last_update_time st' = now
             /\ min_sleep_ms loc' <= sensor_delay info (severity st')
             /\ temps loc'
                = temps loc ++ (if bool_decide (throttlingStatus temp ≠ severity st)
                                then [temp] else [])
             /\ temp_name temp = name
         end.
Proof.
  unfold watch_sensor, sampled. cbn [mbind option_bind].
  destruct (sensor_status_map_ h !! name) as [st|] eqn:Hst; cbn [mbind option_bind]; [|done].
  destruct (sensor_info_map_ h !! name) as [info|] eqn:Hinfo; cbn [mbind option_bind]; [|done].
  destruct (is_monitor info) eqn:Hmon; cbn [negb andb].
  2:{ intros [= <- <-]. split; [done|]. split; [done|]. split; [lia|]. exists st, info, st.
      rewrite insert_id by done. repeat split; try done. congruence. }
  fold (sensor_delay info (severity st)).
  fold (not_due now uevent_sensors name info st).
  destruct (not_due now uevent_sensors name info st) eqn:Hdue; cbn [negb].
  { intros [= <- <-]. cbn [min_sleep_ms temps].
    split; [done|]. split; [done|]. split; [apply min_sleep_vote|].
    exists st, info, st. rewrite insert_id by done.
    repeat split; try done. intros _ _. apply min_sleep_vote. }
  pose proof (fun v => readTemperature_name fs h name v) as Hname.
  specialize (Hname (is_virtual_sensor info)).
  destruct (readTemperature fs h name (is_virtual_sensor info))
    as [[[temp ts]|]|]; cbn [mbind option_bind]; [| |done].
  2:{ intros [= <- <-]. split; [done|]. split; [done|]. split; [lia|]. exists st, info, st.
      rewrite insert_id by done. repeat split; try done. congruence. }
  destruct (throttle_sensor _ _ _ _ _ _ _) as [[[st2 cm2] upd2]|] eqn:Hthr;
    cbn [mbind option_bind]; [|done].
  intros [= <- <-].
  cbn [sensor_info_map_ cooling_device_info_map_ sensor_status_map_ set_status_maps
       min_sleep_ms temps].
  split; [done|]. split; [done|]. split; [apply min_sleep_vote|].
  apply throttle_sensor_severities in Hthr as (S1 & S2 & S3 & S4 & S5).
  cbn [severity prev_hot_severity prev_cold_severity prev_hint_severity
       last_update_time set_severities] in *.
  exists st, info, (set_last_update_time st2 now). split; [done|]. split; [done|].
  split; [done|].
  cbn [severity prev_hot_severity prev_cold_severity prev_hint_severity
       last_update_time set_last_update_time].
  rewrite S1, S2, S3, S4.
  do 5 (split; [done|]). split; [|split].
  - etrans; [apply min_sleep_vote|].
    destruct (decide (throttlingStatus temp ≠ severity st)) as [Hch|Hch].
    + rewrite (bool_decide_eq_true_2 _ Hch). unfold sensor_delay. done.
    + rewrite (bool_decide_eq_false_2 _ Hch). apply dec_stable in Hch.
      rewrite Hch. done.
  - destruct (bool_decide (throttlingStatus temp ≠ severity st)); [done|].
    by rewrite app_nil_r.
  - exact (Hname _ _ eq_refl).
Qed.

Lemma readTemperature_ext fs h h0 name v :
  sensor_info_map_ h = sensor_info_map_ h0 ->
  sensor_status_map_ h !! name = sensor_status_map_ h0 !! name ->
  readTemperature fs h name v = readTemperature fs h0 name v.
Proof.
  intros Hinfo Hst. unfold readTemperature, checkVirtualSensor.
  by rewrite Hinfo, Hst.
Qed.

Lemma sampled_ext fs now uevent_sensors h h0 name :
  sensor_info_map_ h = sensor_info_map_ h0 ->
  sensor_status_map_ h !! name = sensor_status_map_ h0 !! name ->
  sampled fs now uevent_sensors h name = sampled fs now uevent_sensors h0 name.
Proof.
  intros Hinfo Hst. unfold sampled.
  assert (forall v, readTemperature fs h name v = readTemperature fs h0 name v) as Hr
    by (intros v; by apply readTemperature_ext).
  rewrite Hinfo, Hst.
  destruct (sensor_status_map_ h0 !! name) as [st|]; cbn [mbind option_bind]; [|done].
  destruct (sensor_info_map_ h0 !! name) as [info|]; cbn [mbind option_bind]; [|done].
  by rewrite Hr.
Qed.

(** The loop over the sensors, seen from each sensor: its final status,
    its vote on the sleep time and its notification are decided by the
    reading taken of it against the state at the start of the run. *)
Lemma watch_fold_own fs now uevent_sensors (names : list string) h0 loc0 h1 loc1 :
  NoDup names ->
  foldl (watch_sensor fs now uevent_sensors) (Some (h0, loc0)) names = Some (h1, loc1) ->
  sensor_info_map_ h1 = sensor_info_map_ h0
  /\ cooling_device_info_map_ h1 = cooling_device_info_map_ h0
  /\ min_sleep_ms loc1 <= min_sleep_ms loc0
  /\ (forall n, n ∉ names -> sensor_status_map_ h1 !! n = sensor_status_map_ h0 !! n)
  /\ (forall n, n ∈ names ->
        exists st info st',
          sensor_status_map_ h0 !! n = Some st
          /\ sensor_info_map_ h0 !! n = Some info
          /\ sensor_status_map_ h1 !! n = Some st'
          /\ match sampled fs now uevent_sensors h0 n with
             | None =>
                 st' = st
                 /\ (is_monitor info = true ->
                     not_due now uevent_sensors n info st = true ->
                     min_sleep_ms loc1
                     <= sensor_delay info (severity st) - (now - last_update_time st))
             | Some (temp, ts) =>
                 severity st' = throttlingStatus temp
                 /\ prev_hot_severity st' = ts.1
                 /\ prev_cold_severity st' = ts.2
                 /\ prev_hint_severity st' = prev_hint_severity st
                 /\ last_update_time st' = now
                 /\ min_sleep_ms loc1 <= sensor_delay info (severity st')
             end)
  /\ exists new,
      temps loc1 = temps loc0 ++ new
      /\ forall temp,
          temp ∈ new <->
          exists n ts st,
            n ∈ names
            /\ sampled fs now uevent_sensors h0 n = Some (temp, ts)
            /\ sensor_status_map_ h0 !! n = Some st
            /\ temp_name temp = n
            /\ throttlingStatus temp ≠ severity st.
Proof.
  intros Hnodup. revert h0 loc0.
  induction names as [|name l IH]; intros h0 loc0 Hfold.
  { injection Hfold as <- <-. do 2 (split; [done|]). split; [lia|]. split; [done|].
    split; [by intros n ?%elem_of_nil|].
    exists []. rewrite app_nil_r. split; [done|]. intros temp. split.
    - by intros ?%elem_of_nil.
    - by intros (n & ts & st & ?%elem_of_nil & _). }
  cbn [foldl] in Hfold.
  destruct (watch_sensor fs now uevent_sensors (Some (h0, loc0)) name)
    as [[h loc]|] eqn:Hstep; [|by rewrite foldl_None in Hfold].
  apply NoDup_cons in Hnodup as [Hnotin Hnodup].
  destruct (watch_sensor_own _ _ _ _ _ _ _ _ Hstep)
    as (E1 & E2 & M & st & info & st' & Hst & Hinfo & Hsm & Hout).
  destruct (IH Hnodup _ _ Hfold) as (I1 & I2 & I3 & I4 & I5 & new & Htemps & Hnew).
  assert (forall n, n <> name ->
            sensor_status_map_ h !! n = sensor_status_map_ h0 !! n) as Hother.
  { intros n Hne. rewrite Hsm. by rewrite lookup_insert_ne. }
  split; [congruence|]. split; [congruence|]. split; [lia|]. split; [|split].
  - intros n [Hne Hn]%not_elem_of_cons. rewrite I4 by done. by apply Hother.
  - intros n [->|Hn]%elem_of_cons.
    + exists st, info, st'. split; [done|]. split; [done|]. split.
      { rewrite I4 by done. rewrite Hsm. by rewrite lookup_insert_eq. }
      destruct (sampled fs now uevent_sensors h0 name) as [[temp ts]|].
      * destruct Hout as (? & ? & ? & ? & ? & ? & _). repeat split; try done. lia.
      * destruct Hout as (? & _ & Hm). split; [done|]. intros H1 H2.
        specialize (Hm H1 H2). lia.
    + assert (n <> name) as Hne by (intros ->; done).
      destruct (I5 n Hn) as (stn & infon & stn' & Hstn & Hinfon & Hstn' & Houtn).
      exists stn, infon, stn'. rewrite <- (Hother n Hne), <- E1.
      split; [done|]. split; [done|]. split; [done|].
      rewrite <- (sampled_ext fs now uevent_sensors h h0 n E1 (Hother n Hne)).
      done.
  - destruct (sampled fs now uevent_sensors h0 name) as [[temp0 ts0]|] eqn:Hs.
    + destruct Hout as (_ & _ & _ & _ & _ & _ & Ht & Hn0).
      exists ((if bool_decide (throttlingStatus temp0 ≠ severity st)
               then [temp0] else []) ++ new).
      split; [by rewrite Htemps, Ht, app_assoc|].
      intros temp. rewrite elem_of_app, Hnew. split.
      * intros [Hin|(n & ts & stn & Hn & Hsn & Hstn & Hname & Hch)].
        -- destruct (decide (throttlingStatus temp0 ≠ severity st)) as [Hch|Hch].
           ++ rewrite (bool_decide_eq_true_2 _ Hch) in Hin.
              apply list_elem_of_singleton in Hin as ->.
              exists name, ts0, st. split; [by left|done].
           ++ rewrite (bool_decide_eq_false_2 _ Hch) in Hin. by apply elem_of_nil in Hin.
        -- assert (n <> name) as Hne by (intros ->; done).
           exists n, ts, stn. split; [by right|].
           rewrite <- (sampled_ext fs now uevent_sensors h h0 n E1 (Hother n Hne)).
           by rewrite <- (Hother n Hne).
      * intros (n & ts & stn & [->|Hn]%elem_of_cons & Hsn & Hstn & Hname & Hch).
        -- left. rewrite Hs in Hsn. injection Hsn as <- <-.
           rewrite Hst in Hstn. injection Hstn as <-.
           rewrite (bool_decide_eq_true_2 _ Hch). by left.
        -- right. assert (n <> name) as Hne by (intros ->; done).
           exists n, ts, stn. split; [done|].
           rewrite (sampled_ext fs now uevent_sensors h h0 n E1 (Hother n Hne)).
           by rewrite (Hother n Hne).
    + destruct Hout as (_ & Ht & _).
      exists new. split; [by rewrite Htemps, Ht|].
      intros temp. rewrite Hnew. split.
      * intros (n & ts & stn & Hn & Hsn & Hstn & Hname & Hch).
        assert (n <> name) as Hne by (intros ->; done).
        exists n, ts, stn. split; [by right|].
        rewrite <- (sampled_ext fs now uevent_sensors h h0 n E1 (Hother n Hne)).
        by rewrite <- (Hother n Hne).
      * intros (n & ts & stn & [->|Hn]%elem_of_cons & Hsn & Hstn & Hname & Hch).
        -- by rewrite Hs in Hsn.
        -- assert (n <> name) as Hne by (intros ->; done).
           exists n, ts, stn. split; [done|].
           rewrite (sampled_ext fs now uevent_sensors h h0 n E1 (Hother n Hne)).
           by rewrite (Hother n Hne).
Qed.

Lemma thermalWatcherCallbackFunc_own fs now h uevent_sensors h' res :
  thermalWatcherCallbackFunc fs now h uevent_sensors = Some (h', res) ->
  sensor_info_map_ h' = sensor_info_map_ h
  /\ cooling_device_info_map_ h' = cooling_device_info_map_ h
  /\ (forall n, sensor_status_map_ h !! n = None -> sensor_status_map_ h' !! n = None)
  /\ exists min_sleep,
      sleep res = Z.max (kMinPollIntervalMs fs) min_sleep
      /\ min_sleep <= 2147483647
      /\ (forall n st,
            sensor_status_map_ h !! n = Some st ->
            exists info st',
              sensor_info_map_ h !! n = Some info
              /\ sensor_status_map_ h' !! n = Some st'
              /\ match sampled fs now uevent_sensors h n with
                 | None =>
                     st' = st
                     /\ (is_monitor info = true ->
                         not_due now uevent_sensors n info st = true ->
                         min_sleep
                         <= sensor_delay info (severity st)
                            - (now - last_update_time st))
                 | Some (temp, ts) =>
                     severity st' = throttlingStatus temp
                     /\ prev_hot_severity st' = ts.1
                     /\ prev_cold_severity st' = ts.2
                     /\ prev_hint_severity st' = prev_hint_severity st
                     /\ last_update_time st' = now
                     /\ min_sleep <= sensor_delay info (severity st')
                 end)
      /\ forall temp,
          temp ∈ notified res <->
          exists ts st,
            sampled fs now uevent_sensors h (temp_name temp) = Some (temp, ts)
            /\ sensor_status_map_ h !! temp_name temp = Some st
            /\ throttlingStatus temp ≠ severity st.
Proof.
  unfold thermalWatcherCallbackFunc.
  destruct (foldl _ _ _) as [[h1 loc]|] eqn:Hfold; cbn [mbind option_bind]; [|done].
  destruct (watch_fold_own _ _ _ _ _ _ _ _ (NoDup_fst_map_to_list _) Hfold)
    as (E1 & E2 & M & Hnotin & Hin & new & Htemps & Hnew).
  cbn [temps min_sleep_ms app] in *.
  destruct (if bool_decide (cooling_devices_to_update loc ≠ []) then _ else _)
    as [written|]; cbn [mbind option_bind]; [|done].
  intros [= <- <-]. cbn [sleep notified].
  split; [done|]. split; [done|]. split.
  { intros n Hn. rewrite Hnotin; [done|].
    rewrite elem_of_map_keys, Hn. by intros [? ?]. }
  exists (min_sleep_ms loc). split; [case_bool_decide; lia|]. split; [done|]. split.
  - intros n st Hst.
    destruct (Hin n) as (st0 & info & st' & Hst0 & Hinfo & Hst' & Hout).
    { apply elem_of_map_keys. by eexists. }
    rewrite Hst in Hst0. injection Hst0 as <-. by exists info, st'.
  - intros temp. rewrite Htemps, Hnew. split.
    + intros (n & ts & st & _ & Hs & Hst & <- & Hch). by exists ts, st.
    + intros (ts & st & Hs & Hst & Hch). exists (temp_name temp), ts, st.
      split; [|done]. apply elem_of_map_keys. by eexists.
Qed.

Lemma sampled_None fs now uevent_sensors h name st info :
  sensor_status_map_ h !! name = Some st ->
  sensor_info_map_ h !! name = Some info ->
  is_monitor info = false
  \/ not_due now uevent_sensors name info st = true
  \/ readTemperature fs h name (is_virtual_sensor info) = Some None ->
  sampled fs now uevent_sensors h name = None.
Proof.
  intros Hst Hinfo Hskip. unfold sampled. rewrite Hst, Hinfo. cbn [mbind option_bind].
  destruct Hskip as [->|[->| ->]]; [done|by rewrite andb_false_r|].
  by destruct (_ && _).
Qed.

Lemma sampled_Some fs now uevent_sensors h name st info r :
  sensor_status_map_ h !! name = Some st ->
  sensor_info_map_ h !! name = Some info ->
  is_monitor info = true ->
  not_due now uevent_sensors name info st = false ->
  readTemperature fs h name (is_virtual_sensor info) = Some (Some r) ->
  sampled fs now uevent_sensors h name = Some r.
Proof.
  intros Hst Hinfo Hmon Hdue Hread. unfold sampled.
  rewrite Hst, Hinfo. cbn [mbind option_bind]. by rewrite Hmon, Hdue, Hread.
Qed.

(** X9.  A run of the callback leaves the status of a sensor as it was
    when the sensor is not monitored, or is not due and named by no
    uevent, or cannot be read: a sensor that cannot be read keeps its
    severity and its update time. *)
Theorem unsampled_sensor_keeps_status
    (fs : Platform) (now : Z) (h : ThermalHelper) (uevent_sensors : gset string)
    (h' : ThermalHelper) (res : WatcherResult)
    (name : string) (st : SensorStatus) (info : SensorInfo) :
  thermalWatcherCallbackFunc fs now h uevent_sensors = Some (h', res) ->
  sensor_status_map_ h !! name = Some st ->
  sensor_info_map_ h !! name = Some info ->
  is_monitor info = false
  \/ not_due now uevent_sensors name info st = true
  \/ readTemperature fs h name (is_virtual_sensor info) = Some None ->
  sensor_status_map_ h' !! name = Some st.
Proof.
  intros Hrun Hst Hinfo Hskip.
  apply thermalWatcherCallbackFunc_own in Hrun
    as (_ & _ & _ & m & _ & _ & Hout & _).
  destruct (Hout name st Hst) as (info' & st' & _ & Hst' & Hcase).
  rewrite (sampled_None _ _ _ _ _ _ _ Hst Hinfo Hskip) in Hcase.
  destruct Hcase as [-> _]. done.
Qed.

(** X10.  When a run of the callback reads a monitored sensor that is
    due or named by a uevent, the status it leaves has the severity and
    the hot and cold severities of that reading, and the time of the run
    as update time. *)
Theorem sampled_sensor_records_reading
    (fs : Platform) (now : Z) (h : ThermalHelper) (uevent_sensors : gset string)
    (h' : ThermalHelper) (res : WatcherResult)
    (name : string) (st : SensorStatus) (info : SensorInfo)
    (temp : Temperature_2_0) (ts : ThrottlingSeverity * ThrottlingSeverity) :
  thermalWatcherCallbackFunc fs now h uevent_sensors = Some (h', res) ->
  sensor_status_map_ h !! name = Some st ->
  sensor_info_map_ h !! name = Some info ->
  is_monitor info = true ->
  not_due now uevent_sensors name info st = false ->
  readTemperature fs h name (is_virtual_sensor info) = Some (Some (temp, ts)) ->
  exists st',
    sensor_status_map_ h' !! name = Some st'
    /\ severity st' = throttlingStatus temp
    /\ prev_hot_severity st' = ts.1
    /\ prev_cold_severity st' = ts.2
    /\ last_update_time st' = now.
Proof.
  intros Hrun Hst Hinfo Hmon Hdue Hread.
  apply thermalWatcherCallbackFunc_own in Hrun
    as (_ & _ & _ & m & _ & _ & Hout & _).
  destruct (Hout name st Hst) as (info' & st' & _ & Hst' & Hcase).
  rewrite (sampled_Some _ _ _ _ _ _ _ _ Hst Hinfo Hmon Hdue Hread) in Hcase.
  exists st'. tauto.
Qed.

(** X11.  The delay the callback returns is at least
    [kMinPollIntervalMs], and above that floor it is no later than the
    deadline of any monitored sensor that was read in the run or skipped
    as not due: the delay of the sensor at the severity it now has,
    counted from its update time. *)
Theorem sleep_respects_deadlines
    (fs : Platform) (now : Z) (h : ThermalHelper) (uevent_sensors : gset string)
    (h' : ThermalHelper) (res : WatcherResult) :
  thermalWatcherCallbackFunc fs now h uevent_sensors = Some (h', res) ->
  kMinPollIntervalMs fs <= sleep res
  /\ sleep res <= Z.max (kMinPollIntervalMs fs) 2147483647
  /\ forall name st info st',
      sensor_status_map_ h !! name = Some st ->
      sensor_info_map_ h !! name = Some info ->
      sensor_status_map_ h' !! name = Some st' ->
      is_monitor info = true ->
      not_due now uevent_sensors name info st = true
      \/ (exists r, readTemperature fs h name (is_virtual_sensor info) = Some (Some r)) ->
      sleep res
      <= Z.max (kMinPollIntervalMs fs)
               (sensor_delay info (severity st') - (now - last_update_time st')).
Proof.
  intros Hrun.
  apply thermalWatcherCallbackFunc_own in Hrun
    as (_ & _ & _ & m & -> & Hm & Hout & _).
  split; [lia|]. split; [lia|].
  intros name st info st' Hst Hinfo Hst' Hmon Hcase.
  destruct (Hout name st Hst) as (info0 & st0 & Hinfo0 & Hst0 & Hsampled).
  rewrite Hinfo in Hinfo0. injection Hinfo0 as <-.
  rewrite Hst' in Hst0. injection Hst0 as <-.
  unfold sampled in Hsampled. rewrite Hst, Hinfo in Hsampled.
  cbn [mbind option_bind] in Hsampled. rewrite Hmon in Hsampled. cbn [andb] in Hsampled.
  destruct (not_due now uevent_sensors name info st) eqn:Hdue; cbn [negb] in Hsampled.
  - destruct Hsampled as [-> Hb]. specialize (Hb eq_refl eq_refl). lia.
  - destruct Hcase as [?|[[temp ts] Hread]]; [done|]. rewrite Hread in Hsampled.
    destruct Hsampled as (_ & _ & _ & _ & -> & Hb). lia.
Qed.

(** X12.  The temperatures handed to the notification step of a run are
    exactly the readings that changed a severity: each is the reading
    taken of the sensor it names, with a severity that differs from the
    one the sensor had before and that the sensor has afterwards, and
    every sensor whose severity differs after the run is among them. *)
Theorem notifications_match_severity_changes
    (fs : Platform) (now : Z) (h : ThermalHelper) (uevent_sensors : gset string)
    (h' : ThermalHelper) (res : WatcherResult) :
  thermalWatcherCallbackFunc fs now h uevent_sensors = Some (h', res) ->
  (forall temp,
      temp ∈ notified res ->
      exists st st',
        sensor_status_map_ h !! temp_name temp = Some st
        /\ sensor_status_map_ h' !! temp_name temp = Some st'
        /\ severity st' = throttlingStatus temp
        /\ severity st' <> severity st)
  /\ (forall name st st',
         sensor_status_map_ h !! name = Some st ->
         sensor_status_map_ h' !! name = Some st' ->
         severity st' <> severity st ->
         exists temp,
           temp ∈ notified res /\ temp_name temp = name
           /\ throttlingStatus temp = severity st').
Proof.
  intros Hrun.
  apply thermalWatcherCallbackFunc_own in Hrun
    as (_ & _ & _ & m & _ & _ & Hout & Hnotified).
  split.
  - intros temp (ts & st & Hs & Hst & Hch)%Hnotified.
    destruct (Hout _ st Hst) as (info & st' & _ & Hst' & Hcase).
    rewrite Hs in Hcase. destruct Hcase as (Hsev & _).
    exists st, st'. rewrite Hsev. done.
  - intros name st st' Hst Hst' Hch.
    destruct (Hout _ st Hst) as (info & st0 & _ & Hst0 & Hcase).
    rewrite Hst' in Hst0. injection Hst0 as <-.
    destruct (sampled fs now uevent_sensors h name) as [[temp ts]|] eqn:Hs.
    + destruct Hcase as (Hsev & _).
      assert (temp_name temp = name) as Hname.
      { unfold sampled in Hs. rewrite Hst in Hs. cbn [mbind option_bind] in Hs.
        destruct (sensor_info_map_ h !! name) as [i|]; cbn [mbind option_bind] in Hs;
          [|done].
        destruct (_ && _); [|done].
        destruct (readTemperature _ _ _ _) as [[r|]|] eqn:Hread; [|done|done].
        injection Hs as ->. by apply readTemperature_name in Hread. }
      exists temp. split; [|by rewrite Hsev]. apply Hnotified.
      exists ts, st. rewrite Hname. split; [done|]. split; [done|]. by rewrite <- Hsev.
    + destruct Hcase as [-> _]. done.
Qed.

Lemma run_callbacks_keep (sensor_info : gmap string SensorInfo)
    (runs : list (Platform * Z * gset string)) (h0 h : ThermalHelper) :
  run_callbacks h0 runs = Some h ->
  keys_as_configured sensor_info h0 /\ requests_in_sync h0 ->
  sensor_info_map_ h = sensor_info_map_ h0
  /\ cooling_device_info_map_ h = cooling_device_info_map_ h0
  /\ keys_as_configured sensor_info h /\ requests_in_sync h.
Proof.
  unfold run_callbacks. revert h0.
  induction runs as [|[[fs now] uevent_sensors] runs IH]; intros h0 Hruns Hinv.
  { injection Hruns as <-. tauto. }
  cbn [foldl mbind option_bind fst snd] in Hruns.
  destruct (thermalWatcherCallbackFunc fs now h0 uevent_sensors) as [[h1 res]|] eqn:Hrun;
    cbn [mbind option_bind fst] in Hruns.
  2:{ rewrite foldl_None in Hruns; done. }
  destruct Hinv as (I3 & I4).
  destruct (thermalWatcherCallbackFunc_own _ _ _ _ _ _ Hrun) as (E1 & E2 & _).
  destruct (IH h1 Hruns) as (J1 & J2 & J3 & J4).
  { split.
    - by apply (thermalWatcherCallbackFunc_keys _ _ _ _ _ _ _ Hrun).
    - by apply (thermalWatcherCallbackFunc_spec _ _ _ _ _ _ Hrun). }
  split; [congruence|]. split; [congruence|]. done.
Qed.

(** X13.  Start from the status maps that the loop of the constructor
    builds, with any [sensor_info_map_] (its delays may have been changed
    since).  Through any number of runs of the callback that complete, the
    helper keeps its two configuration maps, the key sets of its status
    maps stay the ones derived from the configuration given to the
    constructor, and every request recorded for a cooling device is the
    own request of its sensor. *)
Theorem callback_runs_keep_invariants
    (cdev_info : gmap string CdevInfo) (sensor_info : gmap string SensorInfo)
    (runs : list (Platform * Z * gset string)) (built h0 h : ThermalHelper) :
  ThermalHelper_init cdev_info sensor_info = Some built ->
  sensor_status_map_ h0 = sensor_status_map_ built ->
  cdev_status_map_ h0 = cdev_status_map_ built ->
  run_callbacks h0 runs = Some h ->
  sensor_info_map_ h = sensor_info_map_ h0
  /\ cooling_device_info_map_ h = cooling_device_info_map_ h0
  /\ keys_as_configured sensor_info h
  /\ requests_in_sync h.
Proof.
  intros Hinit Hsm Hcm Hruns. apply (run_callbacks_keep _ _ _ _ Hruns).
  destruct (ThermalHelper_init_keys _ _ _ Hinit) as [_ Hkeys].
  pose proof (ThermalHelper_init_in_sync _ _ _ Hinit) as Hsync.
  unfold keys_as_configured, requests_in_sync in *.
  rewrite Hsm, Hcm. done.
Qed.

(** Two runs on the two-sensor helper, whose delays have been set to the
    minimum since the constructor built its status maps. *)
Lemma callback_runs_keep_invariants_witness :
  exists h,
    run_callbacks two_sensor_helper_min_timeout
      [(platform_with {[ "A" := "70"; "B" := "50" ]}, 10000, ∅);
       (platform_with {[ "A" := "70"; "B" := "60" ]}, 20000, ∅)]
    = Some h
    /\ sensor_info_map_ h = sensor_info_map_ two_sensor_helper_min_timeout
    /\ cooling_device_info_map_ h
       = cooling_device_info_map_ two_sensor_helper_min_timeout
    /\ keys_as_configured two_sensor_info h
    /\ requests_in_sync h.
Proof.
  destruct (run_callbacks two_sensor_helper_min_timeout
              [(platform_with {[ "A" := "70"; "B" := "50" ]}, 10000, ∅);
               (platform_with {[ "A" := "70"; "B" := "60" ]}, 20000, ∅)])
    as [h|] eqn:Hruns; [|vm_compute in Hruns; discriminate].
  exists h. split; [reflexivity|].
  apply (callback_runs_keep_invariants scenario_cdev_info two_sensor_info
           [(platform_with {[ "A" := "70"; "B" := "50" ]}, 10000, ∅);
            (platform_with {[ "A" := "70"; "B" := "60" ]}, 20000, ∅)]
           two_sensor_helper two_sensor_helper_min_timeout h
           two_sensor_helper_built eq_refl eq_refl Hruns).
Defined.

Lemma unsampled_sensor_keeps_status_witness :
  exists h' res st,
    thermalWatcherCallbackFunc (platform_with {[ "A" := "70" ]}) 20000
                               two_sensor_helper_running ∅ = Some (h', res)
    /\ sensor_status_map_ two_sensor_helper_running !! "B" = Some st
    /\ sensor_status_map_ h' !! "B" = Some st.
Proof.
  eexists _, _, _. split; [vm_compute; reflexivity|]. split; [vm_compute; reflexivity|].
  eapply (unsampled_sensor_keeps_status (platform_with {[ "A" := "70" ]}) 20000
            two_sensor_helper_running ∅ _ _ "B" _ (sensor_with limit_throttling)).
  - vm_compute. reflexivity.
  - vm_compute. reflexivity.
  - vm_compute. reflexivity.
  - right. right. vm_compute. reflexivity.
Defined.

Lemma sampled_sensor_records_reading_witness :
  exists st',
    sensor_status_map_ two_sensor_helper_after !! "B" = Some st'
    /\ severity st' = MODERATE
    /\ prev_hot_severity st' = MODERATE
    /\ prev_cold_severity st' = NONE
    /\ last_update_time st' = 20000.
Proof.
  refine (sampled_sensor_records_reading
            (platform_with {[ "A" := "70"; "B" := "60" ]}) 20000
            two_sensor_helper_running ∅ two_sensor_helper_after two_sensor_second_result
            "B" (default initial_status (sensor_status_map_ two_sensor_helper_running !! "B"))
            (sensor_with limit_throttling)
            {| temp_type := SKIN; temp_name := "B"; value := F32.of_Z 60;
               throttlingStatus := MODERATE |}
            (MODERATE, NONE) _ _ _ _ _ _);
    vm_compute; reflexivity.
Defined.

Lemma sleep_respects_deadlines_witness :
  kMinPollIntervalMs (platform_with {[ "A" := "70"; "B" := "60" ]})
  <= sleep two_sensor_second_result
  /\ sleep two_sensor_second_result
     <= Z.max (kMinPollIntervalMs (platform_with {[ "A" := "70"; "B" := "60" ]}))
              2147483647
  /\ forall name st info st',
      sensor_status_map_ two_sensor_helper_running !! name = Some st ->
      sensor_info_map_ two_sensor_helper_running !! name = Some info ->
      sensor_status_map_ two_sensor_helper_after !! name = Some st' ->
      is_monitor info = true ->
      not_due 20000 ∅ name info st = true
      \/ (exists r, readTemperature (platform_with {[ "A" := "70"; "B" := "60" ]})
                      two_sensor_helper_running name (is_virtual_sensor info)
                    = Some (Some r)) ->
      sleep two_sensor_second_result
      <= Z.max (kMinPollIntervalMs (platform_with {[ "A" := "70"; "B" := "60" ]}))
               (sensor_delay info (severity st') - (20000 - last_update_time st')).
Proof.
  apply (sleep_respects_deadlines (platform_with {[ "A" := "70"; "B" := "60" ]}) 20000
           two_sensor_helper_running ∅ two_sensor_helper_after two_sensor_second_result).
  vm_compute. reflexivity.
Defined.

Lemma notifications_match_severity_changes_witness :
  (forall temp,
      temp ∈ notified two_sensor_second_result ->
      exists st st',
        sensor_status_map_ two_sensor_helper_running !! temp_name temp = Some st
        /\ sensor_status_map_ two_sensor_helper_after !! temp_name temp = Some st'
        /\ severity st' = throttlingStatus temp
        /\ severity st' <> severity st)
  /\ (forall name st st',
         sensor_status_map_ two_sensor_helper_running !! name = Some st ->
         sensor_status_map_ two_sensor_helper_after !! name = Some st' ->
         severity st' <> severity st ->
         exists temp,
           temp ∈ notified two_sensor_second_result /\ temp_name temp = name
           /\ throttlingStatus temp = severity st').
Proof.
  apply (notifications_match_severity_changes
           (platform_with {[ "A" := "70"; "B" := "60" ]}) 20000
           two_sensor_helper_running ∅ two_sensor_helper_after two_sensor_second_result).
  vm_compute. reflexivity.
Defined.

(** ** The classifier outside the hysteresis band *)

Lemma first_hit_cases test (range : list ThrottlingSeverity) (init : ThrottlingSeverity) :
  first_hit test range init = init \/ test (first_hit test range init) = true.
Proof.
  unfold first_hit. revert init. induction range as [|i l IH]; intros init; [by left|].
  cbn [fold_left].
  destruct (test i && bool_decide (init = NONE)) eqn:E.
  - destruct (IH i) as [->|H]; [|by right].
    right. by apply andb_true_iff in E as [? _].
  - apply IH.
Qed.

Lemma leb_nan_r (a : float) : F32.leb a NAN = false.
Proof. by destruct a. Qed.

Lemma ltb_nan_r (a : float) : F32.ltb a NAN = false.
Proof. by destruct a. Qed.

Lemma first_hit_never test :
  (forall i, test i = false) -> first_hit test severities_high_to_low NONE = NONE.
Proof. intros H. unfold first_hit. cbn. by rewrite !H. Qed.

(** X14.  A reading that is NaN is classified NONE on both sides,
    whatever the thresholds, the hystereses and the previous severities:
    every comparison of the scan fails. *)
Theorem nan_reading_classifies_as_none
    (hot cold hh ch : ThrottlingArray) (prev_hot prev_cold : ThrottlingSeverity)
    (v : float) :
  isnan v = true ->
  getSeverityFromThresholds hot cold hh ch prev_hot prev_cold v = (NONE, NONE).
Proof.
  destruct v; try discriminate. intros _.
  unfold getSeverityFromThresholds.
  rewrite scan_ret_hot, scan_ret_hot_hysteresis, scan_ret_cold, scan_ret_cold_hysteresis.
  cbn [ret_hot ret_hot_hysteresis ret_cold ret_cold_hysteresis].
  rewrite !first_hit_never; [by destruct (sev_ltb _ _), (sev_ltb _ _)| | | |];
    intros i; unfold F32.geb, F32.gtb; cbn;
    rewrite ?leb_nan_r, ?ltb_nan_r, ?andb_false_r; done.
Qed.

Lemma nan_reading_classifies_as_none_witness :
  getSeverityFromThresholds scenario_hot_thresholds scenario_cold_thresholds
    (fill (F32.of_Z 3)) (fill (F32.of_Z 3)) SEVERE LIGHT NAN = (NONE, NONE).
Proof.
  apply (nan_reading_classifies_as_none scenario_hot_thresholds scenario_cold_thresholds
           (fill (F32.of_Z 3)) (fill (F32.of_Z 3)) SEVERE LIGHT NAN).
  reflexivity.
Defined.

(** X15.  Hysteresis never delays an escalation: when the value has
    reached the hot threshold of level [i], no level above [i] has its
    threshold reached, and the previous hot severity is not above [i], the
    hot severity is [i]; the same on the cold side with thresholds the
    value has fallen to. *)
Theorem threshold_reached_sets_severity
    (hot cold hh ch : ThrottlingArray) (i : ThrottlingSeverity) (v : float) :
  (forall prev_hot prev_cold,
      i <> NONE ->
      F32.leb (hot i) v = true ->
      (forall j, sev_ltb i j = true ->
                 isnan (hot j) = true \/ F32.leb (hot j) v = false) ->
      sev_ltb i prev_hot = false ->
      (getSeverityFromThresholds hot cold hh ch prev_hot prev_cold v).1 = i)
  /\
  (forall prev_hot prev_cold,
      i <> NONE ->
      F32.geb (cold i) v = true ->
      (forall j, sev_ltb i j = true ->
                 isnan (cold j) = true \/ F32.geb (cold j) v = false) ->
      sev_ltb i prev_cold = false ->
      (getSeverityFromThresholds hot cold hh ch prev_hot prev_cold v).2 = i).
Proof.
  split.
  - intros prev_hot prev_cold Hi Hle Habove Hprev.
    unfold getSeverityFromThresholds. cbn [fst].
    rewrite scan_ret_hot. cbn [ret_hot].
    rewrite (first_hit_at _ i Hi).
    + by rewrite Hprev.
    + by rewrite (leb_not_nan_l _ _ Hle), Hle.
    + intros j Hj. destruct (Habove j Hj) as [->| ->]; [done|by rewrite andb_false_r].
  - intros prev_hot prev_cold Hi Hle Habove Hprev.
    unfold getSeverityFromThresholds. cbn [snd].
    rewrite scan_ret_cold. cbn [ret_cold].
    rewrite (first_hit_at _ i Hi).
    + by rewrite Hprev.
    + unfold F32.geb in *. fold (F32.leb v (cold i)) in Hle.
      rewrite (leb_not_nan_r _ _ Hle). unfold F32.leb in Hle. by rewrite Hle.
    + intros j Hj. destruct (Habove j Hj) as [->| ->]; [done|by rewrite andb_false_r].
Qed.

Lemma threshold_reached_sets_severity_witness :
  (getSeverityFromThresholds scenario_hot_thresholds (fill NAN)
     (fill (F32.of_Z 3)) (fill (F32.of_Z 0)) LIGHT NONE (F32.of_Z 65)).1 = SEVERE
  /\ (getSeverityFromThresholds (fill NAN) scenario_cold_thresholds
        (fill (F32.of_Z 0)) (fill (F32.of_Z 3)) NONE NONE (F32.of_Z 5)).2 = MODERATE.
Proof.
  split.
  - apply (proj1 (threshold_reached_sets_severity scenario_hot_thresholds (fill NAN)
                    (fill (F32.of_Z 3)) (fill (F32.of_Z 0)) SEVERE (F32.of_Z 65)));
      [done|reflexivity| |reflexivity].
    intros j Hj. right. by destruct j.
  - apply (proj2 (threshold_reached_sets_severity (fill NAN) scenario_cold_thresholds
                    (fill (F32.of_Z 0)) (fill (F32.of_Z 3)) MODERATE (F32.of_Z 5)));
      [done|reflexivity| |reflexivity].
    intros j Hj. right. by destruct j.
Defined.

(** X16.  A severity above NONE is only ever returned for a level whose
    threshold is not NaN and whose threshold or hysteresis band the value
    has reached: on the hot side [hot[i] <= v] or [hot[i] - hysteresis[i]
    < v], on the cold side [cold[i] >= v] or [cold[i] + hysteresis[i] >
    v]. *)
Theorem returned_level_is_enabled_and_reached
    (hot cold hh ch : ThrottlingArray) (prev_hot prev_cold : ThrottlingSeverity)
    (v : float) :
  ((getSeverityFromThresholds hot cold hh ch prev_hot prev_cold v).1 = NONE
   \/ (isnan (hot (getSeverityFromThresholds hot cold hh ch prev_hot prev_cold v).1)
       = false
       /\ (F32.leb (hot (getSeverityFromThresholds hot cold hh ch
                                                   prev_hot prev_cold v).1) v = true
           \/ F32.ltb (F32.sub
                         (hot (getSeverityFromThresholds hot cold hh ch
                                                         prev_hot prev_cold v).1)
                         (hh (getSeverityFromThresholds hot cold hh ch
                                                        prev_hot prev_cold v).1))
                      v = true)))
  /\
  ((getSeverityFromThresholds hot cold hh ch prev_hot prev_cold v).2 = NONE
   \/ (isnan (cold (getSeverityFromThresholds hot cold hh ch prev_hot prev_cold v).2)
       = false
       /\ (F32.geb (cold (getSeverityFromThresholds hot cold hh ch
                                                    prev_hot prev_cold v).2) v = true
           \/ F32.gtb (F32.add
                         (cold (getSeverityFromThresholds hot cold hh ch
                                                          prev_hot prev_cold v).2)
                         (ch (getSeverityFromThresholds hot cold hh ch
                                                        prev_hot prev_cold v).2))
                      v = true))).
Proof.
  unfold getSeverityFromThresholds. cbn [fst snd].
  rewrite scan_ret_hot, scan_ret_hot_hysteresis, scan_ret_cold, scan_ret_cold_hysteresis.
  cbn [ret_hot ret_hot_hysteresis ret_cold ret_cold_hysteresis].
  split.
  - destruct (sev_ltb _ prev_hot);
      (match goal with
       | |- first_hit ?t ?r ?i = _ \/ _ =>
           destruct (first_hit_cases t r i) as [E|E]; [by left|right]
       end);
      apply andb_true_iff in E as [E1 E2]; apply negb_true_iff in E1; auto.
  - destruct (sev_ltb _ prev_cold);
      (match goal with
       | |- first_hit ?t ?r ?i = _ \/ _ =>
           destruct (first_hit_cases t r i) as [E|E]; [by left|right]
       end);
      apply andb_true_iff in E as [E1 E2]; apply negb_true_iff in E1; auto.
Qed.

(** ** Virtual sensors: MAXIMUM and MINIMUM *)

Lemma leb_trans (a b c : float) :
  F32.leb a b = true -> F32.leb b c = true -> F32.leb a c = true.
Proof.
  unfold F32.leb, SFleb.
  destruct a as [sa|sa| |sa ma ea], b as [sb|sb| |sb mb eb], c as [sc|sc| |sc mc ec];
    cbn; try discriminate; try reflexivity;
    try (destruct sa; cbn; (discriminate || reflexivity));
    try (destruct sb; cbn; (discriminate || reflexivity));
    try (destruct sc; cbn; (discriminate || reflexivity));
    try (destruct sa, sb; cbn; (discriminate || reflexivity));
    try (destruct sa, sc; cbn; (discriminate || reflexivity));
    try (destruct sb, sc; cbn; (discriminate || reflexivity));
    try (destruct sa, sb, sc; cbn; (discriminate || reflexivity)).
  all: change (Pos.compare_cont Eq ma mb) with (Pos.compare ma mb);
    change (Pos.compare_cont Eq mb mc) with (Pos.compare mb mc);
    change (Pos.compare_cont Eq ma mc) with (Pos.compare ma mc).
  all: destruct sa, sb, sc; try discriminate; try reflexivity;
    destruct (Z.compare_spec ea eb), (Z.compare_spec eb ec), (Z.compare_spec ea ec);
    cbn; try discriminate; try reflexivity; try lia;
    destruct (Pos.compare_spec ma mb), (Pos.compare_spec mb mc),
      (Pos.compare_spec ma mc);
    cbn; try discriminate; try reflexivity; try lia.
Qed.

Lemma virtual_sensor_step_contribution fs formula mTemp i l c :
  virtual_sensor_step fs formula mTemp i l c
  = match contribution fs l c with
    | None => mTemp
    | Some p =>
        match formula with
        | COUNT_THRESHOLD | WEIGHTED_AVG => virtual_sensor_step fs formula mTemp i l c
        | MAXIMUM =>
            if SFltb (if bool_decide (i = 0%nat) then F64.of_float F32.lowest else mTemp) p
            then p
            else if bool_decide (i = 0%nat) then F64.of_float F32.lowest else mTemp
        | MINIMUM =>
            if SFltb p (if bool_decide (i = 0%nat) then F64.of_float F32.max_float
                        else mTemp)
            then p
            else if bool_decide (i = 0%nat) then F64.of_float F32.max_float else mTemp
        end
    end.
Proof.
  unfold virtual_sensor_step, contribution.
  destruct (bool_decide (l = "NAN")); [done|].
  destruct (bool_decide (l = "")); [done|]. cbn [orb].
  destruct (readThermalFile fs l) as [data|]; cbn [mbind option_bind]; [|done].
  destruct (isnan c); [done|]. by destruct formula.
Qed.

(** The loop past its first index, for MAXIMUM: a running maximum. *)
Lemma maximum_loop fs (linked : list string) (coeffs : list float) (i : nat) (m : double) :
  i <> 0%nat -> isnan m = false ->
  isnan (virtual_sensor_loop fs MAXIMUM i linked coeffs m) = false
  /\ SFleb m (virtual_sensor_loop fs MAXIMUM i linked coeffs m) = true
  /\ (forall k l c p,
         linked !! k = Some l -> coeffs !! k = Some c ->
         contribution fs l c = Some p -> isnan p = false ->
         SFleb p (virtual_sensor_loop fs MAXIMUM i linked coeffs m) = true)
  /\ (virtual_sensor_loop fs MAXIMUM i linked coeffs m = m
      \/ exists k l c,
          linked !! k = Some l /\ coeffs !! k = Some c
          /\ contribution fs l c
             = Some (virtual_sensor_loop fs MAXIMUM i linked coeffs m)).
Proof.
  revert coeffs i m. induction linked as [|l linked IH]; intros [|c coeffs] i m Hi Hm;
    cbn [virtual_sensor_loop];
    try (split; [done|]; split; [by apply leb_refl|]; split; [|by left];
         intros k ? ? ? Hl Hc; (by destruct k) || (by rewrite lookup_nil in Hc)).
  rewrite virtual_sensor_step_contribution.
  rewrite (bool_decide_eq_false_2 (i = 0%nat)) by done.
  destruct (contribution fs l c) as [p|] eqn:Hp.
  - destruct (SFltb m p) eqn:Hlt.
    + destruct (IH coeffs (S i) p) as (N & L & A & E); [done|by apply (ltb_not_nan_r m)|].
      split; [done|]. split; [|split].
      * apply (leb_trans m p); [by apply ltb_leb|done].
      * intros [|k] l' c' p' Hl Hc Hp' Hn; cbn in Hl, Hc.
        -- injection Hl as <-. injection Hc as <-. rewrite Hp in Hp'.
           by injection Hp' as <-.
        -- by apply (A k l' c').
      * right. destruct E as [->|(k & l' & c' & ? & ? & ?)].
        -- by exists 0%nat, l, c.
        -- by exists (S k), l', c'.
    + destruct (IH coeffs (S i) m) as (N & L & A & E); [done|done|].
      split; [done|]. split; [done|]. split.
      * intros [|k] l' c' p' Hl Hc Hp' Hn; cbn in Hl, Hc.
        -- injection Hl as <-. injection Hc as <-. rewrite Hp in Hp'.
           injection Hp' as <-.
           apply (leb_trans p m); [by apply ltb_false_leb|done].
        -- by apply (A k l' c').
      * destruct E as [->|(k & l' & c' & ? & ? & ?)]; [by left|].
        right. by exists (S k), l', c'.
  - destruct (IH coeffs (S i) m) as (N & L & A & E); [done|done|].
    split; [done|]. split; [done|]. split.
    + intros [|k] l' c' p' Hl Hc Hp' Hn; cbn in Hl, Hc.
      * injection Hl as <-. injection Hc as <-. congruence.
      * by apply (A k l' c').
    + destruct E as [->|(k & l' & c' & ? & ? & ?)]; [by left|].
      right. by exists (S k), l', c'.
Qed.

(** X17.  When the first linked sensor of a MAXIMUM virtual sensor
    contributes a term, the value computed is a maximum: it is not NaN, it
    is at least every term that is not NaN, and it is one of the terms or
    the lowest finite [float] the search starts from. *)
Theorem virtual_maximum_is_greatest_term
    (fs : Platform) (sensor_info : SensorInfo)
    (l0 : string) (c0 : float) (p0 : double) :
  formula sensor_info = MAXIMUM ->
  linked_sensors sensor_info !! 0%nat = Some l0 ->
  coefficients sensor_info !! 0%nat = Some c0 ->
  contribution fs l0 c0 = Some p0 ->
  isnan (virtual_sensor_value fs sensor_info) = false
  /\ (forall k l c p,
         linked_sensors sensor_info !! k = Some l ->
         coefficients sensor_info !! k = Some c ->
         contribution fs l c = Some p -> isnan p = false ->
         SFleb p (virtual_sensor_value fs sensor_info) = true)
  /\ (virtual_sensor_value fs sensor_info = F64.of_float F32.lowest
      \/ exists k l c,
          linked_sensors sensor_info !! k = Some l
          /\ coefficients sensor_info !! k = Some c
          /\ contribution fs l c = Some (virtual_sensor_value fs sensor_info)).
Proof.
  unfold virtual_sensor_value. intros -> Hl0 Hc0 Hp0.
  destruct (linked_sensors sensor_info) as [|l linked]; [done|].
  destruct (coefficients sensor_info) as [|c coeffs]; [done|].
  injection Hl0 as ->. injection Hc0 as ->.
  cbn [virtual_sensor_loop]. rewrite virtual_sensor_step_contribution, Hp0.
  rewrite (bool_decide_eq_true_2 (0 = 0)%nat) by done.
  set (m := if SFltb (F64.of_float F32.lowest) p0 then p0 else F64.of_float F32.lowest).
  assert (isnan m = false) as Hm.
  { subst m. destruct (SFltb _ p0) eqn:E; [by apply ltb_not_nan_r in E|done]. }
  destruct (maximum_loop fs linked coeffs 1 m) as (N & L & A & E); [done|done|].
  split; [done|]. split.
  - intros [|k] l' c' p' Hl Hc Hp' Hn; cbn in Hl, Hc.
    + injection Hl as <-. injection Hc as <-. rewrite Hp0 in Hp'. injection Hp' as <-.
      apply (leb_trans p0 m); [|done]. subst m.
      destruct (SFltb _ p0) eqn:Hlt; [by apply leb_refl|by apply ltb_false_leb].
    + by apply (A k l' c').
  - destruct E as [->|(k & l' & c' & ? & ? & ?)].
    + subst m. destruct (SFltb _ p0); [right|by left]. by exists 0%nat, l0, c0.
    + right. by exists (S k), l', c'.
Qed.

Lemma virtual_maximum_is_greatest_term_witness :
  isnan (virtual_sensor_value (platform_with {[ "s1" := "40"; "s2" := "90" ]})
           (virtual_maximum ["s1"; "s2"] [F32.of_Z 1; F32.div (F32.of_Z 1) (F32.of_Z 2)]))
  = false
  /\ (forall k l c p,
         ["s1"; "s2"] !! k = Some l ->
         [F32.of_Z 1; F32.div (F32.of_Z 1) (F32.of_Z 2)] !! k = Some c ->
         contribution (platform_with {[ "s1" := "40"; "s2" := "90" ]}) l c = Some p ->
         isnan p = false ->
         SFleb p (virtual_sensor_value (platform_with {[ "s1" := "40"; "s2" := "90" ]})
                    (virtual_maximum ["s1"; "s2"]
                       [F32.of_Z 1; F32.div (F32.of_Z 1) (F32.of_Z 2)])) = true)
  /\ (virtual_sensor_value (platform_with {[ "s1" := "40"; "s2" := "90" ]})
        (virtual_maximum ["s1"; "s2"] [F32.of_Z 1; F32.div (F32.of_Z 1) (F32.of_Z 2)])
      = F64.of_float F32.lowest
      \/ exists k l c,
          ["s1"; "s2"] !! k = Some l
          /\ [F32.of_Z 1; F32.div (F32.of_Z 1) (F32.of_Z 2)] !! k = Some c
          /\ contribution (platform_with {[ "s1" := "40"; "s2" := "90" ]}) l c
             = Some (virtual_sensor_value (platform_with {[ "s1" := "40"; "s2" := "90" ]})
                       (virtual_maximum ["s1"; "s2"]
                          [F32.of_Z 1; F32.div (F32.of_Z 1) (F32.of_Z 2)]))).
Proof.
  apply (virtual_maximum_is_greatest_term
           (platform_with {[ "s1" := "40"; "s2" := "90" ]})
           (virtual_maximum ["s1"; "s2"] [F32.of_Z 1; F32.div (F32.of_Z 1) (F32.of_Z 2)])
           "s1" (F32.of_Z 1) (F64.of_Z 40));
    reflexivity.
Defined.

(** The loop past its first index, for MINIMUM: a running minimum. *)
Lemma minimum_loop fs (linked : list string) (coeffs : list float) (i : nat) (m : double) :
  i <> 0%nat -> isnan m = false ->
  isnan (virtual_sensor_loop fs MINIMUM i linked coeffs m) = false
  /\ SFleb (virtual_sensor_loop fs MINIMUM i linked coeffs m) m = true
  /\ (forall k l c p,
         linked !! k = Some l -> coeffs !! k = Some c ->
         contribution fs l c = Some p -> isnan p = false ->
         SFleb (virtual_sensor_loop fs MINIMUM i linked coeffs m) p = true)
  /\ (virtual_sensor_loop fs MINIMUM i linked coeffs m = m
      \/ exists k l c,
          linked !! k = Some l /\ coeffs !! k = Some c
          /\ contribution fs l c
             = Some (virtual_sensor_loop fs MINIMUM i linked coeffs m)).
Proof.
  revert coeffs i m. induction linked as [|l linked IH]; intros [|c coeffs] i m Hi Hm;
    cbn [virtual_sensor_loop];
    try (split; [done|]; split; [by apply leb_refl|]; split; [|by left];
         intros k ? ? ? Hl Hc; (by destruct k) || (by rewrite lookup_nil in Hc)).
  rewrite virtual_sensor_step_contribution.
  rewrite (bool_decide_eq_false_2 (i = 0%nat)) by done.
  destruct (contribution fs l c) as [p|] eqn:Hp.
  - destruct (SFltb p m) eqn:Hlt.
    + destruct (IH coeffs (S i) p) as (N & L & A & E); [done|by apply (ltb_not_nan_l p m)|].
      split; [done|]. split; [|split].
      * apply (leb_trans _ p); [done|by apply ltb_leb].
      * intros [|k] l' c' p' Hl Hc Hp' Hn; cbn in Hl, Hc.
        -- injection Hl as <-. injection Hc as <-. rewrite Hp in Hp'.
           by injection Hp' as <-.
        -- by apply (A k l' c').
      * right. destruct E as [->|(k & l' & c' & ? & ? & ?)].
        -- by exists 0%nat, l, c.
        -- by exists (S k), l', c'.
    + destruct (IH coeffs (S i) m) as (N & L & A & E); [done|done|].
      split; [done|]. split; [done|]. split.
      * intros [|k] l' c' p' Hl Hc Hp' Hn; cbn in Hl, Hc.
        -- injection Hl as <-. injection Hc as <-. rewrite Hp in Hp'.
           injection Hp' as <-.
           apply (leb_trans _ m); [done|by apply ltb_false_leb].
        -- by apply (A k l' c').
      * destruct E as [->|(k & l' & c' & ? & ? & ?)]; [by left|].
        right. by exists (S k), l', c'.
  - destruct (IH coeffs (S i) m) as (N & L & A & E); [done|done|].
    split; [done|]. split; [done|]. split.
    + intros [|k] l' c' p' Hl Hc Hp' Hn; cbn in Hl, Hc.
      * injection Hl as <-. injection Hc as <-. congruence.
      * by apply (A k l' c').
    + destruct E as [->|(k & l' & c' & ? & ? & ?)]; [by left|].
      right. by exists (S k), l', c'.
Qed.

(** X18.  When the first linked sensor of a MINIMUM virtual sensor
    contributes a term, the value computed is a minimum: it is not NaN, it
    is at most every term that is not NaN, and it is one of the terms or
    the largest finite [float] the search starts from. *)
Theorem virtual_minimum_is_least_term
    (fs : Platform) (sensor_info : SensorInfo)
    (l0 : string) (c0 : float) (p0 : double) :
  formula sensor_info = MINIMUM ->
  linked_sensors sensor_info !! 0%nat = Some l0 ->
  coefficients sensor_info !! 0%nat = Some c0 ->
  contribution fs l0 c0 = Some p0 ->
  isnan (virtual_sensor_value fs sensor_info) = false
  /\ (forall k l c p,
         linked_sensors sensor_info !! k = Some l ->
         coefficients sensor_info !! k = Some c ->
         contribution fs l c = Some p -> isnan p = false ->
         SFleb (virtual_sensor_value fs sensor_info) p = true)
  /\ (virtual_sensor_value fs sensor_info = F64.of_float F32.max_float
      \/ exists k l c,
          linked_sensors sensor_info !! k = Some l
          /\ coefficients sensor_info !! k = Some c
          /\ contribution fs l c = Some (virtual_sensor_value fs sensor_info)).
Proof.
  unfold virtual_sensor_value. intros -> Hl0 Hc0 Hp0.
  destruct (linked_sensors sensor_info) as [|l linked]; [done|].
  destruct (coefficients sensor_info) as [|c coeffs]; [done|].
  injection Hl0 as ->. injection Hc0 as ->.
  cbn [virtual_sensor_loop]. rewrite virtual_sensor_step_contribution, Hp0.
  rewrite (bool_decide_eq_true_2 (0 = 0)%nat) by done.
  set (m := if SFltb p0 (F64.of_float F32.max_float)
            then p0 else F64.of_float F32.max_float).
  assert (isnan m = false) as Hm.
  { subst m. destruct (SFltb p0 _) eqn:E; [by apply ltb_not_nan_l in E|done]. }
  destruct (minimum_loop fs linked coeffs 1 m) as (N & L & A & E); [done|done|].
  split; [done|]. split.
  - intros [|k] l' c' p' Hl Hc Hp' Hn; cbn in Hl, Hc.
    + injection Hl as <-. injection Hc as <-. rewrite Hp0 in Hp'. injection Hp' as <-.
      apply (leb_trans _ m); [done|]. subst m.
      destruct (SFltb p0 _) eqn:Hlt; [by apply leb_refl|by apply ltb_false_leb].
    + by apply (A k l' c').
  - destruct E as [->|(k & l' & c' & ? & ? & ?)].
    + subst m. destruct (SFltb p0 _); [right|by left]. by exists 0%nat, l0, c0.
    + right. by exists (S k), l', c'.
Qed.

Lemma virtual_minimum_is_least_term_witness :
  isnan (virtual_sensor_value (platform_with {[ "s1" := "40"; "s2" := "90" ]})
           (virtual_minimum ["s1"; "s2"] [F32.of_Z 1; F32.div (F32.of_Z 1) (F32.of_Z 3)]))
  = false
  /\ (forall k l c p,
         ["s1"; "s2"] !! k = Some l ->
         [F32.of_Z 1; F32.div (F32.of_Z 1) (F32.of_Z 3)] !! k = Some c ->
         contribution (platform_with {[ "s1" := "40"; "s2" := "90" ]}) l c = Some p ->
         isnan p = false ->
         SFleb (virtual_sensor_value (platform_with {[ "s1" := "40"; "s2" := "90" ]})
                  (virtual_minimum ["s1"; "s2"]
                     [F32.of_Z 1; F32.div (F32.of_Z 1) (F32.of_Z 3)])) p = true)
  /\ (virtual_sensor_value (platform_with {[ "s1" := "40"; "s2" := "90" ]})
        (virtual_minimum ["s1"; "s2"] [F32.of_Z 1; F32.div (F32.of_Z 1) (F32.of_Z 3)])
      = F64.of_float F32.max_float
      \/ exists k l c,
          ["s1"; "s2"] !! k = Some l
          /\ [F32.of_Z 1; F32.div (F32.of_Z 1) (F32.of_Z 3)] !! k = Some c
          /\ contribution (platform_with {[ "s1" := "40"; "s2" := "90" ]}) l c
             = Some (virtual_sensor_value (platform_with {[ "s1" := "40"; "s2" := "90" ]})
                       (virtual_minimum ["s1"; "s2"]
                          [F32.of_Z 1; F32.div (F32.of_Z 1) (F32.of_Z 3)]))).
Proof.
  apply (virtual_minimum_is_least_term
           (platform_with {[ "s1" := "40"; "s2" := "90" ]})
           (virtual_minimum ["s1"; "s2"] [F32.of_Z 1; F32.div (F32.of_Z 1) (F32.of_Z 3)])
           "s1" (F32.of_Z 1) (F64.of_Z 40));
    reflexivity.
Defined.

(** ** The other snapshot queries *)

Section Collect.
Context {I T : Type}.
Variable skip : string * I -> bool.
Variable read : string -> option (option T).

Lemma collect_loop_fails (items : list (string * I)) (ret : list T) :
  (forall p, p ∈ items -> skip p = false -> read p.1 <> None) ->
  (exists p, p ∈ items /\ skip p = false /\ read p.1 = Some None) ->
  collect_loop skip read items ret = Some None.
Proof.
  revert ret. induction items as [|a l IH]; intros ret Hdef (p & Hp & Hskip & Hfail).
  { by apply elem_of_nil in Hp. }
  cbn [collect_loop].
  assert (forall q, q ∈ l -> skip q = false -> read q.1 <> None) as Hdef'
    by (intros q Hq; apply Hdef; by right).
  apply elem_of_cons in Hp as [->|Hp].
  - by rewrite Hskip, Hfail.
  - destruct (skip a) eqn:Ha; [apply IH; eauto|].
    destruct (read a.1) as [[v|]|] eqn:E; cbn [mbind option_bind].
    + apply IH; eauto.
    + done.
    + exfalso. by apply (Hdef a); [left| |].
Qed.

Lemma collect_loop_succeeds (items : list (string * I)) (ret : list T) :
  (forall p, p ∈ items -> skip p = false -> exists r, read p.1 = Some (Some r)) ->
  exists ret',
    collect_loop skip read items ret = Some (Some (ret ++ ret'))
    /\ Forall2 (fun p r => read p.1 = Some (Some r))
               (filter (fun p => skip p = false) items) ret'.
Proof.
  revert ret. induction items as [|a l IH]; intros ret Hread.
  { exists []. rewrite app_nil_r. split; [done|]. constructor. }
  cbn [collect_loop].
  assert (forall p, p ∈ l -> skip p = false -> exists r, read p.1 = Some (Some r))
    as Hread' by (intros q Hq; apply Hread; by right).
  destruct (skip a) eqn:Hskip.
  - destruct (IH ret Hread') as (ret' & -> & Hret').
    exists ret'. split; [done|]. rewrite filter_cons_False; [done|congruence].
  - destruct (Hread a) as (v & E); [by left|done|].
    rewrite E. cbn [mbind option_bind].
    destruct (IH (ret ++ [v]) Hread') as (ret' & -> & Hret').
    exists (v :: ret'). split; [by rewrite <- app_assoc|].
    rewrite filter_cons_True by done. by constructor.
Qed.
End Collect.

(** The entries that a loop visits are those of the map. *)
Lemma visited_lookup {I : Type} (m : gmap string I) (visited : list (string * I))
    (p : string * I) :
  visited ≡ₚ map_to_list m -> p ∈ visited <-> m !! p.1 = Some p.2.
Proof.
  intros Hperm. rewrite Hperm. destruct p as [name info]. apply elem_of_map_to_list.
Qed.

(** X19.  [fillTemperatureThresholds] cannot fail: the caller's vector
    always receives one record for every sensor that passes the type
    filter, in the order in which the loop visits [sensor_info_map_], each
    with the type, the name, the hot and cold thresholds and the VR
    threshold of the sensor's configuration, and the result is true iff
    there is at least one. *)
Theorem threshold_query_never_fails
    (h : ThermalHelper) (visited : list (string * SensorInfo))
    (filterType : bool) (type : TemperatureType)
    (thresholds : list TemperatureThreshold) :
  visited ≡ₚ map_to_list (sensor_info_map_ h) ->
  exists ret,
    fillTemperatureThresholds h visited filterType type thresholds
    = Some (bool_decide (0 < length ret)%nat, ret)
    /\ Forall2 (fun (p : string * SensorInfo) r =>
                  r = {| threshold_type := sensor_type p.2;
                         threshold_name := p.1;
                         hotThrottlingThresholds := hot_thresholds p.2;
                         coldThrottlingThresholds := cold_thresholds p.2;
                         vrThrottlingThreshold := vr_threshold p.2 |})
               (filter (fun p : string * SensorInfo =>
                          filterType && bool_decide (sensor_type p.2 ≠ type) = false)
                       visited)
               ret.
Proof.
  intros Hperm. unfold fillTemperatureThresholds.
  assert (forall p : string * SensorInfo,
            p ∈ visited -> sensor_info_map_ h !! p.1 = Some p.2)
    as Hin by (intros p Hp; by apply (visited_lookup (sensor_info_map_ h) visited)).
  clear Hperm.
  destruct (collect_loop_succeeds
              (fun p : string * SensorInfo =>
                 filterType && bool_decide (sensor_type p.2 ≠ type))
              (fun name => Some (readTemperatureThreshold h name))
              visited []) as (ret & -> & Hret).
  { intros p Hp _. unfold readTemperatureThreshold.
    rewrite (Hin p Hp). by eexists. }
  exists ret. split; [done|].
  revert ret Hret. induction visited as [|a l IH]; intros ret Hret.
  { rewrite filter_nil in *. by inversion Hret. }
  assert (forall p, p ∈ l -> sensor_info_map_ h !! p.1 = Some p.2) as Hin'
    by (intros p Hp; apply Hin; by right).
  destruct (decide (filterType && bool_decide (sensor_type a.2 ≠ type) = false)).
  - rewrite filter_cons_True in * by done.
    inversion Hret as [|? r ? ret' Hr Hrest]; subst. constructor; [|by apply IH].
    unfold readTemperatureThreshold in Hr. rewrite (Hin a) in Hr by (by left).
    congruence.
  - rewrite filter_cons_False in * by done. by apply IH.
Qed.

(** On the two-sensor configuration the query returns the two threshold
    records. *)
Lemma threshold_query_never_fails_witness :
  exists ret,
    fillTemperatureThresholds two_sensor_helper
      (map_to_list (sensor_info_map_ two_sensor_helper)) false SKIN []
    = Some (bool_decide (0 < length ret)%nat, ret)
    /\ Forall2 (fun (p : string * SensorInfo) r =>
                  r = {| threshold_type := sensor_type p.2;
                         threshold_name := p.1;
                         hotThrottlingThresholds := hot_thresholds p.2;
                         coldThrottlingThresholds := cold_thresholds p.2;
                         vrThrottlingThreshold := vr_threshold p.2 |})
               (filter (fun p : string * SensorInfo =>
                          false && bool_decide (sensor_type p.2 ≠ SKIN) = false)
                       (map_to_list (sensor_info_map_ two_sensor_helper)))
               ret.
Proof.
  apply (threshold_query_never_fails two_sensor_helper
           (map_to_list (sensor_info_map_ two_sensor_helper)) false SKIN []).
  reflexivity.
Defined.

(** X20.  Provided every cooling-device file that is read holds a number,
    [fillCurrentCoolingDevices] is all or nothing: as soon as the file of
    one device that passes the type filter cannot be read it returns false
    and leaves the caller's vector as it was; when every such file is
    read, the vector receives one entry per such device, in the order in
    which the loop visits [cooling_device_info_map_], with the configured
    type, the name and the number read, reduced modulo [2^64] as the
    conversion to [uint64_t] does, and the result is true iff there is at
    least one. *)
Theorem fill_cooling_devices_all_or_nothing
    (readCdevFile : string -> option string) (stoi : string -> option Z)
    (h : ThermalHelper) (visited : list (string * CdevInfo))
    (filterType : bool) (type : Z)
    (cooling_devices : list CoolingDevice_2_0) :
  visited ≡ₚ map_to_list (cooling_device_info_map_ h) ->
  (forall name info data,
      cooling_device_info_map_ h !! name = Some info ->
      filterType && bool_decide (cdev_type info ≠ type) = false ->
      readCdevFile name = Some data -> is_Some (stoi data)) ->
  ((exists name info,
       cooling_device_info_map_ h !! name = Some info
       /\ filterType && bool_decide (cdev_type info ≠ type) = false
       /\ readCdevFile name = None) ->
   fillCurrentCoolingDevices readCdevFile stoi h visited filterType type cooling_devices
   = Some (false, cooling_devices))
  /\
  ((forall name info,
       cooling_device_info_map_ h !! name = Some info ->
       filterType && bool_decide (cdev_type info ≠ type) = false ->
       is_Some (readCdevFile name)) ->
   exists ret,
     fillCurrentCoolingDevices readCdevFile stoi h visited filterType type cooling_devices
     = Some (bool_decide (0 < length ret)%nat, ret)
     /\ Forall2 (fun (p : string * CdevInfo) d =>
                   exists data v,
                     readCdevFile p.1 = Some data
                     /\ stoi data = Some v
                     /\ cooling_value d = v mod 2 ^ 64
                     /\ cooling_type d = cdev_type p.2
                     /\ cooling_name d = p.1)
                (filter (fun p : string * CdevInfo =>
                           filterType && bool_decide (cdev_type p.2 ≠ type) = false)
                        visited)
                ret).
Proof.
  intros Hperm Hnum. unfold fillCurrentCoolingDevices.
  assert (forall p : string * CdevInfo,
            p ∈ visited ->
            filterType && bool_decide (cdev_type p.2 ≠ type) = false ->
            match readCdevFile p.1 with
            | None => readCoolingDevice readCdevFile stoi h p.1 = Some None
            | Some data =>
                exists v, stoi data = Some v
                          /\ readCoolingDevice readCdevFile stoi h p.1
                             = Some (Some {| cooling_type := cdev_type p.2;
                                             cooling_name := p.1;
                                             cooling_value := v mod 2 ^ 64 |})
            end) as Hread.
  { intros [name info] Hp Hsel.
    apply (visited_lookup (cooling_device_info_map_ h) visited) in Hp; [|done].
    cbn [fst snd] in *. unfold readCoolingDevice.
    destruct (readCdevFile name) as [data|] eqn:Hdata; [|done].
    destruct (Hnum name info data Hp Hsel Hdata) as [v Hv].
    exists v. rewrite Hp, Hv. done. }
  split.
  - intros (name & info & Hinfo & Hsel & Hfail).
    assert ((name, info) ∈ visited) as Hvis
      by (by apply (visited_lookup (cooling_device_info_map_ h) visited)).
    rewrite (collect_loop_fails _ _ _ []); [done| |].
    + intros p Hp Hsel'. specialize (Hread p Hp Hsel').
      destruct (readCdevFile p.1); [destruct Hread as (v & _ & ->)|rewrite Hread]; done.
    + exists (name, info). split; [done|]. split; [done|].
      specialize (Hread (name, info)). cbn [fst snd] in Hread. rewrite Hfail in Hread.
      by apply Hread.
  - intros Hall.
    destruct (collect_loop_succeeds
                (fun p : string * CdevInfo =>
                   filterType && bool_decide (cdev_type p.2 ≠ type))
                (readCoolingDevice readCdevFile stoi h)
                visited []) as (ret & -> & Hret).
    { intros p Hp Hsel. specialize (Hread p Hp Hsel).
      apply (visited_lookup (cooling_device_info_map_ h) visited) in Hp; [|done].
      destruct (Hall p.1 p.2 Hp Hsel) as [data Hdata].
      rewrite Hdata in Hread. destruct Hread as (v & _ & ->). by eexists. }
    exists ret. split; [done|].
    clear Hperm. revert ret Hret. induction visited as [|a l IH]; intros ret Hret.
    { rewrite filter_nil in *. by inversion Hret. }
    assert (forall p, p ∈ l ->
              filterType && bool_decide (cdev_type p.2 ≠ type) = false ->
              match readCdevFile p.1 with
              | None => readCoolingDevice readCdevFile stoi h p.1 = Some None
              | Some data =>
                  exists v, stoi data = Some v
                            /\ readCoolingDevice readCdevFile stoi h p.1
                               = Some (Some {| cooling_type := cdev_type p.2;
                                               cooling_name := p.1;
                                               cooling_value := v mod 2 ^ 64 |})
              end) as Hread' by (intros p Hp; apply Hread; by right).
    destruct (decide (filterType && bool_decide (cdev_type a.2 ≠ type) = false)) as [Hsel|].
    + rewrite filter_cons_True in * by done.
      inversion Hret as [|? r ? ret' Hr Hrest]; subst. constructor; [|by apply IH].
      specialize (Hread a ltac:(by left) Hsel).
      destruct (readCdevFile a.1) as [data|]; [|congruence].
      destruct Hread as (v & Hv & Hrd). rewrite Hrd in Hr. injection Hr as <-.
      by exists data, v.
    + rewrite filter_cons_False in * by done. by apply IH.
Qed.

(** With no readable file the query fails; with the file of "cpu_freq"
    holding -1 it returns one entry, whose value is [2^64 - 1]. *)
Lemma fill_cooling_devices_all_or_nothing_witness :
  fillCurrentCoolingDevices (fun _ => None) (fun _ => Some 0) two_sensor_helper
    (map_to_list (cooling_device_info_map_ two_sensor_helper)) false 0 []
  = Some (false, [])
  /\ exists ret,
      fillCurrentCoolingDevices (fun _ => Some "-1") (fun _ => Some (-1))
        two_sensor_helper
        (map_to_list (cooling_device_info_map_ two_sensor_helper)) false 0 []
      = Some (bool_decide (0 < length ret)%nat, ret)
      /\ Forall2 (fun (p : string * CdevInfo) d =>
                    exists data v,
                      Some "-1" = Some data
                      /\ Some (-1) = Some v
                      /\ cooling_value d = v mod 2 ^ 64
                      /\ cooling_type d = cdev_type p.2
                      /\ cooling_name d = p.1)
                 (filter (fun p : string * CdevInfo =>
                            false && bool_decide (cdev_type p.2 ≠ 0) = false)
                         (map_to_list (cooling_device_info_map_ two_sensor_helper)))
                 ret.
Proof.
  split.
  - apply (proj1 (fill_cooling_devices_all_or_nothing (fun _ => None) (fun _ => Some 0)
                    two_sensor_helper
                    (map_to_list (cooling_device_info_map_ two_sensor_helper))
                    false 0 [] ltac:(reflexivity) ltac:(by eexists))).
    exists "cpu_freq", scenario_cdev. split; [vm_compute; reflexivity|]. done.
  - apply (proj2 (fill_cooling_devices_all_or_nothing
                    (fun _ => Some "-1") (fun _ => Some (-1))
                    two_sensor_helper
                    (map_to_list (cooling_device_info_map_ two_sensor_helper))
                    false 0 [] ltac:(reflexivity) ltac:(by eexists))).
    intros name info _ _. by eexists.
Defined.

(** The value that a file holding -1 gives. *)
Lemma cooling_value_wraps :
  readCoolingDevice (fun _ => Some "-1") (fun _ => Some (-1)) two_sensor_helper "cpu_freq"
  = Some (Some {| cooling_type := cdev_type scenario_cdev;
                  cooling_name := "cpu_freq";
                  cooling_value := 18446744073709551615 |}).
Proof. vm_compute. reflexivity. Qed.

(** ** fillTemperatures *)

(** A configured sensor whose file holds a text that converts is read
    without an exception. *)
Lemma readTemperature_1_0_defined (fs : Platform) (h : ThermalHelper) (name : string) :
  is_Some (sensor_info_map_ h !! name) ->
  (forall data, readThermalFile fs name = Some data -> data <> "" ->
                stof_converts fs data = true) ->
  readTemperature_1_0 fs h name <> None.
Proof.
  intros [info Hinfo] Hnum. unfold readTemperature_1_0.
  destruct (readThermalFile fs name) as [temp|]; [|done].
  destruct (decide (temp = "")) as [->|Hne].
  { by rewrite bool_decide_eq_true_2. }
  rewrite bool_decide_eq_false_2 by done.
  rewrite Hinfo. cbn [mbind option_bind].
  by rewrite (Hnum temp eq_refl Hne).
Qed.

Lemma fill_temperatures_1_0_loop_is_Some fs h (sensors : list (string * SensorInfo))
    (temperatures : list Temperature_1_0) (i : nat) :
  (forall p, p ∈ sensors -> readTemperature_1_0 fs h p.1 <> None) ->
  is_Some (fill_temperatures_1_0_loop fs h sensors temperatures i).
Proof.
  revert temperatures i. induction sensors as [|a l IH]; intros temps i Hdef.
  { by eexists. }
  cbn [fill_temperatures_1_0_loop].
  destruct (readTemperature_1_0 fs h a.1) as [[t|]|] eqn:Hread;
    cbn [mbind option_bind].
  - apply IH. intros p Hp. apply Hdef. by right.
  - by eexists.
  - exfalso. by apply (Hdef a); [left|].
Qed.

Lemma fill_temperatures_1_0_loop_spec fs h (sensors : list (string * SensorInfo))
    (temperatures : list Temperature_1_0) (i : nat) b out :
  fill_temperatures_1_0_loop fs h sensors temperatures i = Some (b, out) ->
  (i + length sensors <= length temperatures)%nat ->
  exists k,
    (k <= length sensors)%nat
    /\ length out = length temperatures
    /\ (forall j p, (j < k)%nat -> sensors !! j = Some p ->
          exists t, readTemperature_1_0 fs h p.1 = Some (Some t)
                    /\ out !! (i + j)%nat = Some t)
    /\ (forall j, (j < i \/ i + k <= j)%nat -> out !! j = temperatures !! j)
    /\ ((k < length sensors)%nat ->
        b = false
        /\ exists p, sensors !! k = Some p
                     /\ readTemperature_1_0 fs h p.1 = Some None)
    /\ (k = length sensors -> b = bool_decide (0 < i + k)%nat).
Proof.
  revert temperatures i. induction sensors as [|a l IH]; intros temps i Hloop Hlen.
  { injection Hloop as <- <-. exists 0%nat. split; [done|]. split; [done|].
    split; [intros; lia|]. split; [done|]. split; [cbn; lia|].
    intros _. by rewrite Nat.add_0_r. }
  cbn [fill_temperatures_1_0_loop] in Hloop. cbn [length] in Hlen.
  destruct (readTemperature_1_0 fs h a.1) as [[t|]|] eqn:Hread;
    cbn [mbind option_bind] in Hloop; [| |done].
  - destruct (IH _ _ Hloop) as (k & Hk & Hout & Hfirst & Hrest & Hfail & Hall).
    { rewrite length_insert. lia. }
    rewrite length_insert in Hout.
    exists (S k). split; [cbn; lia|]. split; [done|]. split; [|split; [|split]].
    + intros [|j] p Hj Hp; cbn in Hp.
      * injection Hp as <-. exists t. split; [done|].
        rewrite Nat.add_0_r, Hrest by lia. apply list_lookup_insert_eq. lia.
      * destruct (Hfirst j p) as (t' & ? & Ht'); [lia|done|].
        exists t'. split; [done|]. by replace (i + S j)%nat with (S i + j)%nat by lia.
    + intros j Hj. rewrite Hrest by lia. apply list_lookup_insert_ne. lia.
    + intros Hlt. apply Hfail. cbn in Hlt. lia.
    + intros [= ->]. rewrite Hall by done.
      by replace (i + S (length l))%nat with (S i + length l)%nat by lia.
  - injection Hloop as <- <-. exists 0%nat. split; [lia|]. split; [done|].
    split; [intros; lia|]. split; [done|]. split.
    + intros _. split; [done|]. by exists a.
    + done.
Qed.

(** X21.  Provided every sensor file that is read holds a text that
    [std::stof] converts, [fillTemperatures] returns, and it writes into
    the caller's vector as it goes.  The vector always ends with one
    element per configured sensor; the elements of the sensors read before
    the first failure are their readings, in the order in which the loop
    visits [sensor_info_map_]; from the sensor whose read failed on, the
    elements are those of the resized vector, old or value-initialised.
    The result is true iff every sensor was read and there is at least
    one. *)
Theorem fill_temperatures_stops_at_first_failure
    (fs : Platform) (h : ThermalHelper) (visited : list (string * SensorInfo))
    (value_initialized : Temperature_1_0) (temperatures : list Temperature_1_0) :
  visited ≡ₚ map_to_list (sensor_info_map_ h) ->
  (forall name data,
      is_Some (sensor_info_map_ h !! name) ->
      readThermalFile fs name = Some data -> data <> "" ->
      stof_converts fs data = true) ->
  exists b out k,
    fillTemperatures fs h visited value_initialized temperatures = Some (b, out)
    /\ (k <= length visited)%nat
    /\ length out = length visited
    /\ (forall j name info,
          (j < k)%nat -> visited !! j = Some (name, info) ->
          exists t, readTemperature_1_0 fs h name = Some (Some t) /\ out !! j = Some t)
    /\ (forall j,
          (k <= j)%nat ->
          out !! j = resize (length visited) value_initialized temperatures !! j)
    /\ ((k < length visited)%nat ->
        exists name info,
          visited !! k = Some (name, info)
          /\ readTemperature_1_0 fs h name = Some None)
    /\ (b = true <-> k = length visited /\ (0 < k)%nat).
Proof.
  intros Hperm Hnum. unfold fillTemperatures.
  assert (size (sensor_info_map_ h) = length visited) as Hsize
    by (by rewrite Hperm, length_map_to_list).
  rewrite Hsize.
  assert (length (resize (length visited) value_initialized temperatures)
          = length visited) as Hlen.
  { unfold resize. rewrite length_app, length_take, length_replicate. lia. }
  destruct (fill_temperatures_1_0_loop_is_Some fs h visited
              (resize (length visited) value_initialized temperatures) 0)
    as [[b out] Hloop].
  { intros p Hp. apply (visited_lookup (sensor_info_map_ h) visited) in Hp; [|done].
    apply readTemperature_1_0_defined; [by eexists|].
    intros data. apply Hnum. by eexists. }
  exists b, out. rewrite Hloop.
  apply fill_temperatures_1_0_loop_spec in Hloop
    as (k & Hk & Hout & Hfirst & Hrest & Hfail & Hall); [|lia].
  rewrite Hlen in Hout.
  exists k. split; [done|]. split; [done|]. split; [done|]. split; [|split; [|split]].
  - intros j name info Hj Hp. by apply (Hfirst j (name, info)).
  - intros j Hj. apply Hrest. lia.
  - intros Hlt. destruct Hfail as (_ & [name info] & Hp & Hr); [lia|].
    by exists name, info.
  - split.
    + intros ->. destruct (decide (k = length visited)) as [Heq|Hne].
      * split; [done|]. specialize (Hall Heq). symmetry in Hall.
        apply bool_decide_eq_true in Hall. lia.
      * destruct Hfail as [? _]; [lia|done].
    + intros [Heq Hpos]. rewrite (Hall Heq). apply bool_decide_eq_true. lia.
Qed.

(** With "A" at 70 and "B" unreadable, on the order of the map. *)
Lemma fill_temperatures_stops_at_first_failure_witness :
  exists b out k,
    fillTemperatures (platform_with {[ "A" := "70" ]}) two_sensor_helper
                     (map_to_list (sensor_info_map_ two_sensor_helper))
                     value_initialized_temperature [] = Some (b, out)
    /\ (k <= length (map_to_list (sensor_info_map_ two_sensor_helper)))%nat
    /\ length out = length (map_to_list (sensor_info_map_ two_sensor_helper))
    /\ (forall j name info,
          (j < k)%nat ->
          map_to_list (sensor_info_map_ two_sensor_helper) !! j = Some (name, info) ->
          exists t,
            readTemperature_1_0 (platform_with {[ "A" := "70" ]}) two_sensor_helper name
            = Some (Some t)
            /\ out !! j = Some t)
    /\ (forall j,
          (k <= j)%nat ->
          out !! j = resize (length (map_to_list (sensor_info_map_ two_sensor_helper)))
                            value_initialized_temperature [] !! j)
    /\ ((k < length (map_to_list (sensor_info_map_ two_sensor_helper)))%nat ->
        exists name info,
          map_to_list (sensor_info_map_ two_sensor_helper) !! k = Some (name, info)
          /\ readTemperature_1_0 (platform_with {[ "A" := "70" ]}) two_sensor_helper name
             = Some None)
    /\ (b = true <->
        k = length (map_to_list (sensor_info_map_ two_sensor_helper)) /\ (0 < k)%nat).
Proof.
  apply (fill_temperatures_stops_at_first_failure
           (platform_with {[ "A" := "70" ]}) two_sensor_helper
           (map_to_list (sensor_info_map_ two_sensor_helper))
           value_initialized_temperature []).
  - reflexivity.
  - intros name data _. apply platform_files_convert. compute_done.
Defined.

(** ** The power-hint bridge *)

Section PowerHintTable.
Variable PowerHal : Type.
Variable mode_supported : PowerHal -> string -> ThrottlingSeverity -> bool * PowerHal.

(** The inner loop leaves, for every severity, the highest severity not
    above it that the service supports, as a function [eff]. *)
Lemma supported_fold (name : string) (service : PowerHal)
    (m0 : gmap ThrottlingSeverity ThrottlingSeverity) :
  exists (eff : ThrottlingSeverity -> ThrottlingSeverity) service' hints,
    foldl (supported_step PowerHal mode_supported name) (service, m0, NONE) hidl_enum_range
    = (service', hints, eff SHUTDOWN)
    /\ (forall s, hints !! s = Some (eff s))
    /\ eff NONE = NONE
    /\ (forall s, sev_ltb s (eff s) = false)
    /\ (forall s, eff (eff s) = eff s)
    /\ (forall s s', sev_ltb s s' = true -> sev_ltb (eff s') (eff s) = false).
Proof.
  assert (forall svc hints cur sev,
            sev <> NONE ->
            supported_step PowerHal mode_supported name (svc, hints, cur) sev
            = ((mode_supported svc name sev).2,
               <[sev := if (mode_supported svc name sev).1 then sev else cur]> hints,
               if (mode_supported svc name sev).1 then sev else cur)) as Hstep.
  { intros svc hints cur sev Hsev. unfold supported_step.
    rewrite (bool_decide_eq_false_2 _ Hsev). by destruct (mode_supported svc name sev). }
  unfold hidl_enum_range. cbn [foldl].
  replace (supported_step PowerHal mode_supported name (service, m0, NONE) NONE)
    with (service, <[NONE := NONE]> m0, NONE) by done.
  rewrite !Hstep by done.
  destruct (mode_supported service name LIGHT) as [a1 s1]. cbn [fst snd].
  destruct (mode_supported s1 name MODERATE) as [a2 s2]. cbn [fst snd].
  destruct (mode_supported s2 name SEVERE) as [a3 s3]. cbn [fst snd].
  destruct (mode_supported s3 name CRITICAL) as [a4 s4]. cbn [fst snd].
  destruct (mode_supported s4 name EMERGENCY) as [a5 s5]. cbn [fst snd].
  destruct (mode_supported s5 name SHUTDOWN) as [a6 s6]. cbn [fst snd].
  set (e1 := if a1 then LIGHT else NONE).
  set (e2 := if a2 then MODERATE else e1).
  set (e3 := if a3 then SEVERE else e2).
  set (e4 := if a4 then CRITICAL else e3).
  set (e5 := if a5 then EMERGENCY else e4).
  set (e6 := if a6 then SHUTDOWN else e5).
  exists (mk_array NONE e1 e2 e3 e4 e5 e6). eexists _, _.
  split; [reflexivity|]. split.
  { intros []; by simplify_map_eq. }
  subst e1 e2 e3 e4 e5 e6.
  split; [done|]. split; [|split].
  - destruct a1, a2, a3, a4, a5, a6; by intros [].
  - destruct a1, a2, a3, a4, a5, a6; by intros [].
  - destruct a1, a2, a3, a4, a5, a6; intros [] []; cbn; done.
Qed.

(** X22.  After [updateSupportedPowerHints], a sensor that does not send
    power hints has the table entry it had; a sensor that does has a full
    table in which NONE stands for NONE, the severity that stands for a
    severity is never above it, stands for itself, and does not decrease
    when the severity increases. *)
Theorem supported_hints_never_exceed_severity
    (h : ThermalHelper) (service : PowerHal) (supported : SupportedHints)
    (name : string) :
  match sensor_info_map_ h !! name with
  | None =>
      (updateSupportedPowerHints PowerHal mode_supported h service supported).2 !! name
      = supported !! name
  | Some info =>
      if send_powerhint info then
        exists eff : ThrottlingSeverity -> ThrottlingSeverity,
          (exists hints,
              (updateSupportedPowerHints PowerHal mode_supported h service supported).2
                !! name = Some hints
              /\ forall s, hints !! s = Some (eff s))
          /\ eff NONE = NONE
          /\ (forall s, sev_ltb s (eff s) = false)
          /\ (forall s, eff (eff s) = eff s)
          /\ (forall s s', sev_ltb s s' = true -> sev_ltb (eff s') (eff s) = false)
      else
        (updateSupportedPowerHints PowerHal mode_supported h service supported).2 !! name
        = supported !! name
  end.
Proof.
  unfold updateSupportedPowerHints.
  pose proof (NoDup_fst_map_to_list (sensor_info_map_ h)) as Hnd.
  assert (forall info, (name, info) ∈ map_to_list (sensor_info_map_ h)
                       <-> sensor_info_map_ h !! name = Some info) as Hin
    by (intros; apply elem_of_map_to_list).
  revert Hnd Hin. generalize (map_to_list (sensor_info_map_ h)).
  generalize (sensor_info_map_ h !! name). intros o l. revert o service supported.
  induction l as [|[n i] l IH]; intros o service supported Hnd Hin.
  { destruct o as [info|]; [|done].
    pose proof (proj2 (Hin info) eq_refl) as H. by apply elem_of_nil in H. }
  cbn [fmap list_fmap fst] in Hnd. apply NoDup_cons in Hnd as [Hnotin Hnd].
  cbn [foldl fst snd].
  destruct (decide (n = name)) as [->|Hne].
  - assert (o = Some i) as -> by (apply Hin; left).
    assert (forall acc,
              (foldl (fun (acc : PowerHal * SupportedHints)
                          (name_status_pair : string * SensorInfo) =>
                        if negb (send_powerhint name_status_pair.2) then acc
                        else
                          let '(service, hints, _) :=
                            foldl (supported_step PowerHal mode_supported
                                                  name_status_pair.1)
                                  (acc.1, default ∅ (acc.2 !! name_status_pair.1), NONE)
                                  hidl_enum_range in
                          (service, <[name_status_pair.1 := hints]> acc.2))
                     acc l).2 !! name = acc.2 !! name) as Hrest.
    { intros [svc sup]. specialize (IH None svc sup Hnd). cbn [snd]. apply IH.
      intros info. split; [|done]. intros Hi. destruct Hnotin.
      apply list_elem_of_fmap. by exists (name, info). }
    destruct (send_powerhint i) eqn:Hsend; cbn [negb].
    + destruct (supported_fold name service (default ∅ (supported !! name)))
        as (eff & service' & hints & -> & Hhints & Heff).
      exists eff. split; [|exact Heff].
      exists hints. split; [|done]. rewrite Hrest. cbn [snd].
      by rewrite lookup_insert_eq.
    + by rewrite Hrest.
  - assert (forall info, (name, info) ∈ l <-> o = Some info) as Hin'.
    { intros info. rewrite <- Hin. rewrite elem_of_cons. split; [by right|].
      intros [[= ? ?]|?]; [congruence|done]. }
    destruct (send_powerhint i); cbn [negb].
    + destruct (supported_fold n service (default ∅ (supported !! n)))
        as (eff & service' & hints & -> & _).
      specialize (IH o service' (<[n := hints]> supported) Hnd Hin').
      destruct o as [info|].
      * destruct (send_powerhint info); [done|].
        rewrite IH. by rewrite lookup_insert_ne.
      * rewrite IH. by rewrite lookup_insert_ne.
    + apply (IH o service supported Hnd Hin').
Qed.
End PowerHintTable.

Lemma hint_enabled_snoc (calls : list (string * ThrottlingSeverity * bool))
    (call : string * ThrottlingSeverity * bool) (name : string) (sev : ThrottlingSeverity) :
  hint_enabled (calls ++ [call]) name sev
  = if bool_decide (call.1.1 = name /\ call.1.2 = sev) then call.2
    else hint_enabled calls name sev.
Proof. unfold hint_enabled. by rewrite foldl_snoc. Qed.

(** X23.  [sendPowerExtHint] keeps the bridge's memory and its calls in
    step: if, for every sensor, the hint that the calls of [setMode] made
    so far leave enabled is the one of [prev_hint_severity] (none when it
    is NONE), the same holds after the call.  At most one hint per sensor
    is enabled at any time. *)
Theorem hint_calls_match_memory (b b' : HintBridge) (t : Temperature_2_0) :
  hints_as_remembered b ->
  sendPowerExtHint b t = Some b' ->
  hints_as_remembered b'.
Proof.
  intros Hinv. unfold sendPowerExtHint.
  destruct (hint_status_map b !! temp_name t) as [st|] eqn:Hst;
    cbn [mbind option_bind]; [|done].
  set (cur := default NONE (default ∅ (supported_powerhint_map_ b !! temp_name t)
                              !! throttlingStatus t)).
  destruct (decide (prev_hint_severity st = cur)) as [Heq|Hne].
  { rewrite (bool_decide_eq_true_2 _ Heq). intros [= <-]. exact Hinv. }
  rewrite (bool_decide_eq_false_2 _ Hne). intros [= <-].
  intros name st'. cbn [hint_status_map mode_calls].
  destruct (decide (name = temp_name t)) as [->|Hname].
  - rewrite lookup_insert_eq. intros [= <-] sev. cbn [prev_hint_severity set_prev_hint_severity].
    specialize (Hinv _ _ Hst sev).
    repeat match goal with
           | |- context [bool_decide ?P] =>
               destruct (decide P);
               [rewrite (bool_decide_eq_true_2 P) by done
               |rewrite (bool_decide_eq_false_2 P) by done]
           | |- context [hint_enabled (_ ++ [_]) _ _] =>
               rewrite hint_enabled_snoc; cbn [fst snd]
           end;
      try (rewrite Hinv); intuition congruence.
  - rewrite lookup_insert_ne by done. intros Hst' sev.
    rewrite <- (Hinv _ _ Hst' sev).
    repeat match goal with
           | |- context [bool_decide ?P] =>
               destruct (decide P);
               [rewrite (bool_decide_eq_true_2 P) by done
               |rewrite (bool_decide_eq_false_2 P) by done]
           | |- context [hint_enabled (_ ++ [_]) _ _] =>
               rewrite hint_enabled_snoc; cbn [fst snd]
           end;
      intuition congruence.
Qed.

(** X24.  Hint idempotence: sending the same temperature again right
    after [sendPowerExtHint] changes nothing, neither the statuses, nor
    the table of supported hints, nor the calls of [setMode]. *)
Theorem hint_is_idempotent (b b' : HintBridge) (t : Temperature_2_0) :
  sendPowerExtHint b t = Some b' ->
  sendPowerExtHint b' t = Some b'.
Proof.
  unfold sendPowerExtHint.
  destruct (hint_status_map b !! temp_name t) as [st|] eqn:Hst;
    cbn [mbind option_bind]; [|done].
  set (hints := default ∅ (supported_powerhint_map_ b !! temp_name t)).
  set (cur := default NONE (hints !! throttlingStatus t)).
  assert (forall sm calls st',
            sm !! temp_name t = Some st' -> prev_hint_severity st' = cur ->
            sendPowerExtHint
              {| hint_status_map := sm;
                 supported_powerhint_map_ :=
                   <[temp_name t := <[throttlingStatus t := cur]> hints]>
                     (supported_powerhint_map_ b);
                 mode_calls := calls |} t
            = Some {| hint_status_map := sm;
                      supported_powerhint_map_ :=
                        <[temp_name t := <[throttlingStatus t := cur]> hints]>
                          (supported_powerhint_map_ b);
                      mode_calls := calls |}) as Hagain.
  { intros sm calls st' Hst' Hprev. unfold sendPowerExtHint.
    cbn [hint_status_map supported_powerhint_map_ mode_calls].
    rewrite Hst'. cbn [mbind option_bind]. cbv zeta.
    rewrite !lookup_insert_eq. cbn [default from_option id].
    rewrite !lookup_insert_eq. cbn [default from_option id].
    rewrite Hprev, (bool_decide_eq_true_2 (cur = cur)) by done.
    by rewrite !insert_insert_eq. }
  destruct (decide (prev_hint_severity st = cur)) as [Heq|Hne].
  - rewrite (bool_decide_eq_true_2 _ Heq). intros [= <-]. by apply (Hagain _ _ st).
  - rewrite (bool_decide_eq_false_2 _ Hne). intros [= <-].
    apply (Hagain _ _ (set_prev_hint_severity st cur)); [|done].
    by rewrite lookup_insert_eq.
Qed.

Lemma hint_bridge_start_remembered : hints_as_remembered hint_bridge_start.
Proof.
  intros name st Hst sev. cbn in Hst.
  apply lookup_singleton_Some in Hst as [<- <-]. cbn. intuition congruence.
Qed.

Lemma hint_calls_match_memory_witness : hints_as_remembered hint_bridge_severe.
Proof.
  apply (hint_calls_match_memory hint_bridge_start hint_bridge_severe
           (hint_reading SEVERE)).
  - exact hint_bridge_start_remembered.
  - vm_compute. reflexivity.
Defined.

Lemma hint_is_idempotent_witness :
  sendPowerExtHint hint_bridge_severe (hint_reading SEVERE) = Some hint_bridge_severe.
Proof.
  apply (hint_is_idempotent hint_bridge_start hint_bridge_severe (hint_reading SEVERE)).
  vm_compute. reflexivity.
Defined.

(** ** PowerHalService::connect *)

Section PowerHalConnect.
Variables Binder IPower IPowerExt : Type.

Local Abbreviation Service := (PowerHalService IPower IPowerExt).
Local Abbreviation Answers := (BinderAnswers Binder IPower IPowerExt).

Lemma connect_down (answers : Answers) (s : Service) :
  power_hal_aidl_exist_ _ _ s = false ->
  connect Binder IPower IPowerExt answers s = (false, s).
Proof. intros H. unfold connect. by rewrite H. Qed.

Lemma connect_false (answers : Answers) (s : Service) :
  (connect Binder IPower IPowerExt answers s).1 = false ->
  power_hal_aidl_exist_ _ _ (connect Binder IPower IPowerExt answers s).2 = false.
Proof.
  unfold connect. destruct (power_hal_aidl_exist_ _ _ s) eqn:E; cbn [negb]; [|done].
  destruct (power_hal_aidl_ _ _ s); [done|].
  destruct (getService _ _ _ answers) as [b|]; [|done].
  destruct (IPower_fromBinder _ _ _ answers b); [|done].
  by destruct (getExtension _ _ _ answers b) as [[] []].
Qed.

(** X25.  A failed [connect] is final: once a call of [connect] has
    returned false, every later call returns false and changes nothing,
    whatever the service manager and the binders would answer. *)
Theorem connect_failure_is_final
    (s : Service) (before : list Answers) (failing : Answers) (after : list Answers) :
  (connect Binder IPower IPowerExt failing
     (connect_calls Binder IPower IPowerExt s before).2).1 = false ->
  (connect_calls Binder IPower IPowerExt s (before ++ failing :: after)).1
  = (connect_calls Binder IPower IPowerExt s before).1 ++ false :: replicate (length after) false
  /\ (connect_calls Binder IPower IPowerExt s (before ++ failing :: after)).2
     = (connect Binder IPower IPowerExt failing
          (connect_calls Binder IPower IPowerExt s before).2).2.
Proof.
  revert s. induction before as [|a before IH]; intros s Hfail.
  - cbn [connect_calls app snd] in *.
    pose proof (connect_false _ _ Hfail) as Hdown.
    destruct (connect Binder IPower IPowerExt failing s) as [ok s1].
    cbn [fst snd] in *. subst ok.
    assert (connect_calls Binder IPower IPowerExt s1 after
            = (replicate (length after) false, s1)) as ->; [|done].
    induction after as [|a after IHa]; [done|].
    cbn [connect_calls]. rewrite (connect_down a s1 Hdown), IHa. done.
  - cbn [connect_calls app] in *.
    destruct (connect Binder IPower IPowerExt a s) as [ok s1].
    specialize (IH s1).
    destruct (connect_calls Binder IPower IPowerExt s1 before) as [oks s2] eqn:E1.
    destruct (connect_calls Binder IPower IPowerExt s1 (before ++ failing :: after))
      as [oks' s3] eqn:E2.
    cbn [fst snd] in *. destruct (IH Hfail) as [-> ->]. done.
Qed.
End PowerHalConnect.

Lemma connect_failure_is_final_witness :
  (connect_calls unit unit unit
     {| power_hal_aidl_exist_ := true; power_hal_aidl_ := None;
        power_hal_ext_aidl_ := None |}
     ([] ++ no_power_service :: [full_power_service])).1
  = (connect_calls unit unit unit
       {| power_hal_aidl_exist_ := true; power_hal_aidl_ := None;
          power_hal_ext_aidl_ := None |} []).1
    ++ false :: replicate (length [full_power_service]) false
  /\ (connect_calls unit unit unit
        {| power_hal_aidl_exist_ := true; power_hal_aidl_ := None;
           power_hal_ext_aidl_ := None |}
        ([] ++ no_power_service :: [full_power_service])).2
     = (connect unit unit unit no_power_service
          (connect_calls unit unit unit
             {| power_hal_aidl_exist_ := true; power_hal_aidl_ := None;
                power_hal_ext_aidl_ := None |} []).2).2.
Proof.
  apply (connect_failure_is_final unit unit unit
           {| power_hal_aidl_exist_ := true; power_hal_aidl_ := None;
              power_hal_ext_aidl_ := None |}
           [] no_power_service [full_power_service]).
  reflexivity.
Defined.

(** ** Remote calls that fail *)

Section PowerHalFailure.
Variables Binder IPower IPowerExt : Type.
Variable isPowerHalConnected : PowerHalService IPower IPowerExt -> bool.
Variable ext_isModeSupported : IPowerExt -> string -> option bool.
Variable ext_setMode : IPowerExt -> string -> bool -> bool.

Lemma connect_calls_down (s : PowerHalService IPower IPowerExt)
    (answers : list (BinderAnswers Binder IPower IPowerExt)) :
  power_hal_aidl_exist_ _ _ s = false ->
  connect_calls Binder IPower IPowerExt s answers = (replicate (length answers) false, s).
Proof.
  intros Hdown. induction answers as [|a answers IH]; [done|].
  cbn [connect_calls]. by rewrite (connect_down _ _ _ a s Hdown), IH.
Qed.

(** X26.  A remote call that fails is final too: when [setMode] or
    [isModeSupported] reaches the service and the status is not ok, the
    handles are dropped and no later [connect] succeeds, whatever the
    service manager and the binders would answer. *)
Theorem remote_failure_is_final
    (s : PowerHalService IPower IPowerExt) (ext : IPowerExt)
    (type : string) (t : ThrottlingSeverity) (enable : bool)
    (answers : list (BinderAnswers Binder IPower IPowerExt)) :
  isPowerHalConnected s = true ->
  power_hal_ext_aidl_ _ _ s = Some ext ->
  (ext_setMode ext (power_hint type t) enable = false ->
   exists s',
     setMode IPower IPowerExt isPowerHalConnected ext_setMode s type t enable = Some s'
     /\ power_hal_aidl_ _ _ s' = None /\ power_hal_ext_aidl_ _ _ s' = None
     /\ connect_calls Binder IPower IPowerExt s' answers
        = (replicate (length answers) false, s'))
  /\
  (ext_isModeSupported ext (power_hint type t) = None ->
   exists s',
     isModeSupported IPower IPowerExt isPowerHalConnected ext_isModeSupported s type t
     = Some (false, s')
     /\ power_hal_aidl_ _ _ s' = None /\ power_hal_ext_aidl_ _ _ s' = None
     /\ connect_calls Binder IPower IPowerExt s' answers
        = (replicate (length answers) false, s')).
Proof.
  intros Hconn Hext. unfold setMode, isModeSupported.
  rewrite Hconn, Hext. cbn [negb mbind option_bind]. split.
  - intros ->. cbn [negb]. exists (power_hal_lost IPower IPowerExt).
    split; [done|]. split; [done|]. split; [done|]. by apply connect_calls_down.
  - intros ->. exists (power_hal_lost IPower IPowerExt).
    split; [done|]. split; [done|]. split; [done|]. by apply connect_calls_down.
Qed.
End PowerHalFailure.

Lemma remote_failure_is_final_witness :
  (exists s',
      setMode unit unit (fun _ => true) (fun _ _ _ => false)
        {| power_hal_aidl_exist_ := true; power_hal_aidl_ := Some tt;
           power_hal_ext_aidl_ := Some tt |} "A" SEVERE true = Some s'
      /\ power_hal_aidl_ _ _ s' = None /\ power_hal_ext_aidl_ _ _ s' = None
      /\ connect_calls unit unit unit s' [full_power_service]
         = (replicate (length [full_power_service]) false, s')).
Proof.
  apply (proj1 (remote_failure_is_final unit unit unit (fun _ => true)
                  (fun _ _ => None) (fun _ _ _ => false)
                  {| power_hal_aidl_exist_ := true; power_hal_aidl_ := Some tt;
                     power_hal_ext_aidl_ := Some tt |}
                  tt "A" SEVERE true [full_power_service] eq_refl eq_refl)).
  reflexivity.
Defined.

(** ** initializeTrip *)

Section TripInit.
Variable fs : Platform.
Variable ReadFileToString : string -> option string.
Variable WriteStringToFile : string -> string -> bool.
Variables kSensorPolicyFile kUserSpaceSuffix : string.
Variables kSensorTripPointTempZeroFile kSensorTripPointHystZeroFile : string.
Variable int_to_string : float -> string.

Local Abbreviation trip_loop :=
  (trip_point_loop WriteStringToFile kSensorTripPointTempZeroFile
                   kSensorTripPointHystZeroFile int_to_string).
Local Abbreviation uevent :=
  (support_uevent fs ReadFileToString WriteStringToFile kSensorPolicyFile
                  kUserSpaceSuffix kSensorTripPointTempZeroFile
                  kSensorTripPointHystZeroFile int_to_string).
Local Abbreviation trip_step :=
  (initialize_trip_step fs ReadFileToString WriteStringToFile kSensorPolicyFile
                        kUserSpaceSuffix kSensorTripPointTempZeroFile
                        kSensorTripPointHystZeroFile int_to_string).

Lemma trip_point_loop_true (sensor_info : SensorInfo) (tz_path : string)
    (range : list ThrottlingSeverity) :
  (trip_loop sensor_info tz_path range).1 = true ->
  SHUTDOWN ∈ range ->
  exists before i after,
    range = before ++ i :: after
    /\ (forall j, j ∈ before ->
                  isnan (hot_thresholds sensor_info j) = true
                  \/ isnan (hot_hysteresis sensor_info j) = true)
    /\ isnan (hot_thresholds sensor_info i) = false
    /\ isnan (hot_hysteresis sensor_info i) = false
    /\ (trip_loop sensor_info tz_path range).2
       = [(path_of tz_path kSensorTripPointTempZeroFile,
           int_to_string (F32.div (hot_thresholds sensor_info i)
                                  (multiplier sensor_info)));
          (path_of tz_path kSensorTripPointHystZeroFile,
           int_to_string (F32.div (hot_hysteresis sensor_info i)
                                  (multiplier sensor_info)))]
    /\ Forall (fun w : string * string => WriteStringToFile w.2 w.1 = true)
              (trip_loop sensor_info tz_path range).2.
Proof.
  induction range as [|i range IH]; intros Hok Hin; [by apply elem_of_nil in Hin|].
  cbn [trip_point_loop] in *.
  destruct (isnan (hot_thresholds sensor_info i)) eqn:Ht; cbn [negb andb] in *.
  - destruct (decide (i = SHUTDOWN)) as [->|Hne].
    { by rewrite bool_decide_eq_true_2 in Hok. }
    rewrite bool_decide_eq_false_2 in Hok |- * by done.
    apply elem_of_cons in Hin as [?|Hin]; [done|].
    destruct (IH Hok Hin) as (before & k & after & -> & Hbefore & Hrest).
    exists (i :: before), k, after. split; [done|]. split; [|done].
    intros j [->|Hj]%elem_of_cons; [by left|by apply Hbefore].
  - destruct (isnan (hot_hysteresis sensor_info i)) eqn:Hh; cbn [negb] in *.
    + destruct (decide (i = SHUTDOWN)) as [->|Hne].
      { by rewrite bool_decide_eq_true_2 in Hok. }
      rewrite bool_decide_eq_false_2 in Hok |- * by done.
      apply elem_of_cons in Hin as [?|Hin]; [done|].
      destruct (IH Hok Hin) as (before & k & after & -> & Hbefore & Hrest).
      exists (i :: before), k, after. split; [done|]. split; [|done].
      intros j [->|Hj]%elem_of_cons; [by right|by apply Hbefore].
    + exists [], i, range. split; [done|].
      split; [by intros j ?%elem_of_nil|]. split; [done|]. split; [done|].
      destruct (WriteStringToFile _ (path_of tz_path kSensorTripPointTempZeroFile))
        eqn:W1; cbn [negb] in *; [|done].
      destruct (WriteStringToFile _ (path_of tz_path kSensorTripPointHystZeroFile))
        eqn:W2; cbn [negb] in *; [|done].
      split; [done|]. by repeat constructor.
Qed.

(** X27.  Uevent support of a thermal zone means that its policy file
    reads [kUserSpaceSuffix] once trimmed, that some severity, NONE
    included, has both its hot threshold and its hot hysteresis set, and
    that for the first such severity the trip point and its hysteresis
    were written, each write succeeding; nothing else is written. *)
Theorem uevent_support_writes_first_trip_point
    (sensor_info : SensorInfo) (tz_path : string) :
  (uevent sensor_info tz_path).1 = true ->
  (exists tz_policy,
      ReadFileToString (path_of tz_path kSensorPolicyFile) = Some tz_policy
      /\ Trim fs tz_policy = kUserSpaceSuffix)
  /\ exists before i after,
      hidl_enum_range = before ++ i :: after
      /\ (forall j, j ∈ before ->
                    isnan (hot_thresholds sensor_info j) = true
                    \/ isnan (hot_hysteresis sensor_info j) = true)
      /\ isnan (hot_thresholds sensor_info i) = false
      /\ isnan (hot_hysteresis sensor_info i) = false
      /\ (uevent sensor_info tz_path).2
         = [(path_of tz_path kSensorTripPointTempZeroFile,
             int_to_string (F32.div (hot_thresholds sensor_info i)
                                    (multiplier sensor_info)));
            (path_of tz_path kSensorTripPointHystZeroFile,
             int_to_string (F32.div (hot_hysteresis sensor_info i)
                                    (multiplier sensor_info)))]
      /\ Forall (fun w : string * string => WriteStringToFile w.2 w.1 = true)
                (uevent sensor_info tz_path).2.
Proof.
  unfold support_uevent.
  destruct (ReadFileToString _) as [tz_policy|]; [|done].
  destruct (decide (Trim fs tz_policy = kUserSpaceSuffix)) as [Heq|Hne].
  - rewrite bool_decide_eq_false_2 by (by intros ?). intros Hok.
    split; [by exists tz_policy|].
    apply trip_point_loop_true; [done|]. unfold hidl_enum_range.
    rewrite !elem_of_cons. tauto.
  - by rewrite bool_decide_eq_true_2.
Qed.

Lemma initialize_trip_fold (path_map : gmap string string)
    (l : list (string * SensorInfo))
    (infos0 infos : gmap string SensorInfo) (mon0 mon : gset string)
    (w0 w : list (string * string)) :
  NoDup l.*1 ->
  foldl (trip_step path_map) (Some (infos0, mon0, w0)) l = Some (infos, mon, w) ->
  (forall name, name ∉ l.*1 ->
                infos !! name = infos0 !! name /\ (name ∈ mon <-> name ∈ mon0))
  /\ (forall name info,
         (name, info) ∈ l ->
         if negb (is_monitor info) || is_virtual_sensor info
         then infos !! name = infos0 !! name /\ (name ∈ mon <-> name ∈ mon0)
         else
           exists tz_path,
             path_map !! name = Some tz_path
             /\ if (uevent info tz_path).1
                then name ∈ mon /\ infos !! name = infos0 !! name
                else infos !! name = Some (setMinTimeout fs info)
                     /\ (name ∈ mon <-> name ∈ mon0)).
Proof.
  revert infos0 mon0 w0. induction l as [|[n i] l IH]; intros infos0 mon0 w0 Hnd Hfold.
  { injection Hfold as <- <- <-. split; [done|]. by intros ?? ?%elem_of_nil. }
  cbn [fmap list_fmap fst] in Hnd. apply NoDup_cons in Hnd as [Hnotin Hnd].
  cbn [foldl] in Hfold.
  destruct (trip_step path_map (Some (infos0, mon0, w0)) (n, i))
    as [[[infos1 mon1] w1]|] eqn:Hstep; [|by rewrite foldl_None in Hfold].
  destruct (IH _ _ _ Hnd Hfold) as [I1 I2].
  unfold initialize_trip_step in Hstep. cbn [mbind option_bind fst snd] in Hstep.
  assert ((forall name, name <> n ->
             infos1 !! name = infos0 !! name /\ (name ∈ mon1 <-> name ∈ mon0))
          /\ if negb (is_monitor i) || is_virtual_sensor i
             then infos1 !! n = infos0 !! n /\ (n ∈ mon1 <-> n ∈ mon0)
             else
               exists tz_path,
                 path_map !! n = Some tz_path
                 /\ if (uevent i tz_path).1
                    then n ∈ mon1 /\ infos1 !! n = infos0 !! n
                    else infos1 !! n = Some (setMinTimeout fs i)
                         /\ (n ∈ mon1 <-> n ∈ mon0)) as [Hother Hself].
  { destruct (negb (is_monitor i) || is_virtual_sensor i).
    { by injection Hstep as <- <- <-. }
    destruct (path_map !! n) as [tz_path|]; cbn [mbind option_bind] in Hstep; [|done].
    split.
    - intros name Hne.
      destruct (uevent i tz_path) as [[] attempts]; injection Hstep as <- <- <-.
      + split; [done|]. rewrite elem_of_union, elem_of_singleton. tauto.
      + by rewrite lookup_insert_ne.
    - exists tz_path. split; [done|].
      destruct (uevent i tz_path) as [[] attempts]; injection Hstep as <- <- <-;
        cbn [fst].
      + split; [|done]. apply elem_of_union_l. by apply elem_of_singleton.
      + by rewrite lookup_insert_eq. }
  split.
  - intros name [Hne Hn]%not_elem_of_cons.
    destruct (I1 name Hn) as [E1 E2]. destruct (Hother name Hne) as [F1 F2].
    split; [congruence|tauto].
  - intros name info [[= -> ->]|Hin]%elem_of_cons.
    + destruct (I1 n Hnotin) as [E1 E2].
      destruct (negb (is_monitor i) || is_virtual_sensor i).
      * destruct Hself as [F1 F2]. split; [congruence|tauto].
      * destruct Hself as (tz_path & Hp & H). exists tz_path. split; [done|].
        destruct (uevent i tz_path).1; destruct H as [H1 H2];
          split; try congruence; tauto.
    + assert (name <> n) as Hne.
      { intros ->. apply Hnotin. apply list_elem_of_fmap. by exists (n, info). }
      destruct (Hother name Hne) as [F1 F2]. specialize (I2 name info Hin).
      destruct (negb (is_monitor info) || is_virtual_sensor info).
      * destruct I2 as [G1 G2]. split; [congruence|tauto].
      * destruct I2 as (tz_path & Hp & H). exists tz_path. split; [done|].
        destruct (uevent info tz_path).1; destruct H as [H1 H2];
          split; try congruence; tauto.
Qed.

(** X28.  [initializeTrip] leaves every sensor that is not monitored, or
    is virtual, as it was.  A monitored physical sensor needs an entry in
    the path map; it is added to the monitored set, its delays unchanged,
    when its thermal zone supports uevents, and otherwise gets
    [kMinPollIntervalMs] for both delays and is not added. *)
Theorem trip_init_polls_sensors_without_uevent
    (h : ThermalHelper) (path_map : gmap string string) (monitored_sensors : gset string)
    (sensor_info_map : gmap string SensorInfo) (monitored : gset string)
    (written : list (string * string)) (name : string) (info : SensorInfo) :
  initializeTrip fs ReadFileToString WriteStringToFile kSensorPolicyFile
                 kUserSpaceSuffix kSensorTripPointTempZeroFile
                 kSensorTripPointHystZeroFile int_to_string
                 h path_map monitored_sensors
  = Some (sensor_info_map, monitored, written) ->
  sensor_info_map_ h !! name = Some info ->
  if negb (is_monitor info) || is_virtual_sensor info
  then sensor_info_map !! name = Some info
       /\ (name ∈ monitored <-> name ∈ monitored_sensors)
  else
    exists tz_path,
      path_map !! name = Some tz_path
      /\ if (uevent info tz_path).1
         then name ∈ monitored /\ sensor_info_map !! name = Some info
         else sensor_info_map !! name = Some (setMinTimeout fs info)
              /\ (name ∈ monitored <-> name ∈ monitored_sensors).
Proof.
  unfold initializeTrip. intros Hfold Hinfo.
  apply initialize_trip_fold in Hfold as [_ Hin]; [|apply NoDup_fst_map_to_list].
  specialize (Hin name info). rewrite Hinfo in Hin. apply Hin.
  by apply elem_of_map_to_list.
Qed.
End TripInit.

Lemma uevent_support_writes_first_trip_point_witness :
  (exists tz_policy,
      trip_policy_files (path_of "/tz0" "policy") = Some tz_policy
      /\ Trim (platform_with ∅) tz_policy = "user_space")
  /\ exists before i after,
      hidl_enum_range = before ++ i :: after
      /\ (forall j, j ∈ before ->
                    isnan (hot_thresholds (sensor_with limit_throttling) j) = true
                    \/ isnan (hot_hysteresis (sensor_with limit_throttling) j) = true)
      /\ isnan (hot_thresholds (sensor_with limit_throttling) i) = false
      /\ isnan (hot_hysteresis (sensor_with limit_throttling) i) = false
      /\ (support_uevent (platform_with ∅) trip_policy_files (fun _ _ => true)
            "policy" "user_space" "trip_point_0_temp" "trip_point_0_hyst"
            (fun _ => "0") (sensor_with limit_throttling) "/tz0").2
         = [(path_of "/tz0" "trip_point_0_temp",
             (fun _ : float => "0")
               (F32.div (hot_thresholds (sensor_with limit_throttling) i)
                        (multiplier (sensor_with limit_throttling))));
            (path_of "/tz0" "trip_point_0_hyst",
             (fun _ : float => "0")
               (F32.div (hot_hysteresis (sensor_with limit_throttling) i)
                        (multiplier (sensor_with limit_throttling))))]
      /\ Forall (fun w : string * string => (fun _ _ : string => true) w.2 w.1 = true)
                (support_uevent (platform_with ∅) trip_policy_files (fun _ _ => true)
                   "policy" "user_space" "trip_point_0_temp" "trip_point_0_hyst"
                   (fun _ => "0") (sensor_with limit_throttling) "/tz0").2.
Proof.
  apply (uevent_support_writes_first_trip_point (platform_with ∅) trip_policy_files
           (fun _ _ => true) "policy" "user_space" "trip_point_0_temp"
           "trip_point_0_hyst" (fun _ => "0") (sensor_with limit_throttling) "/tz0").
  reflexivity.
Defined.

Lemma trip_init_polls_sensors_without_uevent_witness :
  exists sensor_info_map monitored written,
    initializeTrip (platform_with ∅) trip_policy_files (fun _ _ => true)
                   "policy" "user_space" "trip_point_0_temp" "trip_point_0_hyst"
                   (fun _ => "0") two_sensor_helper trip_path_map ∅
    = Some (sensor_info_map, monitored, written)
    /\ exists tz_path,
        trip_path_map !! "B" = Some tz_path
        /\ if (support_uevent (platform_with ∅) trip_policy_files (fun _ _ => true)
                 "policy" "user_space" "trip_point_0_temp" "trip_point_0_hyst"
                 (fun _ => "0") (sensor_with limit_throttling) tz_path).1
           then "B" ∈ monitored
                /\ sensor_info_map !! "B" = Some (sensor_with limit_throttling)
           else sensor_info_map !! "B"
                = Some (setMinTimeout (platform_with ∅) (sensor_with limit_throttling))
                /\ ("B" ∈ monitored <-> "B" ∈ (∅ : gset string)).
Proof.
  destruct (initializeTrip (platform_with ∅) trip_policy_files (fun _ _ => true)
              "policy" "user_space" "trip_point_0_temp" "trip_point_0_hyst"
              (fun _ => "0") two_sensor_helper trip_path_map ∅)
    as [[[sensor_info_map monitored] written]|] eqn:Hrun;
    [|vm_compute in Hrun; discriminate].
  exists sensor_info_map, monitored, written. split; [reflexivity|].
  apply (trip_init_polls_sensors_without_uevent _ _ _ _ _ _ _ _ _ _ _ _ _ _
           "B" (sensor_with limit_throttling) Hrun).
  vm_compute. reflexivity.
Defined.

(** * Battery health telemetry *)

Section BatteryHealth.
Import BatteryHealthReporter.
Variable health_status_stats_fields : list Z.
Variable kVendorAtomOffset : Z.
Variable kBatteryHealthStatus : Z.
Variable sscanf : string -> list Z.

(** X29.  Over any sequence of calls of [checkAndReportStatus], each
    call that reads the lines is at least [SECONDS_PER_MONTH] after the
    one that last did (after the initial [report_time_] for the first),
    unless that time is 0, which the reporter takes for never. *)
Theorem battery_reports_a_month_apart
    (report_time_ : Z) (calls : list (Z * option string)) (times : list Z) :
  report_times health_status_stats_fields kVendorAtomOffset kBatteryHealthStatus sscanf
               report_time_ calls = Some times ->
  month_apart report_time_ times.
Proof.
  revert report_time_ times.
  induction calls as [|[now file] calls IH]; intros r0 times Hrun.
  { by injection Hrun as <-. }
  cbn [report_times fst snd] in Hrun. unfold checkAndReportStatus in Hrun.
  destruct (decide (r0 ≠ 0 /\ now - r0 < SECONDS_PER_MONTH)) as [Hgate|Hgate].
  - rewrite (proj2 (andb_true_iff _ _)) in Hrun
      by (split; apply bool_decide_eq_true; tauto).
    cbn [mbind option_bind fst snd] in Hrun.
    destruct (report_times _ _ _ _ r0 calls) as [times'|] eqn:Hrest;
      cbn [mbind option_bind] in Hrun; [|done].
    injection Hrun as <-. by apply IH.
  - rewrite (proj2 (andb_false_iff _ _)) in Hrun.
    2:{ destruct (decide (r0 ≠ 0)); [right|left]; apply bool_decide_eq_false; tauto. }
    destruct file as [contents|]; cbn [mbind option_bind fst snd] in Hrun.
    + destruct (foldl _ _ _) as [atoms|]; cbn [mbind option_bind fst snd] in Hrun;
        [|done].
      destruct (report_times _ _ _ _ now calls) as [times'|] eqn:Hrest;
        cbn [mbind option_bind] in Hrun; [|done].
      injection Hrun as <-. cbn [month_apart]. split; [|by apply IH].
      destruct (decide (r0 = 0)); [by left|right]. lia.
    + destruct (report_times _ _ _ _ r0 calls) as [times'|] eqn:Hrest;
        cbn [mbind option_bind] in Hrun; [|done].
      injection Hrun as <-. by apply IH.
Qed.

Lemma assign_values_spec (fields tmp : list Z) (vals vals' : list (option Z)) :
  NoDup fields -> length fields = length tmp ->
  assign_values kVendorAtomOffset fields tmp vals = Some vals' ->
  length vals' = length vals
  /\ (forall i f v,
         fields !! i = Some f -> tmp !! i = Some v ->
         0 <= f - kVendorAtomOffset < Z.of_nat (length vals)
         /\ vals' !! Z.to_nat (f - kVendorAtomOffset) = Some (Some v))
  /\ (forall j, (forall f, f ∈ fields -> Z.to_nat (f - kVendorAtomOffset) <> j) ->
                vals' !! j = vals !! j).
Proof.
  revert tmp vals. induction fields as [|f fields IH]; intros [|v tmp] vals Hnd Hlen Hrun;
    try done.
  { injection Hrun as <-. split; [done|]. split; [|done]. by intros [|?] ? ? ?. }
  apply NoDup_cons in Hnd as [Hnotin Hnd]. cbn [assign_values] in Hrun.
  destruct (decide (0 <= f - kVendorAtomOffset < Z.of_nat (length vals))) as [Hr|Hr].
  2:{ by rewrite bool_decide_eq_false_2 in Hrun. }
  rewrite bool_decide_eq_true_2 in Hrun by done.
  destruct (IH tmp _ Hnd ltac:(by injection Hlen) Hrun) as (Hl & Hset & Hkeep).
  rewrite length_insert in Hl, Hset. split; [done|]. split.
  - intros [|i] f' v' Hf Hv; cbn in Hf, Hv.
    + injection Hf as <-. injection Hv as <-. split; [done|].
      rewrite Hkeep.
      * apply list_lookup_insert_eq. lia.
      * intros f' Hf' Heq.
        destruct (list_elem_of_lookup_1 _ _ Hf') as [k Hk].
        destruct (lookup_lt_is_Some_2 tmp k) as [v' Hv'].
        { apply lookup_lt_Some in Hk. injection Hlen as Hlen. lia. }
        destruct (Hset k f' v' Hk Hv') as [Hr' _].
        assert (f' = f) as -> by lia. done.
    + by apply (Hset i).
  - intros j Hj. rewrite Hkeep.
    + apply list_lookup_insert_ne. apply Hj. by left.
    + intros f' Hf'. apply Hj. by right.
Qed.

(** The assignments are all made when every index is inside the vector. *)
Lemma assign_values_is_Some (fields tmp : list Z) (vals : list (option Z)) :
  (forall f, f ∈ fields -> 0 <= f - kVendorAtomOffset < Z.of_nat (length vals)) ->
  is_Some (assign_values kVendorAtomOffset fields tmp vals).
Proof.
  revert tmp vals. induction fields as [|f fields IH]; intros [|v tmp] vals Hin;
    try (by eexists).
  cbn [assign_values].
  rewrite bool_decide_eq_true_2 by (apply Hin; by left).
  apply IH. intros f' Hf'. rewrite length_insert. apply Hin. by right.
Qed.

(** X30.  A line that does not convert to ten numbers sends nothing.  A
    line that does, with ten distinct field numbers that all lie from
    [kVendorAtomOffset] to [kVendorAtomOffset + 9], sends one atom of ten
    values in which the [i]-th number of the line sits at index
    [health_status_stats_fields[i] - kVendorAtomOffset]. *)
Theorem battery_atom_holds_line_values (line : string) :
  (length (sscanf line) <> 10%nat ->
   reportBatteryHealthStatus health_status_stats_fields kVendorAtomOffset
                             kBatteryHealthStatus sscanf line = Some [])
  /\ (length (sscanf line) = 10%nat ->
      length health_status_stats_fields = 10%nat ->
      NoDup health_status_stats_fields ->
      (forall f, f ∈ health_status_stats_fields -> 0 <= f - kVendorAtomOffset < 10) ->
      exists vals,
        reportBatteryHealthStatus health_status_stats_fields kVendorAtomOffset
                                  kBatteryHealthStatus sscanf line
        = Some [{| atomId := kBatteryHealthStatus; values := vals |}]
        /\ length vals = 10%nat
        /\ forall i f v,
            health_status_stats_fields !! i = Some f ->
            sscanf line !! i = Some v ->
            vals !! Z.to_nat (f - kVendorAtomOffset) = Some (Some v)).
Proof.
  unfold reportBatteryHealthStatus. cbv zeta. split.
  - intros Hn. by rewrite bool_decide_eq_true_2.
  - intros Hten Hfields Hnd Hrange.
    rewrite bool_decide_eq_false_2 by (intros ?; done).
    destruct (assign_values_is_Some health_status_stats_fields (sscanf line)
                (replicate 10 None)) as [vals Ha].
    { intros f Hf. rewrite length_replicate. by apply Hrange. }
    rewrite Ha. cbn [mbind option_bind].
    apply assign_values_spec in Ha as (Hl & Hset & _); [|done|congruence].
    rewrite length_replicate in Hl, Hset.
    exists vals. split; [done|]. split; [done|].
    intros i f v Hf Hv. by destruct (Hset i f v Hf Hv) as [_ Hv'].
Qed.
End BatteryHealth.

Lemma battery_reports_a_month_apart_witness :
  BatteryHealthReporter.month_apart 0 [100; 100 + BatteryHealthReporter.SECONDS_PER_MONTH].
Proof.
  apply (battery_reports_a_month_apart BatteryHealthReporter.example_fields 2 0
           BatteryHealthReporter.example_sscanf 0 BatteryHealthReporter.example_calls
           [100; 100 + BatteryHealthReporter.SECONDS_PER_MONTH]).
  vm_compute. reflexivity.
Defined.

Lemma battery_atom_holds_line_values_witness :
  BatteryHealthReporter.reportBatteryHealthStatus
    BatteryHealthReporter.example_fields 2 0 BatteryHealthReporter.example_sscanf "no"
  = Some []
  /\ exists vals,
      BatteryHealthReporter.reportBatteryHealthStatus
        BatteryHealthReporter.example_fields 2 0 BatteryHealthReporter.example_sscanf "ok"
      = Some [{| BatteryHealthReporter.atomId := 0;
                 BatteryHealthReporter.values := vals |}]
      /\ length vals = 10%nat
      /\ forall i f v,
          BatteryHealthReporter.example_fields !! i = Some f ->
          BatteryHealthReporter.example_sscanf "ok" !! i = Some v ->
          vals !! Z.to_nat (f - 2) = Some (Some v).
Proof.
  split.
  - apply (proj1 (battery_atom_holds_line_values BatteryHealthReporter.example_fields 2 0
                    BatteryHealthReporter.example_sscanf "no")).
    vm_compute. discriminate.
  - apply (proj2 (battery_atom_holds_line_values BatteryHealthReporter.example_fields 2 0
                    BatteryHealthReporter.example_sscanf "ok")).
    + reflexivity.
    + reflexivity.
    + unfold BatteryHealthReporter.example_fields.
      repeat (apply NoDup_cons; split; [rewrite ?elem_of_cons, elem_of_nil; lia|]).
      apply NoDup_nil. done.
    + intros f Hf. unfold BatteryHealthReporter.example_fields in Hf.
      rewrite !elem_of_cons, elem_of_nil in Hf. lia.
Defined.
